(** * data_guard: strict loading, indexing, integrity checks and manifest

    A shallow embedding of [tools/data_guard.py] and the properties of its
    pipeline.  Python values are modelled as follows.

    - [str] is [string]: the UTF-8 bytes of the text.  Python compares
      strings by code point, which on UTF-8 bytes is the bytewise order.
    - A [dict] is an association list in insertion order without repeated
      keys: Python dicts iterate in insertion order and the code depends on
      it (the report lines, the dumped documents).
    - A [set] of strings is a duplicate-free list.  Python leaves the
      iteration order of a set open; the model iterates in the order of
      first insertion.
    - The [json] module is library code: the decoder is modelled by what it
      hands to the program, a syntax tree whose objects are the lists of
      pairs passed to [object_pairs_hook] (innermost object first), or a
      [JSONDecodeError]; the encoder by the text it writes.
    - [hashlib] is library code too; the hash object is SHA-256 fed byte by
      byte.
    - The file system is a record of what the directory walks yield and of
      what the path queries answer; a run reads it and returns what it
      wrote. *)

From Stdlib Require Import String Ascii List ZArith NArith Lia Bool Arith.
From Stdlib Require Import DecimalString OrderedTypeEx Permutation Sorted.
From Stdlib.Strings Require Import Byte.
Import ListNotations.

Local Open Scope string_scope.
Local Open Scope list_scope.

Set Implicit Arguments.
Set Warnings "-register-all".

(* ------------------------------------------------------------------ *)
(** ** Python strings *)

(** [str(n)] for an integer. *)
Definition str_of_Z (z : Z) : string :=
  NilZero.string_of_int (Z.to_int z).

(** [sep.join(items)]. *)
Fixpoint join (sep : string) (items : list string) : string :=
  match items with
  | [] => ""
  | [x] => x
  | x :: rest => x ++ sep ++ join sep rest
  end.

(** [s.endswith(suffix)]. *)
Definition endswith (s suffix : string) : bool :=
  let n := String.length s in
  let m := String.length suffix in
  (m <=? n)%nat && String.eqb (substring (n - m) m s) suffix.

(** [s.startswith(p)]. *)
Definition startswith (s p : string) : bool := prefix p s.

Definition lower_ascii (c : ascii) : ascii :=
  let n := nat_of_ascii c in
  if ((65 <=? n) && (n <=? 90))%nat then ascii_of_nat (n + 32) else c.

(** [s.lower()], on the letters that can matter for matching an ASCII
    extension. *)
Fixpoint lower (s : string) : string :=
  match s with
  | EmptyString => EmptyString
  | String c r => String (lower_ascii c) (lower r)
  end.

(** Truthiness of a string: [bool(s)]. *)
Definition truthy (s : string) : bool := negb (String.eqb s "").

(* ------------------------------------------------------------------ *)
(** ** Lists used as Python sets and dicts *)

Fixpoint mem (x : string) (l : list string) : bool :=
  match l with
  | [] => false
  | y :: r => String.eqb x y || mem x r
  end.

(** [s.add(x)]. *)
Definition set_add (x : string) (s : list string) : list string :=
  if mem x s then s else s ++ [x].

(** [s.update(xs)]. *)
Definition set_update (xs s : list string) : list string :=
  fold_left (fun acc x => set_add x acc) xs s.

(** [set(xs)]. *)
Definition set_of_list (xs : list string) : list string := set_update xs [].

Section Dict.
Variable V : Type.

Definition dict := list (string * V).

(** [d.get(k)]. *)
Fixpoint dict_get (k : string) (d : dict) : option V :=
  match d with
  | [] => None
  | (k', v) :: r => if String.eqb k k' then Some v else dict_get k r
  end.

(** [k in d]. *)
Definition dict_mem (k : string) (d : dict) : bool :=
  match dict_get k d with Some _ => true | None => false end.

(** [d[k] = v]: an existing key keeps its place, a new one goes last. *)
Fixpoint dict_set (k : string) (v : V) (d : dict) : dict :=
  match d with
  | [] => [(k, v)]
  | (k', v') :: r =>
      if String.eqb k k' then (k', v) :: r else (k', v') :: dict_set k v r
  end.

Definition dict_keys (d : dict) : list string := map fst d.
End Dict.

(* ------------------------------------------------------------------ *)
(** ** [sorted] *)

Section Sorting.
Variable A : Type.
Variable leb : A -> A -> bool.

(** Insertion before the first element that is not smaller: with
    [fold_right] this is a stable sort, as Python's [sorted] is. *)
Fixpoint insert_sorted (x : A) (l : list A) : list A :=
  match l with
  | [] => [x]
  | y :: r => if leb x y then x :: y :: r else y :: insert_sorted x r
  end.

Definition sorted_by (l : list A) : list A :=
  fold_right insert_sorted [] l.
End Sorting.

(** [sorted(xs)] on strings. *)
Definition sorted (xs : list string) : list string := sorted_by String.leb xs.

(** Order of tuples and lists of strings, as Python compares them. *)
Fixpoint list_compare (a b : list string) : comparison :=
  match a, b with
  | [], [] => Eq
  | [], _ :: _ => Lt
  | _ :: _, [] => Gt
  | x :: a', y :: b' =>
      match String.compare x y with
      | Eq => list_compare a' b'
      | c => c
      end
  end.

Definition list_leb (a b : list string) : bool :=
  match list_compare a b with Gt => false | _ => true end.

(* ------------------------------------------------------------------ *)
(** ** JSON values *)

(** A float is kept as its [repr], which is what [json.dump] writes and
    what decides its identity here. *)
Inductive json : Type :=
| JNull
| JBool (b : bool)
| JInt (z : Z)
| JFloat (repr : string)
| JStr (s : string)
| JList (items : list json)
| JDict (pairs : list (string * json)).

Section JsonInd.
Variable P : json -> Prop.
Hypothesis HNull : P JNull.
Hypothesis HBool : forall b, P (JBool b).
Hypothesis HInt : forall z, P (JInt z).
Hypothesis HFloat : forall r, P (JFloat r).
Hypothesis HStr : forall s, P (JStr s).
Hypothesis HList : forall l, Forall P l -> P (JList l).
Hypothesis HDict : forall d, Forall (fun kv => P (snd kv)) d -> P (JDict d).

Fixpoint json_induction (j : json) : P j :=
  match j with
  | JNull => HNull
  | JBool b => HBool b
  | JInt z => HInt z
  | JFloat r => HFloat r
  | JStr s => HStr s
  | JList l =>
      HList ((fix go (l : list json) : Forall P l :=
                match l with
                | [] => Forall_nil _
                | x :: r => Forall_cons x (json_induction x) (go r)
                end) l)
  | JDict d =>
      HDict ((fix go (d : list (string * json))
               : Forall (fun kv => P (snd kv)) d :=
                match d with
                | [] => Forall_nil _
                | kv :: r =>
                    Forall_cons kv (json_induction (snd kv)) (go r)
                end) d)
  end.
End JsonInd.

(* ------------------------------------------------------------------ *)
(** ** Strict loader *)

(** The exceptions [load_json_strict] raises: the [ValueError] it makes of
    a [JSONDecodeError], [DuplicateKeyError], and whatever opening or
    decoding the file raised, which it lets through. *)
Inductive load_error : Type :=
| JSONSyntaxError (path : string) (lineno colno : Z) (msg : string)
| DuplicateKeyError (filename : string) (keys : list string)
| ReadFailure (msg : string).

(** [str(e)]. *)
Definition str_of_load_error (e : load_error) : string :=
  match e with
  | JSONSyntaxError path lineno colno msg =>
      "JSON syntax error in " ++ path ++ " at line " ++ str_of_Z lineno
        ++ ", col " ++ str_of_Z colno ++ ": " ++ msg
  | DuplicateKeyError _ keys =>
      "Duplicate key(s) in JSON object: "
        ++ join ", " (sorted (set_of_list keys))
  | ReadFailure msg => msg
  end.

(** The loop of [_object_pairs_no_duplicates]. *)
Fixpoint scan_pairs (pairs : list (string * json))
    (seen : dict json) (dups : list string) : dict json * list string :=
  match pairs with
  | [] => (seen, dups)
  | (k, v) :: rest =>
      scan_pairs rest (dict_set k v seen)
        (if dict_mem k seen then dups ++ [k] else dups)
  end.

Definition object_pairs_no_duplicates (pairs : list (string * json))
    (file_for_error : string) : load_error + dict json :=
  let '(seen, dups) := scan_pairs pairs [] [] in
  match dups with
  | [] => inr seen
  | _ :: _ => inl (DuplicateKeyError file_for_error dups)
  end.

(** What opening and decoding a file comes to: an exception of the file
    system or the codec with its text, a [JSONDecodeError], or a syntax
    tree. *)
Inductive decoded : Type :=
| Unreadable_file (msg : string)
| DecodeError (lineno colno : Z) (msg : string)
| Decoded (raw : json).

(** Python's exceptions in a loop body: the first one ends the loop. *)
Definition mapM (A B E : Type) (f : A -> E + B) : list A -> E + list B :=
  fix go (l : list A) : E + list B :=
    match l with
    | [] => inr []
    | x :: r =>
        match f x with
        | inl e => inl e
        | inr v =>
            match go r with
            | inl e => inl e
            | inr vs => inr (v :: vs)
            end
        end
    end.

(** The decoder's walk over a syntax tree: values are built left to right
    and the hook runs on each object when it closes, so the first
    exception is that of the first offending object to close. *)
Fixpoint decode_with_hook (file : string) (raw : json) : load_error + json :=
  match raw with
  | JList items =>
      match mapM (decode_with_hook file) items with
      | inl e => inl e
      | inr vs => inr (JList vs)
      end
  | JDict pairs =>
      match
        mapM (fun kv : string * json =>
                match decode_with_hook file (snd kv) with
                | inl e => inl e
                | inr v => inr (fst kv, v)
                end) pairs
      with
      | inl e => inl e
      | inr ps =>
          match object_pairs_no_duplicates ps file with
          | inl e => inl e
          | inr d => inr (JDict d)
          end
      end
  | other => inr other
  end.

Definition load_json_strict (path : string) (doc : decoded)
    : load_error + json :=
  match doc with
  | Unreadable_file msg => inl (ReadFailure msg)
  | DecodeError lineno colno msg =>
      inl (JSONSyntaxError path lineno colno msg)
  | Decoded raw => decode_with_hook path raw
  end.

(** The key lists of the objects of a document, one per object scope, in
    the order in which the objects close. *)
Fixpoint scopes (raw : json) : list (list string) :=
  match raw with
  | JList items => flat_map scopes items
  | JDict pairs =>
      flat_map (fun kv : string * json => scopes (snd kv)) pairs
        ++ [map fst pairs]
  | _ => []
  end.

(* ------------------------------------------------------------------ *)
(** ** Hashing *)

(** [hashlib.sha256] is library code; this is SHA-256 as FIPS 180-4 gives
    it, on 32-bit words kept in [Z].  The hash object takes its input a
    byte at a time and compresses each time 64 bytes are pending. *)
Module Sha256.
Local Open Scope Z_scope.

Definition mask32 : Z := 0xffffffff.
Definition add32 (a b : Z) : Z := Z.land (a + b) mask32.
Definition rotr (n x : Z) : Z :=
  Z.lor (Z.shiftr x n) (Z.land (Z.shiftl x (32 - n)) mask32).
Definition not32 (x : Z) : Z := Z.lxor x mask32.
Definition Ch (x y z : Z) : Z := Z.lxor (Z.land x y) (Z.land (not32 x) z).
Definition Maj (x y z : Z) : Z :=
  Z.lxor (Z.lxor (Z.land x y) (Z.land x z)) (Z.land y z).
Definition Sigma0 (x : Z) : Z :=
  Z.lxor (Z.lxor (rotr 2 x) (rotr 13 x)) (rotr 22 x).
Definition Sigma1 (x : Z) : Z :=
  Z.lxor (Z.lxor (rotr 6 x) (rotr 11 x)) (rotr 25 x).
Definition sigma0 (x : Z) : Z :=
  Z.lxor (Z.lxor (rotr 7 x) (rotr 18 x)) (Z.shiftr x 3).
Definition sigma1 (x : Z) : Z :=
  Z.lxor (Z.lxor (rotr 17 x) (rotr 19 x)) (Z.shiftr x 10).

(** The first primes, by trial division. *)
Definition is_prime (n : nat) : bool :=
  forallb (fun d => negb (n mod d =? 0)%nat) (seq 2 (n - 2)).

Definition primes (count : nat) : list Z :=
  map Z.of_nat (firstn count (filter is_prime (seq 2 400))).

(** The integer cube root, one bit at a time from the top. *)
Fixpoint cube_root_bits (b : nat) (n r : Z) : Z :=
  let t := r + 2 ^ Z.of_nat b in
  let r' := if t * t * t <=? n then t else r in
  match b with
  | O => r'
  | S b' => cube_root_bits b' n r'
  end.

(** The round constants: the first 32 bits of the fractional parts of the
    cube roots of the first 64 primes. *)
Definition K : list Z :=
  Eval vm_compute in
    map (fun p => Z.land (cube_root_bits 40 (p * 2 ^ 96) 0) mask32)
      (primes 64).

(** The eight working words. *)
Definition words8 : Type := (Z * Z * Z * Z * Z * Z * Z * Z)%type.

(** The initial chaining value: the first 32 bits of the fractional parts
    of the square roots of the first 8 primes. *)
Definition H0 : words8 :=
  Eval vm_compute in
    match map (fun p => Z.land (Z.sqrt (p * 2 ^ 64)) mask32) (primes 8) with
    | [a; b; c; d; e; f; g; h] => (a, b, c, d, e, f, g, h)
    | _ => (0, 0, 0, 0, 0, 0, 0, 0)
    end.

(** Big-endian words of a block of bytes. *)
Fixpoint words_of_bytes (bs : list Z) : list Z :=
  match bs with
  | b0 :: b1 :: b2 :: b3 :: r =>
      Z.lor (Z.shiftl b0 24)
        (Z.lor (Z.shiftl b1 16) (Z.lor (Z.shiftl b2 8) b3))
        :: words_of_bytes r
  | _ => []
  end.

(** The message schedule, newest word first. *)
Fixpoint extend (n : nat) (w : list Z) : list Z :=
  match n with
  | O => w
  | S n' =>
      extend n'
        (add32 (add32 (add32 (sigma1 (nth 1 w 0)) (nth 6 w 0))
                  (sigma0 (nth 14 w 0))) (nth 15 w 0) :: w)
  end.

Definition schedule (block : list Z) : list Z :=
  rev (extend 48 (rev (words_of_bytes block))).

Definition round (s : words8) (kw : Z * Z) : words8 :=
  let '(a, b, c, d, e, f, g, h) := s in
  let t1 :=
    add32 (add32 (add32 (add32 h (Sigma1 e)) (Ch e f g)) (fst kw)) (snd kw)
  in
  let t2 := add32 (Sigma0 a) (Maj a b c) in
  (add32 t1 t2, a, b, c, add32 d t1, e, f, g).

Definition compress (s : words8) (block : list Z) : words8 :=
  let '(a, b, c, d, e, f, g, h) := s in
  let '(a', b', c', d', e', f', g', h') :=
    fold_left round (combine K (schedule block)) s in
  (add32 a a', add32 b b', add32 c c', add32 d d',
   add32 e e', add32 f f', add32 g g', add32 h h').

(** The hash object: chaining value, pending bytes, bytes taken so far. *)
Record hasher : Type := mkHasher {
  chain : words8;
  pending : list Z;
  taken : Z
}.

Definition new : hasher := mkHasher H0 [] 0.

Definition feed_raw (st : words8 * list Z) (b : Z) : words8 * list Z :=
  let buf := snd st ++ [b] in
  if (length buf =? 64)%nat then (compress (fst st) buf, [])
  else (fst st, buf).

Definition feed (h : hasher) (b : byte) : hasher :=
  let '(c, buf) := feed_raw (chain h, pending h) (Z.of_N (Byte.to_N b)) in
  mkHasher c buf (taken h + 1).

(** [h.update(data)]. *)
Definition update (h : hasher) (data : list byte) : hasher :=
  fold_left feed data h.

(** The padding of a message of [n] bytes of which [p] are pending. *)
Definition padding (p : nat) (n : Z) : list Z :=
  let bits := 8 * n in
  0x80 :: repeat 0 (Z.to_nat ((55 - Z.of_nat p) mod 64))
    ++ map (fun i => Z.land (Z.shiftr bits (8 * i)) 0xff) [7; 6; 5; 4; 3; 2; 1; 0].

Definition finish (h : hasher) : words8 :=
  fst (fold_left feed_raw (padding (length (pending h)) (taken h))
         (chain h, pending h)).

Definition hex_digit (n : Z) : ascii :=
  if n <? 10 then ascii_of_N (Z.to_N (48 + n))
  else ascii_of_N (Z.to_N (87 + n)).

Definition hex_word (w : Z) (rest : string) : string :=
  String (hex_digit (Z.land (Z.shiftr w 28) 15))
 (String (hex_digit (Z.land (Z.shiftr w 24) 15))
 (String (hex_digit (Z.land (Z.shiftr w 20) 15))
 (String (hex_digit (Z.land (Z.shiftr w 16) 15))
 (String (hex_digit (Z.land (Z.shiftr w 12) 15))
 (String (hex_digit (Z.land (Z.shiftr w 8) 15))
 (String (hex_digit (Z.land (Z.shiftr w 4) 15))
 (String (hex_digit (Z.land w 15)) rest))))))).

(** [h.hexdigest()]. *)
Definition hexdigest (hs : hasher) : string :=
  let '(a, b, c, d, e, f, g, h) := finish hs in
  hex_word a (hex_word b (hex_word c (hex_word d
    (hex_word e (hex_word f (hex_word g (hex_word h "")))))))%string.

(** [hashlib.sha256(data).hexdigest()]: the whole input in one step. *)
Definition sha256_hex (data : list byte) : string :=
  hexdigest (update new data).
End Sha256.

(** An open binary file is the bytes not yet read; [f.read(n)] hands out
    at most [n] of them. *)
Definition file_read (n : nat) (rest : list byte) : list byte * list byte :=
  (firstn n rest, skipn n rest).

Definition CHUNK : nat := N.to_nat (1024 * 1024).

(** The loop [for chunk in iter(lambda: f.read(size), b""): h.update(chunk)],
    which ends at the first empty chunk.  [fuel] bounds the iterations; one
    more than the length of the file is never used up. *)
Fixpoint update_chunks (fuel size : nat) (h : Sha256.hasher)
    (rest : list byte) : Sha256.hasher :=
  match fuel with
  | O => h
  | S fuel' =>
      match file_read size rest with
      | ([], _) => h
      | (chunk, rest') =>
          update_chunks fuel' size (Sha256.update h chunk) rest'
      end
  end.

Definition sha256_of_file (content : list byte) : string :=
  Sha256.hexdigest
    (update_chunks (S (length content)) CHUNK Sha256.new content).

Arguments CHUNK : simpl never.
Arguments sha256_of_file : simpl never.

(* ------------------------------------------------------------------ *)
(** ** Paths *)

(** The text between the slashes of a path. *)
Fixpoint split_slash (s : string) : list string :=
  match s with
  | EmptyString => [""]
  | String c r =>
      if Ascii.eqb c "/" then "" :: split_slash r
      else match split_slash r with
           | [] => [String c ""]
           | x :: xs => String c x :: xs
           end
  end.

(** [Path(s).parts] on a POSIX path. *)
Definition path_parts (s : string) : list string :=
  (if startswith s "/" then ["/"] else [])
    ++ filter (fun p => negb (String.eqb p "" || String.eqb p "."))
         (split_slash s).

(** [a / b]: an absolute right operand replaces the left one. *)
Definition path_join (a b : string) : string :=
  if startswith b "/" then b else a ++ "/" ++ b.

(** [Path(s).parent]. *)
Definition path_parent (s : string) : string :=
  join "/" (removelast (split_slash s)).

Fixpoint rfind_dot (s : string) : option nat :=
  match s with
  | EmptyString => None
  | String c r =>
      match rfind_dot r with
      | Some i => Some (S i)
      | None => if Ascii.eqb c "." then Some O else None
      end
  end.

(** [Path(s).suffix]. *)
Definition path_suffix (s : string) : string :=
  let name := last (path_parts s) "" in
  match rfind_dot name with
  | Some i =>
      if ((0 <? i) && (i <? String.length name - 1))%nat
      then substring i (String.length name - i) name
      else ""
  | None => ""
  end.

Fixpoint index_of (x : string) (l : list string) : option nat :=
  match l with
  | [] => None
  | y :: r =>
      if String.eqb x y then Some O
      else match index_of x r with Some i => Some (S i) | None => None end
  end.

Definition guess_type_from_path (rel : string) : string :=
  let parts := path_parts rel in
  match index_of "data" parts with
  | Some idx =>
      if (idx + 1 <? length parts)%nat then nth (idx + 1) parts "" else "data"
  | None => "data"
  end.

Definition ASSET_EXTS : list string :=
  [".png"; ".jpg"; ".jpeg"; ".dds"; ".tga";
   ".wav"; ".mp3"; ".ogg";
   ".ttf"; ".otf";
   ".bin"; ".shader"; ".hlsl"; ".glsl"; ".fx"].

(* ------------------------------------------------------------------ *)
(** ** Traversal and reference detection *)

Fixpoint iter_json_values (obj : json) : list json :=
  match obj with
  | JDict pairs =>
      flat_map (fun kv : string * json => iter_json_values (snd kv)) pairs
  | JList items => flat_map iter_json_values items
  | other => [other]
  end.

Fixpoint iter_json_pairs (obj : json) : list (string * json) :=
  match obj with
  | JDict pairs =>
      flat_map (fun kv : string * json =>
                  (fst kv, snd kv) :: iter_json_pairs (snd kv)) pairs
  | JList items => flat_map iter_json_pairs items
  | _ => []
  end.

(** [[x for x in v if isinstance(x, str)]]. *)
Definition strings_of (v : list json) : list string :=
  flat_map (fun x => match x with JStr s => [s] | _ => [] end) v.

Definition extract_deps (content : json) : list string :=
  fold_left
    (fun deps (kv : string * json) =>
       match snd kv with
       | JStr v => if endswith (fst kv) "_id" then set_add v deps else deps
       | JList v =>
           if endswith (fst kv) "_ids" then set_update (strings_of v) deps
           else deps
       | _ => deps
       end)
    (iter_json_pairs content) [].

Definition is_asset_string (v : string) : bool :=
  existsb (fun ext => endswith (lower v) ext) ASSET_EXTS.

Definition extract_asset_refs (content : json) : list string :=
  fold_left
    (fun refs v =>
       match v with
       | JStr s => if is_asset_string s then set_add s refs else refs
       | _ => refs
       end)
    (iter_json_values content) [].

(* ------------------------------------------------------------------ *)
(** ** Formatting *)

(** [l.remove(x)]: the first occurrence goes. *)
Fixpoint list_remove (x : string) (l : list string) : list string :=
  match l with
  | [] => []
  | y :: r => if String.eqb x y then r else y :: list_remove x r
  end.

(** The inner [sort_keys] of [stable_json_dump]. *)
Fixpoint sort_keys (o : json) : json :=
  match o with
  | JDict pairs =>
      let keys := sorted (map fst pairs) in
      let keys :=
        if mem "id" (map fst pairs) then "id" :: list_remove "id" keys
        else keys in
      let done := map (fun kv : string * json => (fst kv, sort_keys (snd kv)))
                    pairs in
      JDict (flat_map (fun k => match dict_get k done with
                                | Some v => [(k, v)]
                                | None => []
                                end) keys)
  | other => other
  end.

Definition LF : string := String (ascii_of_nat 10) "".

Definition hex4 (n : nat) : string :=
  let d i := Sha256.hex_digit (Z.land (Z.shiftr (Z.of_nat n) i) 15) in
  String (d 12%Z) (String (d 8%Z) (String (d 4%Z) (String (d 0%Z) ""))).

(** One character of a JSON string, as [json.dump(ensure_ascii=False)]
    writes it. *)
Definition escape_char (c : ascii) : string :=
  let n := nat_of_ascii c in
  if (n =? 34)%nat then "\" ++ String c ""
  else if (n =? 92)%nat then "\\"
  else if (n =? 10)%nat then "\n"
  else if (n =? 13)%nat then "\r"
  else if (n =? 9)%nat then "\t"
  else if (n =? 8)%nat then "\b"
  else if (n =? 12)%nat then "\f"
  else if (n <? 32)%nat then "\u" ++ hex4 n
  else String c "".

Fixpoint escape (s : string) : string :=
  match s with
  | EmptyString => EmptyString
  | String c r => escape_char c ++ escape r
  end.

Definition quote (s : string) : string :=
  String (ascii_of_nat 34) (escape s) ++ String (ascii_of_nat 34) "".

Fixpoint spaces (n : nat) : string :=
  match n with
  | O => ""
  | S n' => String " " (spaces n')
  end.

Definition newline_indent (level : nat) : string := LF ++ spaces (2 * level).

(** [json.dumps(v, ensure_ascii=False, indent=2)] at a nesting level. *)
Fixpoint dumps (level : nat) (v : json) : string :=
  match v with
  | JNull => "null"
  | JBool true => "true"
  | JBool false => "false"
  | JInt z => str_of_Z z
  | JFloat r => r
  | JStr s => quote s
  | JList [] => "[]"
  | JList items =>
      "[" ++ newline_indent (S level)
        ++ join ("," ++ newline_indent (S level)) (map (dumps (S level)) items)
        ++ newline_indent level ++ "]"
  | JDict [] => "{}"
  | JDict pairs =>
      "{" ++ newline_indent (S level)
        ++ join ("," ++ newline_indent (S level))
             (map (fun kv : string * json =>
                     (quote (fst kv) ++ ": " ++ dumps (S level) (snd kv))%string)
                  pairs)
        ++ newline_indent level ++ "}"
  end.

(** What [json.dump(obj, f, ensure_ascii=False, indent=2); f.write("\n")]
    puts in the file. *)
Definition dump_file (obj : json) : string := dumps 0 obj ++ LF.

(** The bytes [stable_json_dump] writes to [path]. *)
Definition stable_json_dump (obj : json) : string := dump_file (sort_keys obj).

(* ------------------------------------------------------------------ *)
(** ** The tree and what is found in it *)

(** A path that [data_dir.rglob("*.json")] yields: its path relative to
    the root, whether it is a regular file, its bytes and what the decoder
    makes of them. *)
Record JsonFile : Type := mkJsonFile {
  jf_rel : string;
  jf_is_file : bool;
  jf_bytes : list byte;
  jf_doc : decoded
}.

(** A path that [rglob("*")] yields under a media root. *)
Record Entry : Type := mkEntry {
  en_rel : string;
  en_is_file : bool;
  en_bytes : list byte
}.

(** The file system at one moment.  A listing is in the order in which
    [rglob] yields the paths, which the operating system decides; [None] is
    a directory that does not exist. *)
Record World : Type := mkWorld {
  data_listing : option (list JsonFile);
  res_listing : option (list Entry);
  resources_listing : option (list Entry);
  fs_resolve : string -> string;
  fs_exists : string -> bool;
  fs_is_file : string -> bool;
  fs_decode : string -> decoded;
  fs_write_error : string -> option string;
  jsonschema : option (json -> json -> option string)
}.

Record DataFile : Type := mkDataFile {
  df_path : string;
  df_rel : string;
  df_content : json;
  df_id : option string;
  df_type_guess : string;
  df_schema : option string;
  df_sha256 : string;
  df_deps : list string;
  df_asset_refs : list string
}.

(** The lines of the report, kept as the data their text is made of. *)
Inductive finding : Type :=
| MissingDataDir (data_dir : string)
| LoadFailed (e : load_error)
| IdNotString (rel : string)
| RewriteFailed (rel msg : string)
| DuplicateId (bad_id : string) (occurrences : Z) (first_seen : option string)
| UnresolvedRefs (rel : string) (missing : list string)
| SchemaLoadFailed (rel schema_path : string) (e : load_error)
| SchemaInvalid (rel msg : string)
| NoJsonFiles
| SchemaNotString (rel type_name : string)
| MissingAsset (rel ref : string)
| NoValidator (rel : string)
| SchemaNotFound (rel schema schema_dir : string).

(** The text of a report line. *)
Definition message (f : finding) : string :=
  match f with
  | MissingDataDir d => "Expected data directory at: " ++ d
  | LoadFailed e => str_of_load_error e
  | IdNotString rel => rel ++ ": 'id' must be a string if present."
  | RewriteFailed rel msg => rel ++ ": Failed to rewrite JSON: " ++ msg
  | DuplicateId bad_id n first_seen =>
      "Duplicate id '" ++ bad_id ++ "' found (" ++ str_of_Z n
        ++ " occurrences)"
        ++ match first_seen with
           | Some rel => "; first seen at " ++ rel
           | None => ""
           end
  | UnresolvedRefs rel missing =>
      rel ++ ": unresolved reference(s) -> " ++ join ", " missing
  | SchemaLoadFailed rel schema_path e =>
      rel ++ ": Failed to load schema '" ++ schema_path ++ "': "
        ++ str_of_load_error e
  | SchemaInvalid rel msg => rel ++ ": JSON Schema validation failed: " ++ msg
  | NoJsonFiles => "No JSON files found under 'data/'. Nothing to do."
  | SchemaNotString rel ty =>
      rel ++ ": '$schema' should be a string path (got " ++ ty ++ ")."
  | MissingAsset rel ref => rel ++ ": missing asset reference '" ++ ref ++ "'"
  | NoValidator rel =>
      rel ++ ": '$schema' present but 'jsonschema' is not installed; "
        ++ "skipping validation."
  | SchemaNotFound rel schema schema_dir =>
      rel ++ ": '$schema'='" ++ schema ++ "' not found next to file nor in '"
        ++ schema_dir ++ "'."
  end%string.

Record Report : Type := mkReport {
  errors : list finding;
  warnings : list finding
}.

Definition error (r : Report) (f : finding) : Report :=
  mkReport (errors r ++ [f]) (warnings r).

Definition warn (r : Report) (f : finding) : Report :=
  mkReport (errors r) (warnings r ++ [f]).

(** [type(v).__name__]. *)
Definition type_name (v : json) : string :=
  match v with
  | JNull => "NoneType"
  | JBool _ => "bool"
  | JInt _ => "int"
  | JFloat _ => "float"
  | JStr _ => "str"
  | JList _ => "list"
  | JDict _ => "dict"
  end.

Definition collect_json_files (listing : list JsonFile) : list JsonFile :=
  filter jf_is_file listing.

Definition is_asset_entry (root : string) (e : Entry) : bool :=
  en_is_file e
    && mem (lower (path_suffix (path_join root (en_rel e)))) ASSET_EXTS.

Definition collect_asset_files (root : string) (w : World) : list Entry :=
  flat_map (fun d : option (list Entry) =>
              match d with
              | Some listing => filter (is_asset_entry root) listing
              | None => []
              end)
    [res_listing w; resources_listing w].

(* ------------------------------------------------------------------ *)
(** ** Schema validation *)

Definition try_schema_validate (w : World) (schema_dir : string)
    (report : Report) (df : DataFile) : Report :=
  match df_schema df with
  | None => report
  | Some schema =>
      if negb (truthy schema) then report
      else
        match jsonschema w with
        | None => warn report (NoValidator (df_rel df))
        | Some validate =>
            let cand2 := path_join (path_parent (df_path df)) schema in
            let cand3 := path_join schema_dir schema in
            let schema_path :=
              if fs_is_file w schema then Some schema
              else if fs_is_file w cand2 then Some cand2
              else if fs_is_file w cand3 then Some cand3
              else None in
            match schema_path with
            | None =>
                warn report (SchemaNotFound (df_rel df) schema schema_dir)
            | Some sp =>
                match load_json_strict sp (fs_decode w sp) with
                | inl e => error report (SchemaLoadFailed (df_rel df) sp e)
                | inr sch =>
                    match validate (df_content df) sch with
                    | Some msg => error report (SchemaInvalid (df_rel df) msg)
                    | None => report
                    end
                end
            end
        end
  end.

(* ------------------------------------------------------------------ *)
(** ** The pipeline *)

(** What the parse-and-index loop of [analyze] carries from file to file. *)
Record Scan : Type := mkScan {
  sc_report : Report;
  sc_datafiles : list DataFile;
  sc_id_to_df : dict DataFile;
  sc_id_dups : dict Z;
  sc_written : list (string * string)
}.

(** An exception nothing in [analyze] catches. *)
Inductive uncaught : Type :=
| AttributeError (type_of_content : string).

(** [c[k] += 1] on a [Counter]. *)
Definition counter_incr (k : string) (c : dict Z) : dict Z :=
  dict_set k (match dict_get k c with Some n => n + 1 | None => 1 end)%Z c.

(** One turn of [for jp in json_paths]. *)
Definition scan_file (root : string) (do_fix : bool) (w : World)
    (st : Scan) (jf : JsonFile) : uncaught + Scan :=
  let jp := path_join root (jf_rel jf) in
  let rel := jf_rel jf in
  match load_json_strict jp (jf_doc jf) with
  | inl e =>
      inr (mkScan (error (sc_report st) (LoadFailed e)) (sc_datafiles st)
             (sc_id_to_df st) (sc_id_dups st) (sc_written st))
  | inr content =>
      match content with
      | JDict pairs =>
          let '(jid, report) :=
            match dict_get "id" pairs with
            | None | Some JNull => (None, sc_report st)
            | Some (JStr s) => (Some s, sc_report st)
            | Some _ => (None, error (sc_report st) (IdNotString rel))
            end in
          let '(schema, report) :=
            match dict_get "$schema" pairs with
            | None | Some JNull => (None, report)
            | Some (JStr s) => (Some s, report)
            | Some v => (None, warn report (SchemaNotString rel (type_name v)))
            end in
          let df :=
            mkDataFile jp rel content jid (guess_type_from_path rel) schema
              (sha256_of_file (jf_bytes jf)) (extract_deps content)
              (extract_asset_refs content) in
          let '(id_to_df, id_dups) :=
            match jid with
            | Some j =>
                if truthy j then
                  if dict_mem j (sc_id_to_df st)
                  then (sc_id_to_df st, counter_incr j (sc_id_dups st))
                  else (dict_set j df (sc_id_to_df st), sc_id_dups st)
                else (sc_id_to_df st, sc_id_dups st)
            | None => (sc_id_to_df st, sc_id_dups st)
            end in
          let '(report, written) :=
            if do_fix then
              match fs_write_error w jp with
              | Some msg => (error report (RewriteFailed rel msg), sc_written st)
              | None =>
                  (report, sc_written st ++ [(jp, stable_json_dump content)])
              end
            else (report, sc_written st) in
          inr (mkScan report (sc_datafiles st ++ [df]) id_to_df id_dups written)
      | other => inl (AttributeError (type_name other))
      end
  end.

(** The loop: the first uncaught exception ends it, with the files written
    until then. *)
Fixpoint scan_files (root : string) (do_fix : bool) (w : World)
    (st : Scan) (files : list JsonFile)
    : (uncaught * list (string * string)) + Scan :=
  match files with
  | [] => inr st
  | jf :: rest =>
      match scan_file root do_fix w st jf with
      | inl exc => inl (exc, sc_written st)
      | inr st' => scan_files root do_fix w st' rest
      end
  end.

(** The lines of [# Duplicate IDs]. *)
Definition duplicate_errors (id_to_df : dict DataFile) (id_dups : dict Z)
    : list finding :=
  map (fun bc : string * Z =>
         DuplicateId (fst bc) (snd bc + 1)
           (option_map df_rel (dict_get (fst bc) id_to_df)))
    id_dups.

(** [unresolved[rel].append(dep)] on a [defaultdict(list)]. *)
Definition dict_append (k x : string) (d : dict (list string))
    : dict (list string) :=
  dict_set k (match dict_get k d with Some l => l ++ [x] | None => [x] end) d.

Definition collect_unresolved (datafiles : list DataFile)
    (all_known_ids : list string) : dict (list string) :=
  fold_left
    (fun un df =>
       fold_left
         (fun un dep =>
            if mem dep all_known_ids then un
            else dict_append (df_rel df) dep un)
         (df_deps df) un)
    datafiles [].

(** The lines of [# Referenced IDs must exist]. *)
Definition unresolved_errors (datafiles : list DataFile)
    (id_to_df : dict DataFile) : list finding :=
  map (fun rm : string * list string =>
         UnresolvedRefs (fst rm) (sorted (set_of_list (snd rm))))
    (collect_unresolved datafiles (set_of_list (dict_keys id_to_df))).

(** One candidate location of [resolve_asset]: [Some r] when the function
    returns [r] there, [None] when it goes on to the next. *)
Definition try_location (w : World) (asset_set : list string) (p : string)
    : option (option string) :=
  if mem p asset_set then Some (if fs_exists w p then Some p else None)
  else if fs_exists w p && fs_is_file w p
          && mem (lower (path_suffix p)) ASSET_EXTS
       then Some (Some p)
       else None.

Definition resolve_asset (root : string) (w : World)
    (asset_set : list string) (candidate : string) : option string :=
  match try_location w asset_set (fs_resolve w (path_join root candidate)) with
  | Some r => r
  | None =>
      (fix loop (bases : list string) : option string :=
         match bases with
         | [] => None
         | base :: rest =>
             match try_location w asset_set
                     (fs_resolve w
                        (path_join (path_join root base) candidate)) with
             | Some r => r
             | None => loop rest
             end
         end) ["res"; "resources"]
  end.

(** The lines of [# Check asset references]. *)
Definition asset_warnings (root : string) (w : World)
    (asset_set : list string) (datafiles : list DataFile) : list finding :=
  flat_map
    (fun df =>
       flat_map
         (fun ref =>
            match resolve_asset root w asset_set ref with
            | None => [MissingAsset (df_rel df) ref]
            | Some _ => []
            end)
         (df_asset_refs df))
    datafiles.

Definition json_of_option (o : option string) : json :=
  match o with
  | Some s => JStr s
  | None => JNull
  end.

(** [d.id or d.rel]. *)
Definition id_or_rel (df : DataFile) : string :=
  match df_id df with
  | Some i => if truthy i then i else df_rel df
  | None => df_rel df
  end.

(** The sort key [(d.type_guess, d.id or d.rel)]. *)
Definition data_key (df : DataFile) : list string :=
  [df_type_guess df; id_or_rel df].

Definition manifest_data_entry (df : DataFile) : json :=
  JDict [("id", json_of_option (df_id df));
         ("type", JStr (df_type_guess df));
         ("path", JStr (df_rel df));
         ("sha256", JStr (df_sha256 df));
         ("deps", JList (map JStr (sorted (df_deps df))));
         ("has_schema",
          JBool (match df_schema df with
                 | Some s => truthy s
                 | None => false
                 end));
         ("schema", json_of_option (df_schema df))].

Definition manifest_asset_entry (e : Entry) : json :=
  JDict [("path", JStr (en_rel e));
         ("sha256", JStr (sha256_of_file (en_bytes e)));
         ("size_bytes", JInt (Z.of_nat (length (en_bytes e))))].

(** [Counter(xs)]. *)
Definition counter_of (xs : list string) : dict Z :=
  fold_left (fun c x => counter_incr x c) xs [].

(** Order of the [(type, count)] tuples. *)
Definition item_leb (a b : string * Z) : bool :=
  match String.compare (fst a) (fst b) with
  | Lt => true
  | Eq => (snd a <=? snd b)%Z
  | Gt => false
  end.

Definition build_manifest (root utcnow : string)
    (datafiles : list DataFile) (assets : list Entry) : json :=
  JDict
    [("generated_at_utc", JStr (utcnow ++ "Z"));
     ("root", JStr root);
     ("data",
      JList (map manifest_data_entry
               (sorted_by (fun a b => list_leb (data_key a) (data_key b))
                  datafiles)));
     ("assets",
      JList (map manifest_asset_entry
               (sorted_by
                  (fun a b =>
                     list_leb (path_parts (path_join root (en_rel a)))
                       (path_parts (path_join root (en_rel b))))
                  assets)));
     ("stats",
      JDict
        [("data_files", JInt (Z.of_nat (length datafiles)));
         ("assets", JInt (Z.of_nat (length assets)));
         ("types",
          JDict (map (fun tn : string * Z => (fst tn, JInt (snd tn)))
                   (sorted_by item_leb
                      (counter_of (map df_type_guess datafiles)))))])].

(** What a run that returns leaves behind: the exit status, the report,
    the manifest written to [out_manifest] if one was, and the documents
    rewritten in place, each with its new contents. *)
Record Run : Type := mkRun {
  exit_status : Z;
  report : Report;
  manifest : option json;
  written : list (string * string)
}.

Inductive outcome : Type :=
| Raised (exc : uncaught) (written_before : list (string * string))
| Returned (r : Run).


(** [analyze]; [utcnow] is what [datetime.utcnow().isoformat(timespec=
    "seconds")] gives during the run.  The Markdown report and the console
    summary read the report and the manifest and change neither. *)
Definition analyze (w : World) (utcnow : string) (root schema_dir : string)
    (do_fix fail_on_warning : bool) : outcome :=
  let report := mkReport [] [] in
  let data_dir := path_join root "data" in
  match data_listing w with
  | None =>
      Returned (mkRun 1 (error report (MissingDataDir data_dir)) None [])
  | Some listing =>
      let json_paths := collect_json_files listing in
      let report :=
        match json_paths with
        | [] => warn report NoJsonFiles
        | _ :: _ => report
        end in
      let assets := collect_asset_files root w in
      let asset_set :=
        set_of_list (map (fun e => path_join root (en_rel e)) assets) in
      match scan_files root do_fix w (mkScan report [] [] [] []) json_paths with
      | inl (exc, wr) => Raised exc wr
      | inr st =>
          let datafiles := sc_datafiles st in
          let report :=
            fold_left error
              (duplicate_errors (sc_id_to_df st) (sc_id_dups st))
              (sc_report st) in
          let report :=
            fold_left error
              (unresolved_errors datafiles (sc_id_to_df st)) report in
          let report :=
            fold_left warn (asset_warnings root w asset_set datafiles)
              report in
          let manifest := build_manifest root utcnow datafiles assets in
          let report :=
            fold_left (try_schema_validate w schema_dir) datafiles report in
          let status :=
            match errors report with
            | _ :: _ => 1
            | [] =>
                if fail_on_warning
                then match warnings report with _ :: _ => 1 | [] => 0 end
                else 0
            end%Z in
          Returned (mkRun status report (Some manifest) (sc_written st))
      end
  end.

(* ------------------------------------------------------------------ *)
(** ** Notions used in the statements *)

(** A failure of the loader on a well-formed document: a duplicate-key
    error whose keys are those repeated in one object scope. *)
Definition names_repeated_keys (file : string) (raw : json) (e : load_error)
    : Prop :=
  exists sc keys,
    e = DuplicateKeyError file keys /\ In sc (scopes raw) /\ keys <> [] /\
    forall k, In k keys <-> (count_occ string_dec sc k >= 2)%nat.

(** What one turn of the loop of [analyze] finds a file to be. *)
Inductive file_class : Type :=
| Unloadable (e : load_error)
| NotObject (v : json)
| Object (pairs : list (string * json)).

Definition classify (root : string) (jf : JsonFile) : file_class :=
  match load_json_strict (path_join root (jf_rel jf)) (jf_doc jf) with
  | inl e => Unloadable e
  | inr (JDict pairs) => Object pairs
  | inr v => NotObject v
  end.

(** The string under a top-level key, if it holds one. *)
Definition string_field (k : string) (pairs : list (string * json))
    : option string :=
  match dict_get k pairs with
  | Some (JStr s) => Some s
  | _ => None
  end.

(** The record the loop makes of a file that holds an object. *)
Definition datafile_of (root : string) (jf : JsonFile)
    (pairs : list (string * json)) : DataFile :=
  mkDataFile (path_join root (jf_rel jf)) (jf_rel jf) (JDict pairs)
    (string_field "id" pairs) (guess_type_from_path (jf_rel jf))
    (string_field "$schema" pairs) (sha256_of_file (jf_bytes jf))
    (extract_deps (JDict pairs)) (extract_asset_refs (JDict pairs)).

(** The records of the files that hold an object, in discovery order. *)
Definition datafiles_of (root : string) (files : list JsonFile)
    : list DataFile :=
  flat_map (fun jf => match classify root jf with
                      | Object pairs => [datafile_of root jf pairs]
                      | _ => []
                      end) files.

(** The effect of one record on the identifier index and the duplicate
    counter. *)
Definition index_add (ix : dict DataFile * dict Z) (df : DataFile)
    : dict DataFile * dict Z :=
  match df_id df with
  | Some j =>
      if truthy j then
        if dict_mem j (fst ix) then (fst ix, counter_incr j (snd ix))
        else (dict_set j df (fst ix), snd ix)
      else ix
  | None => ix
  end.

Definition file_errors (root : string) (do_fix : bool) (w : World)
    (jf : JsonFile) : list finding :=
  match classify root jf with
  | Unloadable e => [LoadFailed e]
  | NotObject _ => []
  | Object pairs =>
      match dict_get "id" pairs with
      | None | Some JNull | Some (JStr _) => []
      | Some _ => [IdNotString (jf_rel jf)]
      end
      ++ (if do_fix then
            match fs_write_error w (path_join root (jf_rel jf)) with
            | Some msg => [RewriteFailed (jf_rel jf) msg]
            | None => []
            end
          else [])
  end.

Definition file_warnings (root : string) (jf : JsonFile) : list finding :=
  match classify root jf with
  | Object pairs =>
      match dict_get "$schema" pairs with
      | None | Some JNull | Some (JStr _) => []
      | Some v => [SchemaNotString (jf_rel jf) (type_name v)]
      end
  | _ => []
  end.

Definition file_written (root : string) (do_fix : bool) (w : World)
    (jf : JsonFile) : list (string * string) :=
  match classify root jf with
  | Object pairs =>
      if do_fix then
        match fs_write_error w (path_join root (jf_rel jf)) with
        | None =>
            [(path_join root (jf_rel jf), stable_json_dump (JDict pairs))]
        | Some _ => []
        end
      else []
  | _ => []
  end.

(** The files whose content is not an object: on the first of them
    [content.get] raises. *)
Definition is_not_object (root : string) (jf : JsonFile) : bool :=
  match classify root jf with
  | NotObject _ => true
  | _ => false
  end.


(** The lines the schema pass adds for one record. *)
Definition schema_findings (w : World) (schema_dir : string) (df : DataFile)
    : Report :=
  try_schema_validate w schema_dir (mkReport [] []) df.

(** The identifier index and the duplicate counter after the loop. *)
Definition build_index (root : string) (files : list JsonFile)
    : dict DataFile * dict Z :=
  fold_left index_add (datafiles_of root files) ([], []).

Definition asset_set_of (root : string) (w : World) : list string :=
  set_of_list
    (map (fun e => path_join root (en_rel e)) (collect_asset_files root w)).

(** The errors of a run that returns, in the order of the report. *)
Definition run_errors (root schema_dir : string) (do_fix : bool) (w : World)
    (files : list JsonFile) : list finding :=
  flat_map (file_errors root do_fix w) files
    ++ duplicate_errors (fst (build_index root files))
         (snd (build_index root files))
    ++ unresolved_errors (datafiles_of root files)
         (fst (build_index root files))
    ++ flat_map (fun df => errors (schema_findings w schema_dir df))
         (datafiles_of root files).

(** Its warnings. *)
Definition run_warnings (root schema_dir : string) (w : World)
    (files : list JsonFile) : list finding :=
  match files with [] => [NoJsonFiles] | _ :: _ => [] end
    ++ flat_map (file_warnings root) files
    ++ asset_warnings root w (asset_set_of root w) (datafiles_of root files)
    ++ flat_map (fun df => warnings (schema_findings w schema_dir df))
         (datafiles_of root files).

(** The exit status [analyze] makes of a report. *)
Definition status_of (fail_on_warning : bool) (r : Report) : Z :=
  match errors r with
  | _ :: _ => 1
  | [] =>
      if fail_on_warning
      then match warnings r with _ :: _ => 1 | [] => 0 end
      else 0
  end%Z.

(* ------------------------------------------------------------------ *)
(** ** Sample trees *)

(** A regular file whose bytes are the text of a well-formed document. *)
Definition file_of (rel : string) (raw : json) : JsonFile :=
  mkJsonFile rel true (list_byte_of_string (dump_file raw)) (Decoded raw).

(** A tree that holds its root directory and nothing else. *)
Definition bare_world (root : string) : World :=
  mkWorld None None None (fun p => p) (fun p => String.eqb p root)
    (fun _ => false) (fun _ => Unreadable_file "No such file or directory")
    (fun _ => None) None.

(** A tree whose data directory holds the given files, in this order of
    discovery, and that holds nothing else: no media root, no link, no
    validator. *)
Definition world_of (root : string) (listing : list JsonFile) : World :=
  let at_path p jf := String.eqb p (path_join root (jf_rel jf)) in
  let under p jf := startswith (path_join root (jf_rel jf)) (p ++ "/") in
  mkWorld (Some listing) None None (fun p => p)
    (fun p => existsb (at_path p) listing || existsb (under p) listing)
    (fun p => existsb (at_path p) listing)
    (fun p => match find (at_path p) listing with
              | Some jf => jf_doc jf
              | None => Unreadable_file "No such file or directory"
              end)
    (fun _ => None) None.

Definition sword_a : JsonFile :=
  file_of "data/items/a.json"
    (JDict [("id", JStr "sword_01")]).

Definition sword_b : JsonFile :=
  file_of "data/items/b.json"
    (JDict [("id", JStr "sword_01")]).

(** The record declares identifier [i]. *)
Definition has_id (i : string) (df : DataFile) : bool :=
  match df_id df with
  | Some j => String.eqb j i
  | None => false
  end.

(** The finding is a duplicate-identifier error about [i]. *)
Definition is_duplicate_of (i : string) (f : finding) : bool :=
  match f with
  | DuplicateId j _ _ => String.eqb j i
  | _ => false
  end.

(** The finding is an unresolved-reference error about the file [rel]. *)
Definition is_unresolved_of (rel : string) (f : finding) : bool :=
  match f with
  | UnresolvedRefs r _ => String.eqb r rel
  | _ => false
  end.


(** Where a finding comes from. *)
Inductive origin : Type :=
| FromGuard | FromLoop | FromDuplicates | FromReferences | FromAssets
| FromSchema.

Definition origin_of (f : finding) : origin :=
  match f with
  | MissingDataDir _ | NoJsonFiles => FromGuard
  | LoadFailed _ | IdNotString _ | RewriteFailed _ _ | SchemaNotString _ _ =>
      FromLoop
  | DuplicateId _ _ _ => FromDuplicates
  | UnresolvedRefs _ _ => FromReferences
  | MissingAsset _ _ => FromAssets
  | SchemaLoadFailed _ _ _ | SchemaInvalid _ _ | NoValidator _
  | SchemaNotFound _ _ _ => FromSchema
  end.

(** What the index and the duplicate counter hold for identifier [i] once
    the records [dfs] have gone through. *)
Definition index_holds (dfs : list DataFile) (ix : dict DataFile * dict Z)
    (i : string) : Prop :=
  let owners := filter (has_id i) dfs in
  if truthy i then
    dict_get i (fst ix) = hd_error owners /\
    dict_get i (snd ix) =
      if (2 <=? length owners)%nat
      then Some (Z.of_nat (length owners) - 1)%Z
      else None
  else dict_get i (fst ix) = None /\ dict_get i (snd ix) = None.


(** Strictly increasing: sorted and free of repeats. *)
Definition increasing (l : list string) : Prop :=
  Sorted (fun a b => String.ltb a b = true) l.


(** The references of a record that the index does not hold, in the order
    in which the record's set gives them. *)
Definition missing_refs (ix : dict DataFile) (df : DataFile) : list string :=
  filter (fun dep => negb (dict_mem dep ix)) (df_deps df).

Definition potion_user : JsonFile :=
  file_of "data/items/c.json"
    (JDict [("id", JStr "elixir");
                     ("heal_id", JStr "potion_missing");
                     ("tag_ids", JList [JStr "zz"; JStr "aa"; JStr "zz"]);
                     ("icon", JStr "textures/missing.png")]).



Definition icon_user : JsonFile :=
  file_of "data/items/d.json"
    (JDict [("id", JStr "torch");
                     ("icon", JStr "textures/missing.png")]).





(** The documents a run rewrote, whether it returned or not. *)
Definition written_of (o : outcome) : list (string * string) :=
  match o with
  | Raised _ wr => wr
  | Returned r => written r
  end.



(** The [data] array of the manifest a run wrote. *)
Definition manifest_data (r : Run) : list json :=
  match manifest r with
  | Some (JDict top) =>
      match dict_get "data" top with
      | Some (JList entries) => entries
      | _ => []
      end
  | _ => []
  end.

Definition nameless : JsonFile :=
  file_of "data/items/e.json"
    (JDict [("id", JStr ""); ("parent_id", JStr "")]).

Fixpoint list_eqb (a b : list string) : bool :=
  match a, b with
  | [], [] => true
  | x :: a', y :: b' => String.eqb x y && list_eqb a' b'
  | _, _ => false
  end.

(** The keys of an object are in canonical order: sorted, except that
    [id] comes first. *)
Definition keys_canonical (keys : list string) : bool :=
  list_eqb keys
    (if mem "id" keys then "id" :: list_remove "id" (sorted keys)
     else sorted keys).

(** Every object of the value has its keys in canonical order. *)
Fixpoint canonical (v : json) : bool :=
  match v with
  | JDict pairs =>
      keys_canonical (map fst pairs)
        && forallb (fun kv : string * json => canonical (snd kv)) pairs
  | JList items => forallb canonical items
  | _ => true
  end.

(** A document with an object inside an array. *)
Definition recipe_book : json :=
  JDict [("recipes",
          JList [JDict [("output", JStr "plank"); ("id", JStr "saw");
                        ("input", JStr "log")]])].


(** The order that goes with a three-way comparison. *)
Definition leb_of (A : Type) (cmp : A -> A -> comparison) (a b : A) : bool :=
  match cmp a b with
  | Gt => false
  | _ => true
  end.

(** Comparison of the [(type, count)] tuples. *)
Definition item_compare (a b : string * Z) : comparison :=
  match String.compare (fst a) (fst b) with
  | Eq => Z.compare (snd a) (snd b)
  | c => c
  end.


(** The records of a tree, in discovery order. *)
Definition records_of (root : string) (w : World) : list DataFile :=
  match data_listing w with
  | Some listing => datafiles_of root (collect_json_files listing)
  | None => []
  end.



(** The pairs [(k, g k)] for the keys [k] on which [g] is defined. *)
Definition pick (g : string -> option json) (keys : list string)
    : list (string * json) :=
  flat_map (fun k => match g k with
                     | Some v => [(k, v)]
                     | None => []
                     end) keys.

(** The key order of [sort_keys]. *)
Definition hoist_id (keys : list string) : list string :=
  if mem "id" keys then "id" :: list_remove "id" (sorted keys)
  else sorted keys.

(** The characters of a hexadecimal digest. *)
Definition is_hex_char (c : ascii) : bool :=
  let n := nat_of_ascii c in
  ((48 <=? n) && (n <=? 57) || (97 <=? n) && (n <=? 102))%nat.

Fixpoint all_hex (s : string) : bool :=
  match s with
  | EmptyString => true
  | String c r => is_hex_char c && all_hex r
  end.

(* ------------------------------------------------------------------ *)
(** ** Notions used in further statements *)

(** The occurrences of a key after its first one, in order, given the keys
    already seen: what the loop of [_object_pairs_no_duplicates] collects
    in [dups]. *)
Fixpoint repeats_after (seen keys : list string) : list string :=
  match keys with
  | [] => []
  | k :: r =>
      if mem k seen then k :: repeats_after seen r
      else repeats_after (seen ++ [k]) r
  end.

Definition repeats (keys : list string) : list string :=
  repeats_after [] keys.

Definition has_repeat (keys : list string) : bool :=
  match repeats keys with
  | [] => false
  | _ :: _ => true
  end.

(** A document whose second object, in closing order, repeats a key, as
    does its last. *)
Definition twice_broken : json :=
  JDict [("a", JDict [("x", JInt 1)]);
         ("b", JDict [("y", JInt 1); ("z", JInt 2); ("y", JInt 3);
                      ("z", JInt 4); ("y", JInt 5)]);
         ("a", JNull)].

(** A value that is neither an object nor an array. *)
Definition is_scalar (v : json) : bool :=
  match v with
  | JList _ | JDict _ => false
  | _ => true
  end.

(** A document with references at several depths. *)
Definition crafting_table : json :=
  JDict [("id", JStr "table");
         ("parent_id", JStr "furniture");
         ("icon", JStr "Textures/Table.PNG");
         ("recipes",
          JList [JDict [("tool_id", JStr "saw");
                        ("input_ids", JList [JStr "plank"; JInt 4;
                                             JStr "nail"; JStr "plank"]);
                        ("sound", JStr "audio/saw.ogg")];
                 JDict [("tool_id", JInt 7);
                        ("note_ids", JStr "not a list")]])].

Fixpoint no_slash (s : string) : bool :=
  match s with
  | EmptyString => true
  | String c r => negb (Ascii.eqb c "/") && no_slash r
  end.

(** A path component as [as_posix] writes it: not empty, not [.], and
    without a slash. *)
Definition is_component (c : string) : bool :=
  no_slash c && negb (String.eqb c "") && negb (String.eqb c ".").

(** What follows the first occurrence of [x]. *)
Fixpoint after_first (x : string) (l : list string) : list string :=
  match l with
  | [] => []
  | y :: r => if String.eqb x y then r else after_first x r
  end.

(** A tree with a validator that accepts every document and with one
    schema, kept in the schema directory. *)
Definition schema_world : World :=
  mkWorld (Some []) None None (fun p => p) (fun _ => true)
    (fun p => String.eqb p "/repo/data/schema/item.schema.json")
    (fun _ => Decoded (JDict [("type", JStr "object")]))
    (fun _ => None) (Some (fun _ _ => None)).

(** A record that names this schema. *)
Definition schema_user : DataFile :=
  mkDataFile "/repo/data/items/a.json" "data/items/a.json"
    (JDict [("$schema", JStr "item.schema.json")]) None "items"
    (Some "item.schema.json") "" [] [].

(** The places [try_schema_validate] looks for the schema at, in its
    order. *)
Definition schema_candidates (schema_dir : string) (df : DataFile)
    (schema : string) : list string :=
  [schema; path_join (path_parent (df_path df)) schema;
   path_join schema_dir schema].

(** Every object of the value that is not inside an array has its keys in
    canonical order. *)
Fixpoint canonical_outside_arrays (v : json) : bool :=
  match v with
  | JDict pairs =>
      keys_canonical (map fst pairs)
        && forallb (fun kv : string * json => canonical_outside_arrays (snd kv))
             pairs
  | _ => true
  end.


(** The finding is a failure to rewrite a file. *)
Definition is_rewrite_failure (f : finding) : bool :=
  match f with
  | RewriteFailed _ _ => true
  | _ => false
  end.

(** A record whose identifier is a number and whose schema is a flag. *)
Definition numbered : JsonFile :=
  file_of "data/items/n.json"
    (JDict [("id", JInt 7); ("$schema", JBool true)]).

Definition sumZ (l : list Z) : Z := fold_right Z.add 0%Z l.

(** A record that refers to a record discovered after it. *)
Definition early_user : JsonFile :=
  file_of "data/items/0.json"
    (JDict [("id", JStr "kit"); ("heal_id", JStr "elixir");
            ("tool_id", JStr "saw")]).

(* ------------------------------------------------------------------ *)
(** ** The Markdown report *)

(** The lines of [# Optional human-readable report].  What the code reads
    back from the manifest is what it has put there a few lines above: the
    time stamp, the two numbers and the sorted type counts. *)
Definition report_lines (utcnow : string) (datafiles : list DataFile)
    (assets : list Entry) (report : Report) : list string :=
  [("# Data Guard Report" ++ LF)%string;
   ("- Generated: `" ++ (utcnow ++ "Z") ++ "`" ++ LF)%string;
   ("- Data files: **" ++ str_of_Z (Z.of_nat (length datafiles)) ++ "**")%string;
   ("- Assets: **" ++ str_of_Z (Z.of_nat (length assets)) ++ "**" ++ LF)%string;
   ("## Types" ++ LF)%string]
  ++ map (fun tn : string * Z =>
            ("- `" ++ fst tn ++ "`: " ++ str_of_Z (snd tn))%string)
       (sorted_by item_leb (counter_of (map df_type_guess datafiles)))
  ++ [""%string]
  ++ match errors report with
     | [] => [("## Errors" ++ LF ++ "- None 🎉" ++ LF)%string]
     | _ :: _ =>
         ["## Errors"%string]
           ++ map (fun e => ("- ❌ " ++ message e)%string) (errors report)
           ++ [""%string]
     end
  ++ match warnings report with
     | [] => [("## Warnings" ++ LF ++ "- None" ++ LF)%string]
     | _ :: _ =>
         ["## Warnings"%string]
           ++ map (fun x => ("- ⚠️ " ++ message x)%string) (warnings report)
           ++ [""%string]
     end.

(** The text written to [out_report_md]. *)
Definition report_md (utcnow : string) (datafiles : list DataFile)
    (assets : list Entry) (report : Report) : string :=
  join LF (report_lines utcnow datafiles assets report).

(** What [analyze] writes to [out_report_md] when the path is given:
    [None] when it does not get there. *)
Definition analyze_report_md (w : World) (utcnow : string) (root : string)
    (do_fix : bool) : option string :=
  let report := mkReport [] [] in
  match data_listing w with
  | None => None
  | Some listing =>
      let json_paths := collect_json_files listing in
      let report :=
        match json_paths with
        | [] => warn report NoJsonFiles
        | _ :: _ => report
        end in
      let assets := collect_asset_files root w in
      let asset_set :=
        set_of_list (map (fun e => path_join root (en_rel e)) assets) in
      match scan_files root do_fix w (mkScan report [] [] [] []) json_paths with
      | inl _ => None
      | inr st =>
          let datafiles := sc_datafiles st in
          let report :=
            fold_left error
              (duplicate_errors (sc_id_to_df st) (sc_id_dups st))
              (sc_report st) in
          let report :=
            fold_left error
              (unresolved_errors datafiles (sc_id_to_df st)) report in
          let report :=
            fold_left warn (asset_warnings root w asset_set datafiles)
              report in
          Some (report_md utcnow datafiles assets report)
      end
  end.

(** The finding comes from the schema pass. *)
Definition from_schema (f : finding) : bool :=
  match origin_of f with
  | FromSchema => true
  | _ => false
  end.

(** A tree with one record, whose schema the validator finds it to
    break. *)
Definition rejecting_world : World :=
  mkWorld
    (Some [file_of "data/items/a.json"
             (JDict [("id", JStr "a");
                     ("$schema", JStr "item.schema.json")])])
    None None (fun p => p) (fun _ => true)
    (fun p => String.eqb p "/repo/data/schema/item.schema.json")
    (fun _ => Decoded (JDict [("type", JStr "array")]))
    (fun _ => None) (Some (fun _ _ => Some "{...} is not of type 'array'")).

(** A record whose keys are not in canonical order on disk. *)
Definition unsorted_file : JsonFile :=
  file_of "data/items/u.json"
    (JDict [("name", JStr "Urn"); ("id", JStr "urn")]).

(** A media file whose name is in upper case. *)
Definition loud_texture : Entry :=
  mkEntry "res/Textures/A.PNG" true [].

(** A directory whose name ends in [.json]. *)
Definition folder_entry : JsonFile :=
  mkJsonFile "data/old.json" false [] (Unreadable_file "Is a directory").

(** The value under [id] is one the loop accepts without an error. *)
Definition id_accepted (pairs : list (string * json)) : bool :=
  match dict_get "id" pairs with
  | None | Some JNull | Some (JStr _) => true
  | Some _ => false
  end.

(* ------------------------------------------------------------------ *)
(** * Properties *)

Unset Implicit Arguments.

Example sha256_empty :
  sha256_of_file [] =
  "e3b0c44298fc1c149afbf4c8996fb92427ae41e4649b934ca495991b7852b855".
Proof. vm_compute. reflexivity. Qed.

Example sha256_abc :
  sha256_of_file (list_byte_of_string "abc") =
  "ba7816bf8f01cfea414140de5dae2223b00361a396177a9cb410ff61f20015ad".
Proof. vm_compute. reflexivity. Qed.

Example sha256_two_blocks :
  sha256_of_file (list_byte_of_string
    "abcdbcdecdefdefgefghfghighijhijkijkljklmklmnlmnomnopnopq") =
  "248d6a61d20638b8e5c026930c3e6039a33ce45964ff2167f6ecedd419db06c1".
Proof. vm_compute. reflexivity. Qed.

Example sort_keys_ex :
  sort_keys (JDict [("b", JInt 1); ("id", JStr "x");
                    ("a", JDict [("z", JNull); ("c", JBool true)])]) =
  JDict [("id", JStr "x");
         ("a", JDict [("c", JBool true); ("z", JNull)]); ("b", JInt 1)].
Proof. reflexivity. Qed.

Example dumps_ex :
  dump_file (JDict [("id", JStr "x"); ("l", JList [JInt 1; JList []]);
                    ("e", JDict [])]) =
  ("{" ++ LF ++ "  " ++ quote "id" ++ ": " ++ quote "x" ++ "," ++ LF
     ++ "  " ++ quote "l" ++ ": [" ++ LF ++ "    1," ++ LF ++ "    []" ++ LF
     ++ "  ]," ++ LF ++ "  " ++ quote "e" ++ ": {}" ++ LF ++ "}" ++ LF)%string.
Proof. reflexivity. Qed.

Example guess_type_ex :
  guess_type_from_path "data/items/weapon.json" = "items" /\
  guess_type_from_path "data/top.json" = "top.json" /\
  path_suffix "/r/res/a.b/Tex.PNG" = ".PNG" /\
  path_suffix "/r/res/.png" = "" /\
  path_parent "/r/data/items/w.json" = "/r/data/items".
Proof. repeat split; reflexivity. Qed.

(* ------------------------------------------------------------------ *)
(** ** Sets and dicts *)

Lemma mem_In (x : string) (l : list string) : mem x l = true <-> In x l.
Proof.
  induction l as [|y r IH]; simpl.
  - split; [discriminate | tauto].
  - rewrite orb_true_iff, IH, String.eqb_eq. intuition congruence.
Qed.

Lemma mem_false (x : string) (l : list string) : mem x l = false <-> ~ In x l.
Proof.
  rewrite <- mem_In. destruct (mem x l); intuition congruence.
Qed.

Lemma dict_get_In V (k : string) (d : dict V) :
  dict_get k d <> None <-> In k (map fst d).
Proof.
  induction d as [|[k' v] r IH]; simpl.
  - tauto.
  - destruct (String.eqb k k') eqn:E.
    + apply String.eqb_eq in E. subst. intuition congruence.
    + apply String.eqb_neq in E. rewrite IH. intuition congruence.
Qed.

Lemma dict_mem_In V (k : string) (d : dict V) :
  dict_mem k d = true <-> In k (map fst d).
Proof.
  rewrite <- dict_get_In. unfold dict_mem.
  destruct (dict_get k d); intuition congruence.
Qed.

Lemma dict_mem_false V (k : string) (d : dict V) :
  dict_mem k d = false <-> ~ In k (map fst d).
Proof.
  rewrite <- dict_mem_In. destruct (dict_mem k d); intuition congruence.
Qed.

Lemma dict_set_fresh V (k : string) (v : V) (d : dict V) :
  dict_mem k d = false -> dict_set k v d = d ++ [(k, v)].
Proof.
  unfold dict_mem. induction d as [|[k' v'] r IH]; simpl; intros H.
  - reflexivity.
  - destruct (String.eqb k k'); [discriminate | now rewrite IH].
Qed.

Lemma dict_set_keys V (k : string) (v : V) (d : dict V) :
  map fst (dict_set k v d) =
  if dict_mem k d then map fst d else map fst d ++ [k].
Proof.
  unfold dict_mem. induction d as [|[k' v'] r IH]; simpl.
  - reflexivity.
  - destruct (String.eqb k k') eqn:E; simpl.
    + reflexivity.
    + rewrite IH. now destruct (dict_get k r).
Qed.

Lemma dict_mem_set V (k k' : string) (v : V) (d : dict V) :
  dict_mem k (dict_set k' v d) = String.eqb k k' || dict_mem k d.
Proof.
  apply eq_true_iff_eq.
  rewrite orb_true_iff, !dict_mem_In, dict_set_keys, String.eqb_eq.
  destruct (dict_mem k' d) eqn:E.
  - apply dict_mem_In in E. intuition congruence.
  - rewrite in_app_iff. simpl. intuition congruence.
Qed.

(* ------------------------------------------------------------------ *)
(** ** The strict loader *)

Lemma scan_pairs_dups (pairs : list (string * json)) :
  forall (seen : dict json) (dups : list string) (k : string),
    In k (snd (scan_pairs pairs seen dups)) <->
    In k dups \/
    (In k (map fst pairs) /\
     (dict_mem k seen = true \/
      (count_occ string_dec (map fst pairs) k >= 2)%nat)).
Proof.
  induction pairs as [|[k0 v] rest IH]; intros seen dups k; simpl.
  - tauto.
  - rewrite IH, dict_mem_set, orb_true_iff, String.eqb_eq.
    assert (Hd : In k (if dict_mem k0 seen then dups ++ [k0] else dups) <->
                 In k dups \/ (k = k0 /\ dict_mem k0 seen = true)).
    { destruct (dict_mem k0 seen); [rewrite in_app_iff; simpl|];
        intuition congruence. }
    rewrite Hd. clear Hd.
    destruct (in_dec string_dec k (map fst rest)) as [Hin|Hnin].
    + pose proof (proj1 (count_occ_In string_dec (map fst rest) k) Hin) as Hc.
      destruct (string_dec k0 k) as [->|Hne]; [|intuition congruence].
      split; [|intuition congruence]. intros _. right. split; [now left|].
      right. lia.
    + pose proof (proj1 (count_occ_not_In string_dec (map fst rest) k) Hnin)
        as Hc.
      destruct (string_dec k0 k) as [->|Hne]; rewrite Hc;
        intuition (try congruence; try lia).
Qed.

Lemma scan_pairs_seen (pairs : list (string * json)) :
  forall (seen : dict json) (dups : list string),
  exists extra,
    snd (scan_pairs pairs seen dups) = dups ++ extra /\
    (extra = [] -> fst (scan_pairs pairs seen dups) = seen ++ pairs).
Proof.
  induction pairs as [|[k0 v] rest IH]; intros seen dups; simpl.
  - exists []. now rewrite !app_nil_r.
  - destruct (dict_mem k0 seen) eqn:E.
    + destruct (IH (dict_set k0 v seen) (dups ++ [k0])) as (extra & H1 & _).
      exists (k0 :: extra). rewrite H1, <- app_assoc. split; [easy|discriminate].
    + destruct (IH (dict_set k0 v seen) dups) as (extra & H1 & H2).
      exists extra. split; [easy|]. intros He. rewrite (H2 He).
      rewrite dict_set_fresh by assumption. now rewrite <- app_assoc.
Qed.

Lemma object_pairs_no_duplicates_inr (pairs : list (string * json))
    (file : string) (d : dict json) :
  object_pairs_no_duplicates pairs file = inr d ->
  d = pairs /\ NoDup (map fst pairs).
Proof.
  unfold object_pairs_no_duplicates.
  pose proof (scan_pairs_seen pairs [] []) as (extra & H1 & H2).
  pose proof (scan_pairs_dups pairs [] []) as H3.
  destruct (scan_pairs pairs [] []) as [seen dups]. simpl in *.
  destruct dups as [|k ks]; [|discriminate].
  intros [= <-]. subst extra. split; [now apply H2|].
  apply (NoDup_count_occ string_dec). intros k.
  specialize (H3 k). destruct (le_gt_dec (count_occ string_dec (map fst pairs) k) 1) as [|Hgt];
    [assumption|].
  exfalso. apply H3. right. split; [|right; lia].
  apply (count_occ_In string_dec). lia.
Qed.

Lemma object_pairs_no_duplicates_inl (pairs : list (string * json))
    (file : string) (e : load_error) :
  object_pairs_no_duplicates pairs file = inl e ->
  exists keys,
    e = DuplicateKeyError file keys /\ keys <> [] /\
    forall k, In k keys <->
              (count_occ string_dec (map fst pairs) k >= 2)%nat.
Proof.
  unfold object_pairs_no_duplicates.
  pose proof (scan_pairs_dups pairs [] []) as H3.
  destruct (scan_pairs pairs [] []) as [seen dups]. simpl in *.
  destruct dups as [|k0 ks]; [discriminate|].
  intros [= <-]. exists (k0 :: ks). repeat split; [discriminate| |].
  - intros Hk. apply H3 in Hk. unfold dict_mem in Hk. simpl in Hk.
    intuition discriminate.
  - intros Hk. apply H3. right. split; [|now right].
    apply (count_occ_In string_dec). lia.
Qed.

Lemma mapM_inr A B E (g : A -> E + B) (l : list A) (vs : list B) :
  mapM g l = inr vs -> Forall2 (fun x v => g x = inr v) l vs.
Proof.
  revert vs. induction l as [|x r IH]; simpl; intros vs H.
  - injection H as <-. constructor.
  - destruct (g x) eqn:Ex; [discriminate|].
    destruct (mapM g r) eqn:Er; [discriminate|].
    injection H as <-. constructor; auto.
Qed.

Lemma mapM_inl A B E (g : A -> E + B) (l : list A) (e : E) :
  mapM g l = inl e -> exists x, In x l /\ g x = inl e.
Proof.
  induction l as [|x r IH]; simpl; intros H.
  - discriminate.
  - destruct (g x) eqn:Ex.
    + injection H as <-. eauto.
    + destruct (mapM g r) eqn:Er; [|discriminate].
      destruct (IH H) as (y & Hy & Hg). eauto.
Qed.

Lemma decode_with_hook_spec (file : string) (raw : json) :
  (forall v, decode_with_hook file raw = inr v ->
             v = raw /\ Forall (@NoDup string) (scopes raw)) /\
  (forall e, decode_with_hook file raw = inl e ->
             names_repeated_keys file raw e).
Proof.
  induction raw as [| | | | |l IH|d IH] using json_induction;
    try solve [split; simpl; intros ? [=]; subst; auto].
  - (* list *)
    simpl. split.
    + intros v H. destruct (mapM _ l) as [|vs] eqn:E; [discriminate|].
      injection H as <-. apply mapM_inr in E.
      induction E as [|x y l' ys Hx _ IHE]; simpl; [auto|].
      inversion IH as [|? ? [Hok _] IHr]; subst.
      destruct (Hok _ Hx) as [-> Hs]. destruct (IHE IHr) as [Heq Hf].
      injection Heq as ->. split; [reflexivity|].
      apply Forall_app; auto.
    + intros e H. destruct (mapM _ l) as [e'|vs] eqn:E; [|discriminate].
      injection H as <-. apply mapM_inl in E as (x & Hin & Hx).
      rewrite Forall_forall in IH. destruct (IH x Hin) as [_ Hbad].
      destruct (Hbad _ Hx) as (sc & keys & He & Hsc & Hk).
      exists sc, keys. repeat split; try tauto; try apply Hk.
      apply in_flat_map. eauto.
  - (* object *)
    simpl.
    set (g := fun kv : string * json =>
                match decode_with_hook file (snd kv) with
                | inl e => inl e
                | inr v => inr (fst kv, v)
                end).
    assert (Hchildren : forall ps, mapM g d = inr ps ->
              ps = d /\
              Forall (@NoDup string)
                (flat_map (fun kv : string * json => scopes (snd kv)) d)).
    { intros ps E. apply mapM_inr in E.
      induction E as [|x y l' ys Hx _ IHE]; simpl; [auto|].
      inversion IH as [|? ? [Hok _] IHr]; subst.
      unfold g in Hx. destruct (decode_with_hook file (snd x)) eqn:Ex;
        [discriminate|].
      injection Hx as <-. destruct (Hok _ eq_refl) as [-> Hs].
      destruct (IHE IHr) as [-> Hf]. split; [now destruct x|].
      apply Forall_app; auto. }
    split.
    + intros v H. destruct (mapM g d) as [|ps] eqn:E; [discriminate|].
      destruct (Hchildren ps eq_refl) as [-> Hf].
      destruct (object_pairs_no_duplicates d file) eqn:Eo; [discriminate|].
      injection H as <-.
      apply object_pairs_no_duplicates_inr in Eo as [-> Hnd].
      split; [reflexivity|]. apply Forall_app; auto.
    + intros e H. destruct (mapM g d) as [e'|ps] eqn:E.
      * injection H as <-. apply mapM_inl in E as (x & Hin & Hx).
        rewrite Forall_forall in IH. destruct (IH x Hin) as [_ Hbad].
        unfold g in Hx. destruct (decode_with_hook file (snd x)) eqn:Ex;
          [|discriminate].
        injection Hx as <-.
        destruct (Hbad _ eq_refl) as (sc & keys & He & Hsc & Hk).
        exists sc, keys. repeat split; try tauto; try apply Hk.
        apply in_app_iff. left. apply in_flat_map. eauto.
      * destruct (Hchildren ps eq_refl) as [-> Hf].
        destruct (object_pairs_no_duplicates d file) eqn:Eo; [|discriminate].
        injection H as <-.
        apply object_pairs_no_duplicates_inl in Eo as (keys & He & Hne & Hk).
        exists (map fst d), keys. repeat split; try tauto; try apply Hk.
        apply in_app_iff. right. now left.
Qed.

(** C5.  On every well-formed document the strict loader fails exactly
    when some single object scope repeats a key; the failure is then a
    duplicate-key error naming the keys repeated in one such scope, and
    keys that occur once each in different objects never collide; when
    every scope is free of repeats the document is loaded as it stands. *)
Theorem load_json_strict_duplicate_keys (path : string) (raw : json) :
  ((exists e, load_json_strict path (Decoded raw) = inl e) <->
   Exists (fun sc => ~ NoDup sc) (scopes raw)) /\
  (forall e, load_json_strict path (Decoded raw) = inl e ->
             names_repeated_keys path raw e) /\
  (forall v, load_json_strict path (Decoded raw) = inr v -> v = raw).
Proof.
  simpl. destruct (decode_with_hook_spec path raw) as [Hok Hbad].
  repeat split.
  - intros [e He]. destruct (Hbad e He) as (sc & keys & _ & Hsc & Hne & Hk).
    apply Exists_exists. exists sc. split; [assumption|].
    intros Hnd. destruct keys as [|k ks]; [congruence|].
    pose proof (proj1 (Hk k) (or_introl eq_refl)) as Hc.
    pose proof (proj1 (NoDup_count_occ string_dec sc) Hnd k). lia.
  - intros Hex. destruct (decode_with_hook path raw) as [e|v] eqn:E; [eauto|].
    destruct (Hok v eq_refl) as [_ Hf]. exfalso.
    apply Exists_exists in Hex as (sc & Hsc & Hnd).
    rewrite Forall_forall in Hf. auto.
  - assumption.
  - intros v Hv. now destruct (Hok v Hv).
Qed.

Example duplicate_key_is_local :
  let inner := JDict [("x", JInt 1); ("x", JInt 2)] in
  load_json_strict "f.json"
    (Decoded (JDict [("x", JInt 0); ("a", inner)]))
  = inl (DuplicateKeyError "f.json" ["x"]) /\
  load_json_strict "f.json"
    (Decoded (JDict [("x", JInt 0); ("a", JDict [("x", JInt 1)])]))
  = inr (JDict [("x", JInt 0); ("a", JDict [("x", JInt 1)])]).
Proof. split; reflexivity. Qed.

(* ------------------------------------------------------------------ *)
(** ** Hashing in chunks *)

Lemma update_app (h : Sha256.hasher) (a b : list byte) :
  Sha256.update (Sha256.update h a) b = Sha256.update h (a ++ b).
Proof. unfold Sha256.update. now rewrite fold_left_app. Qed.

Lemma update_chunks_whole (size : nat) :
  (0 < size)%nat ->
  forall (fuel : nat) (h : Sha256.hasher) (rest : list byte),
    (length rest < fuel)%nat ->
    update_chunks fuel size h rest = Sha256.update h rest.
Proof.
  intros Hsize. induction fuel as [|fuel IH]; intros h rest Hfuel; [lia|].
  simpl. destruct (firstn size rest) as [|b chunk] eqn:Echunk.
  - destruct rest as [|b r]; [reflexivity|].
    destruct size; [lia | discriminate].
  - rewrite IH.
    + rewrite update_app, <- Echunk. now rewrite firstn_skipn.
    + rewrite length_skipn. destruct rest; [now rewrite firstn_nil in Echunk|].
      cbn [length] in *. lia.
Qed.

Lemma hex_word_length (w : Z) (rest : string) :
  String.length (Sha256.hex_word w rest) = (8 + String.length rest)%nat.
Proof. reflexivity. Qed.

Lemma hexdigest_length (h : Sha256.hasher) :
  String.length (Sha256.hexdigest h) = 64%nat.
Proof.
  unfold Sha256.hexdigest.
  destruct (Sha256.finish h) as [[[[[[[a b] c] d] e] f] g] i].
  now rewrite !hex_word_length.
Qed.

Lemma hex_digit_is_hex (w sh : Z) :
  is_hex_char (Sha256.hex_digit (Z.land (Z.shiftr w sh) 15)) = true.
Proof.
  change 15%Z with (Z.ones 4). rewrite Z.land_ones by lia.
  pose proof (Z.mod_pos_bound (Z.shiftr w sh) (2 ^ 4) ltac:(lia)) as Hb.
  set (d := (Z.shiftr w sh mod 2 ^ 4)%Z) in *.
  assert (Hd : (d = 0 \/ d = 1 \/ d = 2 \/ d = 3 \/ d = 4 \/ d = 5 \/ d = 6
                \/ d = 7 \/ d = 8 \/ d = 9 \/ d = 10 \/ d = 11 \/ d = 12
                \/ d = 13 \/ d = 14 \/ d = 15)%Z) by lia.
  clearbody d.
  repeat (destruct Hd as [->|Hd]; [reflexivity|]). now subst d.
Qed.

Lemma hex_word_all_hex (w : Z) (rest : string) :
  all_hex (Sha256.hex_word w rest) = all_hex rest.
Proof.
  unfold Sha256.hex_word. cbn [all_hex].
  replace (Z.land w 15) with (Z.land (Z.shiftr w 0) 15)
    by now rewrite Z.shiftr_0_r.
  now rewrite !hex_digit_is_hex.
Qed.

Lemma hexdigest_all_hex (h : Sha256.hasher) :
  all_hex (Sha256.hexdigest h) = true.
Proof.
  unfold Sha256.hexdigest.
  destruct (Sha256.finish h) as [[[[[[[a b] c] d] e] f] g] i].
  now rewrite !hex_word_all_hex.
Qed.

Lemma CHUNK_value : CHUNK = (1024 * 1024)%nat.
Proof. unfold CHUNK. now rewrite N2Nat.inj_mul. Qed.

Lemma CHUNK_pos : (0 < CHUNK)%nat.
Proof. rewrite CHUNK_value. lia. Qed.

(** C9.  For every content, the digest [sha256_of_file] gets by feeding
    the hash object one chunk of at most 1 MiB after another is the
    SHA-256 digest of the whole content taken in one step, and it is a
    string of 64 hexadecimal characters, for the empty file as for any
    other. *)
Theorem sha256_of_file_whole (content : list byte) :
  sha256_of_file content = Sha256.sha256_hex content /\
  String.length (sha256_of_file content) = 64%nat /\
  all_hex (sha256_of_file content) = true /\
  CHUNK = (1024 * 1024)%nat.
Proof.
  unfold sha256_of_file, Sha256.sha256_hex.
  rewrite (update_chunks_whole CHUNK CHUNK_pos) by lia.
  split; [reflexivity|].
  split; [apply hexdigest_length|].
  split; [apply hexdigest_all_hex | apply CHUNK_value].
Qed.

Example sha256_three_blocks :
  sha256_of_file (repeat "a"%byte 129) =
  "c12cb024a2e5551cca0e08fce8f1c5e314555cc3fef6329ee994a3db752166ae".
Proof. vm_compute. reflexivity. Qed.

Example sha256_chunked_example :
  Sha256.hexdigest
    (update_chunks 10 3 Sha256.new (list_byte_of_string "abcdefgh")) =
  Sha256.sha256_hex (list_byte_of_string "abcdefgh").
Proof. vm_compute. reflexivity. Qed.

(** From here on a digest is a string like any other. *)
Opaque sha256_of_file.

(* ------------------------------------------------------------------ *)
(** ** The parse-and-index loop in closed form *)

Lemma scan_file_spec (root : string) (do_fix : bool) (w : World)
    (st : Scan) (jf : JsonFile) :
  scan_file root do_fix w st jf =
  match classify root jf with
  | NotObject v => inl (AttributeError (type_name v))
  | _ =>
      inr (mkScan
             (mkReport (errors (sc_report st) ++ file_errors root do_fix w jf)
                (warnings (sc_report st) ++ file_warnings root jf))
             (sc_datafiles st ++ datafiles_of root [jf])
             (fst (fold_left index_add (datafiles_of root [jf])
                     (sc_id_to_df st, sc_id_dups st)))
             (snd (fold_left index_add (datafiles_of root [jf])
                     (sc_id_to_df st, sc_id_dups st)))
             (sc_written st ++ file_written root do_fix w jf))
  end.
Proof.
  unfold scan_file, file_errors, file_warnings, file_written, datafiles_of,
    classify.
  simpl flat_map.
  destruct (load_json_strict (path_join root (jf_rel jf)) (jf_doc jf))
    as [e|content]; simpl.
  - destruct st as [[er wa] dfs ix du wr]; simpl. now rewrite !app_nil_r.
  - destruct content as [| | | | | |pairs]; try reflexivity.
    unfold classify. simpl. unfold index_add, datafile_of, string_field. simpl.
    destruct st as [[er wa] dfs ix du wr]; simpl.
    destruct (dict_get "id" pairs) as [[| | | |sid| |]|];
      destruct (dict_get "$schema" pairs) as [[| | | |ssch| |]|];
      simpl;
      try destruct (truthy sid); try destruct (dict_mem sid ix);
      destruct do_fix; simpl;
      try destruct (fs_write_error w (path_join root (jf_rel jf)));
      unfold error, warn; simpl;
      rewrite ?app_nil_r, <- ?app_assoc; reflexivity.
Qed.

Lemma datafiles_of_cons (root : string) (jf : JsonFile)
    (files : list JsonFile) :
  datafiles_of root (jf :: files) =
  datafiles_of root [jf] ++ datafiles_of root files.
Proof. unfold datafiles_of. simpl. now rewrite app_nil_r. Qed.

Lemma datafiles_of_single (root : string) (jf : JsonFile) :
  datafiles_of root [jf] =
  match classify root jf with
  | Object pairs => [datafile_of root jf pairs]
  | _ => []
  end.
Proof. unfold datafiles_of. cbn [flat_map]. apply app_nil_r. Qed.

Lemma datafiles_of_app (root : string) (a b : list JsonFile) :
  datafiles_of root (a ++ b) = datafiles_of root a ++ datafiles_of root b.
Proof. unfold datafiles_of. apply flat_map_app. Qed.

Lemma scan_files_ok (root : string) (do_fix : bool) (w : World)
    (files : list JsonFile) :
  forall st : Scan,
    existsb (is_not_object root) files = false ->
    scan_files root do_fix w st files =
    inr (mkScan
           (mkReport
              (errors (sc_report st)
                 ++ flat_map (file_errors root do_fix w) files)
              (warnings (sc_report st)
                 ++ flat_map (file_warnings root) files))
           (sc_datafiles st ++ datafiles_of root files)
           (fst (fold_left index_add (datafiles_of root files)
                   (sc_id_to_df st, sc_id_dups st)))
           (snd (fold_left index_add (datafiles_of root files)
                   (sc_id_to_df st, sc_id_dups st)))
           (sc_written st ++ flat_map (file_written root do_fix w) files)).
Proof.
  induction files as [|jf rest IH]; intros st H.
  - simpl. rewrite !app_nil_r. now destruct st as [[er wa] ? ? ? ?].
  - simpl in H. apply orb_false_iff in H as [Hjf Hrest].
    cbn [scan_files]. rewrite scan_file_spec.
    unfold is_not_object in Hjf.
    rewrite (datafiles_of_cons root jf rest), fold_left_app.
    destruct (classify root jf) eqn:Ec; [|discriminate|];
      rewrite (IH _ Hrest); cbn [sc_report sc_datafiles sc_id_to_df
                                   sc_id_dups sc_written errors warnings];
      cbn [flat_map]; rewrite <- !app_assoc, <- surjective_pairing;
      reflexivity.
Qed.

Lemma scan_files_raise (root : string) (do_fix : bool) (w : World)
    (files : list JsonFile) :
  forall (st : Scan) (exc : uncaught) (wr : list (string * string)),
    scan_files root do_fix w st files = inl (exc, wr) ->
    exists pre jf post,
      files = pre ++ jf :: post /\
      is_not_object root jf = true /\
      wr = sc_written st ++ flat_map (file_written root do_fix w) pre.
Proof.
  induction files as [|jf rest IH]; intros st exc wr H.
  - discriminate.
  - cbn [scan_files] in H. rewrite scan_file_spec in H.
    destruct (classify root jf) eqn:Ec.
    + apply IH in H as (pre & jf' & post & -> & Hno & ->).
      exists (jf :: pre), jf', post. repeat split; [assumption|].
      cbn [sc_written flat_map]. now rewrite <- app_assoc.
    + injection H as <- <-. exists [], jf, rest.
      unfold is_not_object. rewrite Ec. simpl. now rewrite app_nil_r.
    + apply IH in H as (pre & jf' & post & -> & Hno & ->).
      exists (jf :: pre), jf', post. repeat split; [assumption|].
      cbn [sc_written flat_map]. now rewrite <- app_assoc.
Qed.

Lemma scan_files_inr (root : string) (do_fix : bool) (w : World)
    (files : list JsonFile) (st st' : Scan) :
  scan_files root do_fix w st files = inr st' ->
  existsb (is_not_object root) files = false.
Proof.
  revert st. induction files as [|jf rest IH]; intros st H; [reflexivity|].
  cbn [scan_files] in H. rewrite scan_file_spec in H. simpl.
  unfold is_not_object at 1.
  destruct (classify root jf); [eauto|discriminate|eauto].
Qed.

(* ------------------------------------------------------------------ *)
(** ** The run in closed form *)

Lemma fold_error (fs : list finding) (r : Report) :
  fold_left error fs r = mkReport (errors r ++ fs) (warnings r).
Proof.
  revert r. induction fs as [|f fs IH]; intros r; simpl.
  - rewrite app_nil_r. now destruct r.
  - rewrite IH. simpl. now rewrite <- app_assoc.
Qed.

Lemma fold_warn (fs : list finding) (r : Report) :
  fold_left warn fs r = mkReport (errors r) (warnings r ++ fs).
Proof.
  revert r. induction fs as [|f fs IH]; intros r; simpl.
  - rewrite app_nil_r. now destruct r.
  - rewrite IH. simpl. now rewrite <- app_assoc.
Qed.

Lemma try_schema_validate_adds (w : World) (schema_dir : string)
    (r : Report) (df : DataFile) :
  try_schema_validate w schema_dir r df =
  mkReport (errors r ++ errors (schema_findings w schema_dir df))
    (warnings r ++ warnings (schema_findings w schema_dir df)).
Proof.
  unfold schema_findings, try_schema_validate.
  destruct r as [er wa].
  repeat match goal with
         | |- context [match ?x with _ => _ end] => destruct x
         end;
    unfold error, warn; simpl; rewrite ?app_nil_r; reflexivity.
Qed.

Lemma fold_schema (w : World) (schema_dir : string) (dfs : list DataFile)
    (r : Report) :
  fold_left (try_schema_validate w schema_dir) dfs r =
  mkReport
    (errors r ++ flat_map (fun df => errors (schema_findings w schema_dir df))
                   dfs)
    (warnings r
       ++ flat_map (fun df => warnings (schema_findings w schema_dir df)) dfs).
Proof.
  revert r. induction dfs as [|df dfs IH]; intros r; simpl.
  - rewrite !app_nil_r. now destruct r.
  - rewrite IH, try_schema_validate_adds. simpl. now rewrite <- !app_assoc.
Qed.

(** A run over a tree with a data directory returns unless some file holds
    a value that is not an object; what it returns is this. *)
Lemma analyze_returns (w : World) (utcnow root schema_dir : string)
    (do_fix fail_on_warning : bool) (listing : list JsonFile) :
  data_listing w = Some listing ->
  existsb (is_not_object root) (collect_json_files listing) = false ->
  let files := collect_json_files listing in
  let rep := mkReport (run_errors root schema_dir do_fix w files)
               (run_warnings root schema_dir w files) in
  analyze w utcnow root schema_dir do_fix fail_on_warning =
  Returned
    (mkRun (status_of fail_on_warning rep) rep
       (Some (build_manifest root utcnow (datafiles_of root files)
                (collect_asset_files root w)))
       (flat_map (file_written root do_fix w) files)).
Proof.
  intros Hl Hok files rep. unfold analyze. rewrite Hl.
  fold files. rewrite (scan_files_ok root do_fix w files _ Hok). fold files.
  cbn [sc_report sc_datafiles sc_id_to_df sc_id_dups sc_written].
  rewrite fold_error, fold_error, fold_warn, fold_schema.
  match goal with
  | |- Returned (mkRun _ ?R _ _) = _ => replace R with rep
  end.
  - reflexivity.
  - unfold rep, run_errors, run_warnings, build_index, asset_set_of.
    destruct files; simpl; rewrite <- ?app_assoc; reflexivity.
Qed.

Lemma analyze_inv (w : World) (utcnow root schema_dir : string)
    (do_fix fail_on_warning : bool) (r : Run) :
  analyze w utcnow root schema_dir do_fix fail_on_warning = Returned r ->
  (data_listing w = None /\
   r = mkRun 1 (mkReport [MissingDataDir (path_join root "data")] []) None [])
  \/
  (exists listing,
      data_listing w = Some listing /\
      existsb (is_not_object root) (collect_json_files listing) = false /\
      let files := collect_json_files listing in
      let rep := mkReport (run_errors root schema_dir do_fix w files)
                   (run_warnings root schema_dir w files) in
      r = mkRun (status_of fail_on_warning rep) rep
            (Some (build_manifest root utcnow (datafiles_of root files)
                     (collect_asset_files root w)))
            (flat_map (file_written root do_fix w) files)).
Proof.
  intros H. destruct (data_listing w) as [listing|] eqn:Hl.
  - right. exists listing. split; [reflexivity|].
    assert (Hok : existsb (is_not_object root) (collect_json_files listing)
                  = false).
    { unfold analyze in H. rewrite Hl in H.
      destruct (scan_files _ _ _ _ _) as [[exc wr]|st] eqn:Es;
        [discriminate|].
      eapply scan_files_inr; eauto. }
    split; [assumption|].
    rewrite (analyze_returns w utcnow root schema_dir do_fix fail_on_warning _
               Hl Hok) in H.
    now injection H as <-.
  - left. split; [reflexivity|]. unfold analyze in H. rewrite Hl in H.
    now injection H as <-.
Qed.

Lemma status_of_zero (fail_on_warning : bool) (rep : Report) :
  (status_of fail_on_warning rep = 0%Z <->
   errors rep = [] /\ (fail_on_warning = true -> warnings rep = [])) /\
  (status_of fail_on_warning rep = 0%Z \/ status_of fail_on_warning rep = 1%Z).
Proof.
  unfold status_of.
  destruct (errors rep), fail_on_warning, (warnings rep);
    intuition (try discriminate; try congruence).
Qed.

(** C6 as stated fails: with no data directory the run reports an error
    and returns 1 before any manifest is written. *)
Lemma no_manifest_without_data_dir :
  exists r,
    analyze (bare_world "/repo")
      "2026-01-01T00:00:00" "/repo" "/repo/data/schema"
      false false = Returned r /\
    errors (report r) = [MissingDataDir "/repo/data"] /\
    exit_status r = 1%Z /\
    manifest r = None.
Proof. eexists. repeat split. Qed.

(** C6, amended.  For every run that returns, the exit status is zero
    exactly when no error was reported and, with strict mode, no warning
    either; it is 1 otherwise; and the manifest is written, errors or not,
    exactly when the tree has a data directory. *)
Theorem exit_status_and_manifest (w : World)
    (utcnow root schema_dir : string) (do_fix fail_on_warning : bool)
    (r : Run) :
  analyze w utcnow root schema_dir do_fix fail_on_warning = Returned r ->
  (exit_status r = 0%Z <->
   errors (report r) = [] /\
   (fail_on_warning = true -> warnings (report r) = [])) /\
  (exit_status r = 0%Z \/ exit_status r = 1%Z) /\
  (manifest r <> None <-> data_listing w <> None).
Proof.
  intros H. apply analyze_inv in H as [[Hl ->]|(listing & Hl & _ & ->)];
    cbn [exit_status report manifest errors warnings]; rewrite Hl.
  - repeat split; try (intros; discriminate); intuition (try discriminate).
  - destruct (status_of_zero fail_on_warning
      (mkReport (run_errors root schema_dir do_fix w (collect_json_files listing))
         (run_warnings root schema_dir w (collect_json_files listing))))
      as [Hz Hb].
    cbn [errors warnings] in Hz.
    repeat split; try apply Hz; try assumption; intros; discriminate.
Qed.

Lemma exit_status_and_manifest_witness :
  exists r,
    analyze (world_of "/repo" [sword_b; sword_a]) "2026-01-01T00:00:00" "/repo"
      "/repo/data/schema" false true = Returned r /\
    ((exit_status r = 0%Z <->
      errors (report r) = [] /\ (true = true -> warnings (report r) = [])) /\
     (exit_status r = 0%Z \/ exit_status r = 1%Z) /\
     (manifest r <> None <->
      data_listing (world_of "/repo" [sword_b; sword_a]) <> None)).
Proof.
  assert (H : exists r,
             analyze (world_of "/repo" [sword_b; sword_a]) "2026-01-01T00:00:00"
               "/repo" "/repo/data/schema" false true = Returned r)
    by (vm_compute; eexists; reflexivity).
  destruct H as [r H]. exists r. split; [exact H|].
  exact (exit_status_and_manifest _ _ _ _ _ _ r H).
Defined.

(* ------------------------------------------------------------------ *)
(** ** Where the lines of the report come from *)

Lemma filter_none A (p : A -> bool) (l : list A) :
  Forall (fun x => p x = false) l -> filter p l = [].
Proof.
  induction 1 as [|x l Hx _ IH]; simpl; [reflexivity|]. now rewrite Hx.
Qed.

Lemma filter_all A (p : A -> bool) (l : list A) :
  Forall (fun x => p x = true) l -> filter p l = l.
Proof.
  induction 1 as [|x l Hx _ IH]; simpl; [reflexivity|]. now rewrite Hx, IH.
Qed.

Lemma Forall_flat_map A B (P : B -> Prop) (f : A -> list B) (l : list A) :
  (forall x, In x l -> Forall P (f x)) -> Forall P (flat_map f l).
Proof.
  induction l as [|x l IH]; simpl; intros H; [constructor|].
  apply Forall_app. split; [apply H; now left|]. apply IH. intros y Hy.
  apply H. now right.
Qed.

Lemma file_errors_origin (root : string) (do_fix : bool) (w : World)
    (files : list JsonFile) :
  Forall (fun f => origin_of f = FromLoop)
    (flat_map (file_errors root do_fix w) files).
Proof.
  apply Forall_flat_map. intros jf _. unfold file_errors.
  destruct (classify root jf) as [e|v|pairs]; [repeat constructor|constructor|].
  apply Forall_app. split.
  - destruct (dict_get "id" pairs) as [[| | | | | |]|]; repeat constructor.
  - destruct do_fix; [|constructor].
    destruct (fs_write_error w _); repeat constructor.
Qed.

Lemma file_warnings_origin (root : string) (files : list JsonFile) :
  Forall (fun f => origin_of f = FromLoop)
    (flat_map (file_warnings root) files).
Proof.
  apply Forall_flat_map. intros jf _. unfold file_warnings.
  destruct (classify root jf) as [e|v|pairs]; try constructor.
  destruct (dict_get "$schema" pairs) as [[| | | | | |]|]; repeat constructor.
Qed.

Lemma schema_findings_origin (w : World) (schema_dir : string)
    (df : DataFile) :
  Forall (fun f => origin_of f = FromSchema)
    (errors (schema_findings w schema_dir df)) /\
  Forall (fun f => origin_of f = FromSchema)
    (warnings (schema_findings w schema_dir df)).
Proof.
  unfold schema_findings, try_schema_validate.
  repeat match goal with
         | |- context [match ?x with _ => _ end] => destruct x
         end; simpl; split; repeat constructor.
Qed.

Lemma duplicate_errors_origin (ix : dict DataFile) (dups : dict Z) :
  Forall (fun f => origin_of f = FromDuplicates) (duplicate_errors ix dups).
Proof.
  unfold duplicate_errors. induction dups; simpl; constructor; auto.
Qed.

Lemma unresolved_errors_origin (dfs : list DataFile) (ix : dict DataFile) :
  Forall (fun f => origin_of f = FromReferences) (unresolved_errors dfs ix).
Proof.
  unfold unresolved_errors.
  induction (collect_unresolved dfs _); simpl; constructor; auto.
Qed.

Lemma asset_warnings_origin (root : string) (w : World)
    (asset_set : list string) (dfs : list DataFile) :
  Forall (fun f => origin_of f = FromAssets)
    (asset_warnings root w asset_set dfs).
Proof.
  unfold asset_warnings. apply Forall_flat_map. intros df _.
  apply Forall_flat_map. intros ref _.
  destruct (resolve_asset root w asset_set ref); repeat constructor.
Qed.

(** Selecting the lines of one origin out of the errors of a run. *)
Lemma filter_run_errors (p : finding -> bool) (o : origin)
    (root schema_dir : string) (do_fix : bool) (w : World)
    (files : list JsonFile) :
  (forall f, p f = true -> origin_of f = o) ->
  filter p (run_errors root schema_dir do_fix w files) =
  match o with
  | FromLoop => filter p (flat_map (file_errors root do_fix w) files)
  | FromDuplicates =>
      filter p (duplicate_errors (fst (build_index root files))
                  (snd (build_index root files)))
  | FromReferences =>
      filter p (unresolved_errors (datafiles_of root files)
                  (fst (build_index root files)))
  | FromSchema =>
      filter p (flat_map (fun df => errors (schema_findings w schema_dir df))
                  (datafiles_of root files))
  | _ => []
  end.
Proof.
  intros Hp. unfold run_errors. rewrite !filter_app.
  assert (Hnot : forall o' l, o' <> o ->
             Forall (fun f => origin_of f = o') l -> filter p l = []).
  { intros o' l Hne Hl. apply filter_none. eapply Forall_impl; [|exact Hl].
    intros f Hf. simpl in Hf. destruct (p f) eqn:E; [|reflexivity].
    apply Hp in E. congruence. }
  pose proof (file_errors_origin root do_fix w files) as H1.
  pose proof (duplicate_errors_origin (fst (build_index root files))
                (snd (build_index root files))) as H2.
  pose proof (unresolved_errors_origin (datafiles_of root files)
                (fst (build_index root files))) as H3.
  assert (H4 : Forall (fun f => origin_of f = FromSchema)
                 (flat_map (fun df => errors (schema_findings w schema_dir df))
                    (datafiles_of root files))).
  { apply Forall_flat_map. intros df _. apply schema_findings_origin. }
  destruct o;
    repeat match goal with
           | H : Forall (fun f => origin_of f = ?o') ?l |- context [filter p ?l] =>
               rewrite (Hnot o' l) by (congruence || assumption); clear H
           end;
    rewrite ?app_nil_r; try reflexivity;
    try (rewrite (Hnot _ _ ltac:(discriminate) H1));
    try (rewrite (Hnot _ _ ltac:(discriminate) H2));
    try (rewrite (Hnot _ _ ltac:(discriminate) H3));
    try (rewrite (Hnot _ _ ltac:(discriminate) H4));
    rewrite ?app_nil_r; reflexivity.
Qed.

(* ------------------------------------------------------------------ *)
(** ** The identifier index *)

Lemma dict_get_set V (k k' : string) (v : V) (d : dict V) :
  dict_get k (dict_set k' v d) =
  if String.eqb k k' then Some v else dict_get k d.
Proof.
  induction d as [|[k0 v0] r IH]; simpl.
  - reflexivity.
  - destruct (String.eqb k' k0) eqn:E0; simpl.
    + apply String.eqb_eq in E0. subst k0.
      now destruct (String.eqb k k').
    + rewrite IH. destruct (String.eqb k k') eqn:E; [|reflexivity].
      apply String.eqb_eq in E. subst k'. now rewrite E0.
Qed.

Lemma dict_set_NoDup V (k : string) (v : V) (d : dict V) :
  NoDup (map fst d) -> NoDup (map fst (dict_set k v d)).
Proof.
  intros H. rewrite dict_set_keys. destruct (dict_mem k d) eqn:E; [easy|].
  apply dict_mem_false in E. apply NoDup_app; auto.
  - repeat constructor. simpl. tauto.
  - intros x Hx [<-|[]]. contradiction.
Qed.

Lemma dict_filter_key V (i : string) (d : dict V) :
  NoDup (map fst d) ->
  filter (fun kv : string * V => String.eqb (fst kv) i) d =
  match dict_get i d with
  | Some v => [(i, v)]
  | None => []
  end.
Proof.
  induction d as [|[k v] r IH]; simpl; intros Hnd; [reflexivity|].
  inversion Hnd as [|? ? Hk Hr]; subst.
  rewrite (String.eqb_sym i k). destruct (String.eqb k i) eqn:E.
  - apply String.eqb_eq in E. subst k. f_equal.
    apply filter_none. apply Forall_forall. intros [k' v'] Hin. simpl.
    apply String.eqb_neq. intros ->. apply Hk.
    apply in_map_iff. now exists (i, v').
  - now apply IH.
Qed.

Lemma fold_index_add (dfs : list DataFile) :
  NoDup (map fst (snd (fold_left index_add dfs ([], [])))) /\
  forall i, index_holds dfs (fold_left index_add dfs ([], [])) i.
Proof.
  induction dfs as [|df dfs [IHnd IH]] using rev_ind.
  - split; [constructor|]. intros i. unfold index_holds. simpl.
    now destruct (truthy i).
  - rewrite fold_left_app. cbn [fold_left].
    set (ix := fold_left index_add dfs ([], [])) in *.
    assert (Hown : forall i, filter (has_id i) (dfs ++ [df]) =
                             filter (has_id i) dfs
                               ++ (if has_id i df then [df] else [])).
    { intros i. rewrite filter_app. simpl. now destruct (has_id i df). }
    unfold index_add. destruct (df_id df) as [j|] eqn:Ej.
    2:{ split; [assumption|]. intros i. specialize (IH i).
        unfold index_holds in *. rewrite Hown. unfold has_id at 2 4 6.
        rewrite Ej, app_nil_r. exact IH. }
    destruct (truthy j) eqn:Tj.
    2:{ split; [assumption|]. intros i. specialize (IH i).
        unfold index_holds in *. rewrite Hown. unfold has_id at 2 4 6.
        rewrite Ej. destruct (String.eqb j i) eqn:E.
        - apply String.eqb_eq in E. subst i. rewrite Tj in *.
          exact IH.
        - rewrite app_nil_r. exact IH. }
    pose proof (IH j) as Hj. unfold index_holds in Hj. rewrite Tj in Hj.
    destruct Hj as [Hj1 Hj2].
    destruct (dict_mem j (fst ix)) eqn:Em.
    + (* a later occurrence: the counter goes up, the owner stays *)
      split.
      { cbn [snd]. unfold counter_incr. now apply dict_set_NoDup. }
      intros i. specialize (IH i). unfold index_holds in *. rewrite Hown.
      unfold has_id at 2 4 6. rewrite Ej. cbn [fst snd].
      unfold counter_incr. rewrite dict_get_set, (String.eqb_sym i j).
      destruct (String.eqb j i) eqn:E.
      * apply String.eqb_eq in E. subst i. rewrite Tj.
        unfold dict_mem in Em.
        destruct (filter (has_id j) dfs) as [|o os] eqn:Eo.
        { simpl in Hj1. rewrite Hj1 in Em. discriminate. }
        split; [now rewrite Hj1|]. rewrite Hj2, length_app.
        cbn [length].
        destruct (Nat.leb_spec 2 (S (length os)));
          destruct (Nat.leb_spec 2 (S (length os) + 1)); try lia;
          f_equal; lia.
      * rewrite app_nil_r. exact IH.
    + (* the first occurrence becomes the owner *)
      split; [assumption|].
      intros i. specialize (IH i). unfold index_holds in *. rewrite Hown.
      unfold has_id at 2 4 6. rewrite Ej. cbn [fst snd].
      rewrite dict_get_set, (String.eqb_sym i j).
      destruct (String.eqb j i) eqn:E.
      * apply String.eqb_eq in E. subst i. rewrite Tj.
        unfold dict_mem in Em.
        destruct (filter (has_id j) dfs) as [|o os] eqn:Eo.
        -- simpl. split; [reflexivity|]. exact Hj2.
        -- simpl in Hj1. rewrite Hj1 in Em. discriminate.
      * rewrite app_nil_r. exact IH.
Qed.

Lemma filter_duplicate_errors (i : string) (ix : dict DataFile)
    (dups : dict Z) :
  NoDup (map fst dups) ->
  filter (is_duplicate_of i) (duplicate_errors ix dups) =
  match dict_get i dups with
  | Some c => [DuplicateId i (c + 1) (option_map df_rel (dict_get i ix))]
  | None => []
  end.
Proof.
  intros Hnd. unfold duplicate_errors.
  assert (H : forall l : dict Z,
             filter (is_duplicate_of i)
               (map (fun bc : string * Z =>
                       DuplicateId (fst bc) (snd bc + 1)
                         (option_map df_rel (dict_get (fst bc) ix))) l) =
             map (fun bc : string * Z =>
                    DuplicateId (fst bc) (snd bc + 1)
                      (option_map df_rel (dict_get (fst bc) ix)))
               (filter (fun kv : string * Z => String.eqb (fst kv) i) l)).
  { induction l as [|[k c] l IHl]; simpl; [reflexivity|].
    destruct (String.eqb k i); simpl; now rewrite IHl. }
  rewrite H, (dict_filter_key _ i dups Hnd).
  now destruct (dict_get i dups).
Qed.

(** C2 as stated fails: the files are taken in the order in which the
    directory walk yields them, which nothing sorts; when it yields
    [b.json] before [a.json] the error names [b.json], not the
    lexicographically earliest path. *)
Lemma first_seen_is_not_lexicographic :
  exists r,
    analyze (world_of "/repo" [sword_b; sword_a]) "2026-01-01T00:00:00" "/repo"
      "/repo/data/schema" false false = Returned r /\
    errors (report r) =
      [DuplicateId "sword_01" 2 (Some "data/items/b.json")] /\
    String.ltb "data/items/a.json" "data/items/b.json" = true.
Proof. vm_compute. eexists. repeat split. Qed.

(** C2, amended.  In every run that returns, for every identifier [i]
    (a non-empty string): the owner of [i] in the index is the first record
    declaring [i] in discovery order, later occurrences only count; the
    report holds exactly one duplicate-identifier error about [i] when two
    or more records declare it, none otherwise; that error gives the number
    of occurrences and the path of the first record in discovery order.
    For two records that is one error with count 2 naming the first. *)
Theorem duplicate_id_first_in_discovery_order (w : World)
    (utcnow root schema_dir : string) (do_fix fail_on_warning : bool)
    (listing : list JsonFile) (r : Run) (i : string) :
  data_listing w = Some listing ->
  analyze w utcnow root schema_dir do_fix fail_on_warning = Returned r ->
  truthy i = true ->
  let files := collect_json_files listing in
  let owners := filter (has_id i) (datafiles_of root files) in
  (forall st0 st,
      sc_id_to_df st0 = [] -> sc_id_dups st0 = [] ->
      scan_files root do_fix w st0 files = inr st ->
      dict_get i (sc_id_to_df st) = hd_error owners /\
      dict_get i (sc_id_dups st) =
        if (2 <=? length owners)%nat
        then Some (Z.of_nat (length owners) - 1)%Z else None) /\
  filter (is_duplicate_of i) (errors (report r)) =
    match owners with
    | first :: _ :: _ =>
        [DuplicateId i (Z.of_nat (length owners)) (Some (df_rel first))]
    | _ => []
    end /\
  (forall d1 d2, owners = [d1; d2] ->
      filter (is_duplicate_of i) (errors (report r)) =
      [DuplicateId i 2 (Some (df_rel d1))]).
Proof.
  intros Hl Hr Ti files owners.
  destruct (fold_index_add (datafiles_of root files)) as [Hnd Hix].
  pose proof (Hix i) as Hi. unfold index_holds in Hi. rewrite Ti in Hi.
  fold owners in Hi. destruct Hi as [Hi1 Hi2].
  assert (Herr : filter (is_duplicate_of i) (errors (report r)) =
                 match owners with
                 | first :: _ :: _ =>
                     [DuplicateId i (Z.of_nat (length owners))
                        (Some (df_rel first))]
                 | _ => []
                 end).
  { apply analyze_inv in Hr as [[Hn _]|(listing' & Hl' & Hok & ->)];
      [congruence|].
    rewrite Hl in Hl'. injection Hl' as <-. cbn [report errors].
    rewrite (filter_run_errors (is_duplicate_of i) FromDuplicates).
    2:{ intros f Hf. destruct f; try discriminate. reflexivity. }
    unfold build_index. fold files.
    rewrite (filter_duplicate_errors i _ _ Hnd), Hi1, Hi2.
    destruct owners as [|o1 [|o2 os]]; cbn [length Nat.leb hd_error];
      try reflexivity.
    cbn [option_map]. do 2 f_equal. lia. }
  split; [|split].
  - intros st0 st H0 H1 Hs.
    pose proof (scan_files_inr _ _ _ _ _ _ Hs) as Hok.
    rewrite (scan_files_ok root do_fix w files st0 Hok) in Hs.
    injection Hs as <-. cbn [sc_id_to_df sc_id_dups]. rewrite H0, H1.
    now split.
  - exact Herr.
  - intros d1 d2 Ho. rewrite Herr, Ho. reflexivity.
Qed.

Lemma duplicate_id_first_in_discovery_order_witness :
  exists r,
    analyze (world_of "/repo" [sword_b; sword_a]) "2026-01-01T00:00:00" "/repo"
      "/repo/data/schema" false false = Returned r /\
    filter (is_duplicate_of "sword_01") (errors (report r)) =
    [DuplicateId "sword_01" 2 (Some "data/items/b.json")].
Proof.
  assert (H : exists r,
             analyze (world_of "/repo" [sword_b; sword_a]) "2026-01-01T00:00:00"
               "/repo" "/repo/data/schema" false false = Returned r)
    by (vm_compute; eexists; reflexivity).
  destruct H as [r H]. exists r. split; [exact H|].
  pose proof (duplicate_id_first_in_discovery_order
                (world_of "/repo" [sword_b; sword_a])
                  "2026-01-01T00:00:00" "/repo"
                "/repo/data/schema" false false [sword_b; sword_a] r
                "sword_01" eq_refl H eq_refl) as (_ & _ & Hpair).
  exact (Hpair _ _ eq_refl).
Defined.

(* ------------------------------------------------------------------ *)
(** ** Sorting and sets *)

Section SortingFacts.
Variable A : Type.
Variable leb : A -> A -> bool.
Hypothesis leb_total : forall a b, leb a b = true \/ leb b a = true.

Lemma insert_sorted_perm (x : A) (l : list A) :
  Permutation (insert_sorted leb x l) (x :: l).
Proof.
  induction l as [|y r IH]; simpl; [reflexivity|].
  destruct (leb x y); [reflexivity|].
  rewrite IH. apply perm_swap.
Qed.

Lemma sorted_by_perm (l : list A) : Permutation (sorted_by leb l) l.
Proof.
  induction l as [|x r IH]; simpl; [reflexivity|].
  rewrite insert_sorted_perm. now constructor.
Qed.

Lemma insert_sorted_Sorted (x : A) (l : list A) :
  Sorted (fun a b => leb a b = true) l ->
  Sorted (fun a b => leb a b = true) (insert_sorted leb x l).
Proof.
  induction 1 as [|y r Hr IH Hhd]; simpl; [repeat constructor|].
  destruct (leb x y) eqn:E.
  - repeat constructor; assumption.
  - constructor; [assumption|].
    destruct (leb_total x y) as [H|H]; [congruence|].
    destruct r as [|z r']; simpl; [now repeat constructor|].
    destruct (leb x z); constructor; [assumption|].
    now inversion Hhd.
Qed.

Lemma sorted_by_Sorted (l : list A) :
  Sorted (fun a b => leb a b = true) (sorted_by leb l).
Proof.
  induction l as [|x r IH]; simpl; [constructor|].
  now apply insert_sorted_Sorted.
Qed.
End SortingFacts.

Lemma sorted_In (x : string) (l : list string) : In x (sorted l) <-> In x l.
Proof.
  unfold sorted. split; apply Permutation_in;
    [|symmetry]; apply sorted_by_perm.
Qed.

Lemma set_add_In (x y : string) (s : list string) :
  In y (set_add x s) <-> y = x \/ In y s.
Proof.
  unfold set_add. destruct (mem x s) eqn:E.
  - apply mem_In in E. intuition congruence.
  - rewrite in_app_iff. simpl. intuition congruence.
Qed.

Lemma set_add_NoDup (x : string) (s : list string) :
  NoDup s -> NoDup (set_add x s).
Proof.
  unfold set_add. destruct (mem x s) eqn:E; intros H; [assumption|].
  apply mem_false in E. apply NoDup_app; auto.
  - repeat constructor. simpl. tauto.
  - intros y Hy [<-|[]]. contradiction.
Qed.

Lemma set_update_In (xs s : list string) (y : string) :
  In y (set_update xs s) <-> In y xs \/ In y s.
Proof.
  unfold set_update. revert s. induction xs as [|x xs IH]; intros s; simpl.
  - tauto.
  - rewrite IH, set_add_In. intuition congruence.
Qed.

Lemma set_update_NoDup (xs s : list string) :
  NoDup s -> NoDup (set_update xs s).
Proof.
  unfold set_update. revert s. induction xs as [|x xs IH]; intros s H; simpl.
  - assumption.
  - apply IH. now apply set_add_NoDup.
Qed.

Lemma set_of_list_In (xs : list string) (y : string) :
  In y (set_of_list xs) <-> In y xs.
Proof. unfold set_of_list. rewrite set_update_In. simpl. tauto. Qed.

Lemma set_of_list_NoDup (xs : list string) : NoDup (set_of_list xs).
Proof. apply set_update_NoDup. constructor. Qed.

Lemma mem_set_of_list (x : string) (xs : list string) :
  mem x (set_of_list xs) = mem x xs.
Proof.
  apply eq_true_iff_eq. now rewrite !mem_In, set_of_list_In.
Qed.

Lemma sorted_set_increasing (xs : list string) :
  increasing (sorted (set_of_list xs)).
Proof.
  unfold increasing, sorted.
  assert (Hnd : NoDup (sorted_by String.leb (set_of_list xs))).
  { eapply Permutation_NoDup; [symmetry; apply sorted_by_perm|].
    apply set_of_list_NoDup. }
  pose proof (sorted_by_Sorted _ String.leb String.leb_total (set_of_list xs))
    as Hs.
  induction Hs as [|x l Hl IH Hhd]; [constructor|].
  inversion Hnd as [|? ? Hx Hnd']; subst.
  constructor; [now apply IH|].
  destruct Hhd as [|y l' Hxy]; constructor.
  unfold String.leb in Hxy. unfold String.ltb.
  destruct (String.compare x y) eqn:E; try reflexivity; try discriminate.
  apply String.compare_eq_iff in E. subst y. exfalso. apply Hx. now left.
Qed.

(* ------------------------------------------------------------------ *)
(** ** Unresolved references *)

Lemma dict_set_set V (k : string) (v v' : V) (d : dict V) :
  dict_set k v (dict_set k v' d) = dict_set k v d.
Proof.
  induction d as [|[k0 v0] r IH]; simpl.
  - now rewrite String.eqb_refl.
  - destruct (String.eqb k k0) eqn:E; simpl; rewrite E; [reflexivity|].
    now rewrite IH.
Qed.

Lemma mem_known_ids (dep : string) (ix : dict DataFile) :
  mem dep (set_of_list (dict_keys ix)) = dict_mem dep ix.
Proof.
  apply eq_true_iff_eq.
  now rewrite mem_In, set_of_list_In, dict_mem_In.
Qed.

Lemma unresolved_of_record (ix : dict DataFile) (rel : string)
    (deps : list string) :
  forall un : dict (list string),
    fold_left
      (fun un dep =>
         if mem dep (set_of_list (dict_keys ix)) then un
         else dict_append rel dep un)
      deps un =
    match filter (fun dep => negb (dict_mem dep ix)) deps with
    | [] => un
    | m =>
        dict_set rel
          (match dict_get rel un with Some l => l ++ m | None => m end) un
    end.
Proof.
  induction deps as [|dep deps IH]; intros un; simpl; [reflexivity|].
  rewrite IH, mem_known_ids. destruct (dict_mem dep ix); simpl.
  - reflexivity.
  - unfold dict_append. rewrite dict_get_set, String.eqb_refl.
    destruct (filter _ deps) as [|m ms]; [|rewrite dict_set_set];
      destruct (dict_get rel un); rewrite <- ?app_assoc; reflexivity.
Qed.

Lemma collect_unresolved_from (ix : dict DataFile) (dfs : list DataFile) :
  forall un : dict (list string),
    NoDup (map df_rel dfs) ->
    (forall df, In df dfs -> ~ In (df_rel df) (map fst un)) ->
    fold_left
      (fun un df =>
         fold_left
           (fun un dep =>
              if mem dep (set_of_list (dict_keys ix)) then un
              else dict_append (df_rel df) dep un)
           (df_deps df) un)
      dfs un =
    un ++ flat_map (fun df => match missing_refs ix df with
                              | [] => []
                              | m => [(df_rel df, m)]
                              end) dfs.
Proof.
  induction dfs as [|df dfs IH]; intros un Hnd Hfresh; simpl.
  - now rewrite app_nil_r.
  - inversion Hnd as [|? ? Hdf Hnd']; subst.
    rewrite unresolved_of_record. fold (missing_refs ix df).
    assert (Hnone : dict_get (df_rel df) un = None).
    { destruct (dict_get (df_rel df) un) eqn:E; [|reflexivity].
      exfalso. apply (Hfresh df (or_introl eq_refl)).
      apply dict_get_In. congruence. }
    destruct (missing_refs ix df) as [|m ms] eqn:Em.
    + rewrite IH; auto. intros d Hd. apply Hfresh. now right.
    + rewrite Hnone, dict_set_fresh
        by (unfold dict_mem; now rewrite Hnone).
      rewrite IH; auto.
      * now rewrite <- app_assoc.
      * intros d Hd. rewrite map_app, in_app_iff. simpl.
        intros [H|[H|[]]].
        -- apply (Hfresh d); [now right|assumption].
        -- apply Hdf. rewrite H. now apply in_map.
Qed.

Lemma unresolved_errors_closed (ix : dict DataFile) (dfs : list DataFile) :
  NoDup (map df_rel dfs) ->
  unresolved_errors dfs ix =
  flat_map (fun df => match missing_refs ix df with
                      | [] => []
                      | m => [UnresolvedRefs (df_rel df)
                                (sorted (set_of_list m))]
                      end) dfs.
Proof.
  intros Hnd. unfold unresolved_errors, collect_unresolved.
  rewrite (collect_unresolved_from ix dfs [] Hnd) by (intros ? ? []).
  simpl. clear Hnd. induction dfs as [|df dfs IH]; simpl; [reflexivity|].
  rewrite map_app, IH. now destruct (missing_refs ix df).
Qed.

Lemma filter_unresolved (ix : dict DataFile) (dfs : list DataFile)
    (df : DataFile) :
  NoDup (map df_rel dfs) -> In df dfs ->
  filter (is_unresolved_of (df_rel df)) (unresolved_errors dfs ix) =
  match missing_refs ix df with
  | [] => []
  | m => [UnresolvedRefs (df_rel df) (sorted (set_of_list m))]
  end.
Proof.
  intros Hnd Hin. rewrite (unresolved_errors_closed ix dfs Hnd).
  induction dfs as [|d dfs IH]; [contradiction|].
  inversion Hnd as [|? ? Hd Hnd']; subst. simpl. rewrite filter_app.
  destruct Hin as [->|Hin].
  - rewrite (filter_none _ (is_unresolved_of (df_rel df))
               (flat_map _ dfs)).
    + rewrite app_nil_r. destruct (missing_refs ix df); simpl;
        [reflexivity|]. now rewrite String.eqb_refl.
    + apply Forall_flat_map. intros d' Hd'.
      destruct (missing_refs ix d'); repeat constructor. simpl.
      apply String.eqb_neq. intros E. apply Hd. rewrite <- E.
      now apply in_map.
  - rewrite (IH Hnd' Hin).
    replace (filter (is_unresolved_of (df_rel df)) _) with (@nil finding);
      [reflexivity|].
    destruct (missing_refs ix d); simpl; [reflexivity|].
    replace (String.eqb (df_rel d) (df_rel df)) with false; [reflexivity|].
    symmetry. apply String.eqb_neq. intros E. apply Hd. rewrite E.
    now apply in_map.
Qed.

Lemma datafiles_of_rel (root : string) (files : list JsonFile) :
  exists keep : JsonFile -> bool,
    map df_rel (datafiles_of root files) = map jf_rel (filter keep files).
Proof.
  exists (fun jf => match classify root jf with Object _ => true | _ => false end).
  induction files as [|jf files IH]; [reflexivity|].
  rewrite datafiles_of_cons, map_app, IH. unfold datafiles_of. simpl.
  now destruct (classify root jf).
Qed.

Lemma NoDup_map_filter A B (f : A -> B) (p : A -> bool) (l : list A) :
  NoDup (map f l) -> NoDup (map f (filter p l)).
Proof.
  induction l as [|x l IH]; simpl; intros H; [constructor|].
  inversion H as [|? ? Hx Hl]; subst.
  destruct (p x); simpl; [|auto]. constructor; [|auto].
  intros Hin. apply Hx. apply in_map_iff in Hin as (y & Hy & Hin).
  apply filter_In in Hin as [Hin _]. apply in_map_iff. eauto.
Qed.

Lemma datafiles_of_NoDup (root : string) (files : list JsonFile) :
  NoDup (map jf_rel files) -> NoDup (map df_rel (datafiles_of root files)).
Proof.
  intros H. destruct (datafiles_of_rel root files) as [keep ->].
  now apply NoDup_map_filter.
Qed.

Lemma status_of_errors (fail_on_warning : bool) (rep : Report) :
  errors rep <> [] -> status_of fail_on_warning rep = 1%Z.
Proof. unfold status_of. destruct (errors rep); [congruence|reflexivity]. Qed.

(** C3.  In every run that returns, over files of distinct paths, a
    record with identifier references absent from the index gets exactly
    one unresolved-reference error: it names the file and lists the missing
    identifiers sorted and without repeats; a record with none gets no such
    error; and such an error makes the exit status 1. *)
Theorem unresolved_references_one_line_per_file (w : World)
    (utcnow root schema_dir : string) (do_fix fail_on_warning : bool)
    (listing : list JsonFile) (r : Run) (df : DataFile) :
  data_listing w = Some listing ->
  NoDup (map jf_rel (collect_json_files listing)) ->
  analyze w utcnow root schema_dir do_fix fail_on_warning = Returned r ->
  In df (datafiles_of root (collect_json_files listing)) ->
  let ix := fst (build_index root (collect_json_files listing)) in
  let missing := missing_refs ix df in
  filter (is_unresolved_of (df_rel df)) (errors (report r)) =
    match missing with
    | [] => []
    | _ :: _ => [UnresolvedRefs (df_rel df) (sorted (set_of_list missing))]
    end /\
  increasing (sorted (set_of_list missing)) /\
  (forall x, In x (sorted (set_of_list missing)) <->
             In x (df_deps df) /\ dict_get x ix = None) /\
  (missing <> [] -> exit_status r = 1%Z).
Proof.
  intros Hl Hnd Hr Hin ix missing.
  apply analyze_inv in Hr as [[Hn _]|(listing' & Hl' & Hok & ->)];
    [congruence|].
  rewrite Hl in Hl'. injection Hl' as <-. cbn [report errors exit_status].
  assert (Hf : filter (is_unresolved_of (df_rel df))
                 (run_errors root schema_dir do_fix w
                    (collect_json_files listing)) =
               match missing with
               | [] => []
               | _ :: _ =>
                   [UnresolvedRefs (df_rel df) (sorted (set_of_list missing))]
               end).
  { rewrite (filter_run_errors (is_unresolved_of (df_rel df)) FromReferences).
    2:{ intros f Hf. destruct f; try discriminate. reflexivity. }
    rewrite (filter_unresolved _ _ df (datafiles_of_NoDup root _ Hnd) Hin).
    fold ix. fold missing. now destruct missing. }
  split; [exact Hf|]. split; [apply sorted_set_increasing|]. split.
  - intros x. rewrite sorted_In, set_of_list_In. unfold missing, missing_refs.
    rewrite filter_In, negb_true_iff. unfold dict_mem.
    destruct (dict_get x ix); intuition congruence.
  - intros Hm. apply status_of_errors. cbn [errors]. intros He.
    rewrite He in Hf. destruct missing; [congruence|discriminate].
Qed.

Lemma unresolved_references_one_line_per_file_witness :
  exists r,
    analyze (world_of "/repo" [potion_user]) "2026-01-01T00:00:00" "/repo"
      "/repo/data/schema" false false = Returned r /\
    filter (is_unresolved_of "data/items/c.json") (errors (report r)) =
      [UnresolvedRefs "data/items/c.json" ["aa"; "potion_missing"; "zz"]] /\
    exit_status r = 1%Z.
Proof.
  assert (H : exists r,
             analyze (world_of "/repo" [potion_user])
               "2026-01-01T00:00:00" "/repo"
               "/repo/data/schema" false false = Returned r)
    by (vm_compute; eexists; reflexivity).
  destruct H as [r H]. exists r. split; [exact H|].
  assert (Hnd : NoDup (map jf_rel (collect_json_files [potion_user])))
    by (repeat constructor; simpl; tauto).
  assert (Hin : In (hd (datafile_of "/repo" potion_user [])
                      (datafiles_of "/repo" [potion_user]))
                  (datafiles_of "/repo" (collect_json_files [potion_user])))
    by (left; reflexivity).
  pose proof (unresolved_references_one_line_per_file
                (world_of "/repo" [potion_user]) "2026-01-01T00:00:00" "/repo"
                "/repo/data/schema" false false [potion_user] r _
                eq_refl Hnd H Hin) as (Hf & _ & _ & Hs).
  split; [exact Hf|]. apply Hs. discriminate.
Defined.

(* ------------------------------------------------------------------ *)
(** ** Asset references *)





Lemma datafiles_of_In (root : string) (files : list JsonFile)
    (df : DataFile) :
  In df (datafiles_of root files) <->
  exists jf pairs,
    In jf files /\ classify root jf = Object pairs /\
    df = datafile_of root jf pairs.
Proof.
  unfold datafiles_of. rewrite in_flat_map. split.
  - intros (jf & Hjf & Hdf). destruct (classify root jf) as [| |pairs] eqn:E;
      try contradiction.
    destruct Hdf as [<-|[]]. eauto.
  - intros (jf & pairs & Hjf & E & ->). exists jf. rewrite E.
    split; [assumption|now left].
Qed.






(* ------------------------------------------------------------------ *)
(** ** Files that fail to load *)

Section Unloadable.
Variable root : string.







End Unloadable.






(* ------------------------------------------------------------------ *)
(** ** The empty identifier *)

Lemma NoDup_map_inj A B (f : A -> B) (l : list A) (x y : A) :
  NoDup (map f l) -> In x l -> In y l -> f x = f y -> x = y.
Proof.
  induction l as [|z l IH]; simpl; intros Hnd Hx Hy E; [contradiction|].
  inversion Hnd as [|? ? Hz Hnd']; subst.
  destruct Hx as [->|Hx], Hy as [->|Hy]; auto.
  - exfalso. apply Hz. rewrite E. now apply in_map.
  - exfalso. apply Hz. rewrite <- E. now apply in_map.
Qed.

Lemma run_errors_In (root schema_dir : string) (do_fix : bool) (w : World)
    (files : list JsonFile) (f : finding) :
  In f (run_errors root schema_dir do_fix w files) ->
  match origin_of f with
  | FromLoop => In f (flat_map (file_errors root do_fix w) files)
  | FromDuplicates =>
      In f (duplicate_errors (fst (build_index root files))
              (snd (build_index root files)))
  | FromReferences =>
      In f (unresolved_errors (datafiles_of root files)
              (fst (build_index root files)))
  | FromSchema =>
      In f (flat_map (fun df => errors (schema_findings w schema_dir df))
              (datafiles_of root files))
  | _ => False
  end.
Proof.
  unfold run_errors. rewrite !in_app_iff.
  pose proof (file_errors_origin root do_fix w files) as H1.
  pose proof (duplicate_errors_origin (fst (build_index root files))
                (snd (build_index root files))) as H2.
  pose proof (unresolved_errors_origin (datafiles_of root files)
                (fst (build_index root files))) as H3.
  assert (H4 : Forall (fun f => origin_of f = FromSchema)
                 (flat_map (fun df => errors (schema_findings w schema_dir df))
                    (datafiles_of root files))).
  { apply Forall_flat_map. intros df _. apply schema_findings_origin. }
  rewrite Forall_forall in H1, H2, H3, H4.
  intros [H|[H|[H|H]]].
  - now rewrite (H1 f H).
  - now rewrite (H2 f H).
  - now rewrite (H3 f H).
  - now rewrite (H4 f H).
Qed.

Lemma index_owner (dfs : list DataFile) (i : string) (owner : DataFile) :
  dict_get i (fst (fold_left index_add dfs ([], []))) = Some owner ->
  truthy i = true /\ In owner dfs /\ has_id i owner = true.
Proof.
  intros H. destruct (fold_index_add dfs) as [_ Hix].
  specialize (Hix i). unfold index_holds in Hix.
  destruct (truthy i); [|destruct Hix; congruence].
  destruct Hix as [Hix _]. rewrite H in Hix.
  destruct (filter (has_id i) dfs) as [|o os] eqn:E; [discriminate|].
  injection Hix as ->.
  assert (Hin : In o (filter (has_id i) dfs)) by (rewrite E; now left).
  apply filter_In in Hin. now repeat split.
Qed.

Lemma index_without_empty (dfs : list DataFile) :
  dict_get "" (fst (fold_left index_add dfs ([], []))) = None /\
  dict_get "" (snd (fold_left index_add dfs ([], []))) = None.
Proof.
  destruct (fold_index_add dfs) as [_ Hix]. exact (Hix "").
Qed.

Lemma file_errors_id (root : string) (do_fix : bool) (w : World)
    (files : list JsonFile) (rel : string) :
  In (IdNotString rel) (flat_map (file_errors root do_fix w) files) ->
  exists jf pairs,
    In jf files /\ jf_rel jf = rel /\ classify root jf = Object pairs /\
    string_field "id" pairs = None /\ dict_get "id" pairs <> None.
Proof.
  intros H. apply in_flat_map in H as (jf & Hjf & H).
  unfold file_errors in H. destruct (classify root jf) as [e|v|pairs] eqn:E.
  - destruct H as [H|[]]. discriminate.
  - contradiction.
  - exists jf, pairs. apply in_app_iff in H as [H|H].
    + unfold string_field.
      destruct (dict_get "id" pairs) as [[| | | | | |]|];
        try contradiction; destruct H as [[= <-]|[]];
        repeat split; auto; discriminate.
    + destruct do_fix; [|contradiction].
      destruct (fs_write_error w _); [|contradiction].
      destruct H as [H|[]]. discriminate.
Qed.

(** C10.  In every run that returns, over files of distinct paths, a
    record whose top-level [id] is the empty string is treated as one
    without an identifier: the index has no entry for the empty string and
    none owned by the record, no error says its [id] is not a string, no
    duplicate finding is about the empty string or names the record as
    first seen, and a reference to the empty string is reported as
    unresolved; yet the record's manifest entry has the empty string, not
    null, as its [id]. *)
Theorem empty_id_is_no_identifier (w : World)
    (utcnow root schema_dir : string) (do_fix fail_on_warning : bool)
    (listing : list JsonFile) (r : Run) (jf : JsonFile)
    (pairs : list (string * json)) :
  data_listing w = Some listing ->
  NoDup (map jf_rel (collect_json_files listing)) ->
  analyze w utcnow root schema_dir do_fix fail_on_warning = Returned r ->
  In jf (collect_json_files listing) ->
  classify root jf = Object pairs ->
  dict_get "id" pairs = Some (JStr "") ->
  let files := collect_json_files listing in
  let ix := fst (build_index root files) in
  dict_get "" ix = None /\
  (forall i owner, dict_get i ix = Some owner -> df_rel owner <> jf_rel jf) /\
  ~ In (IdNotString (jf_rel jf)) (errors (report r)) /\
  (forall n first, ~ In (DuplicateId "" n first) (errors (report r))) /\
  (forall i n, ~ In (DuplicateId i n (Some (jf_rel jf))) (errors (report r))) /\
  (forall d,
      In d (datafiles_of root files) -> In "" (df_deps d) ->
      exists missing,
        In "" missing /\
        In (UnresolvedRefs (df_rel d) missing) (errors (report r))) /\
  exists rest,
    In (JDict (("id", JStr "") :: ("type", JStr (guess_type_from_path (jf_rel jf)))
                 :: ("path", JStr (jf_rel jf)) :: rest))
      (manifest_data r).
Proof.
  intros Hl Hnd Hr Hjf Hc Hid files ix.
  apply analyze_inv in Hr as [[Hn _]|(listing' & Hl' & Hok & ->)];
    [congruence|].
  rewrite Hl in Hl'. injection Hl' as <-. fold files. fold files in Hok.
  cbn [report errors manifest].
  set (df := datafile_of root jf pairs).
  assert (Hdf : In df (datafiles_of root files))
    by (apply datafiles_of_In; eauto).
  assert (Hdfid : df_id df = Some "")
    by (unfold df, datafile_of, string_field; cbn [df_id]; now rewrite Hid).
  pose proof (datafiles_of_NoDup root files Hnd) as Hnd'.
  destruct (index_without_empty (datafiles_of root files)) as [He1 He2].
  change (dict_get "" ix = None) in He1.
  assert (Hown : forall i owner, dict_get i ix = Some owner ->
                                 df_rel owner <> jf_rel jf).
  { intros i owner Ho Hrel.
    apply index_owner in Ho as (Ti & Hin & Hhas).
    assert (owner = df)
      by (apply (NoDup_map_inj _ _ df_rel _ _ _ Hnd' Hin Hdf); exact Hrel).
    subst owner. unfold has_id in Hhas. rewrite Hdfid in Hhas.
    apply String.eqb_eq in Hhas. subst i. discriminate. }
  split; [exact He1|]. split; [exact Hown|].
  split; [|split; [|split; [|split]]].
  - intros Hin. apply run_errors_In in Hin. cbn [origin_of] in Hin.
    apply file_errors_id in Hin as (jf' & pairs' & Hjf' & Hrel & Hc' & Hs & _).
    assert (jf' = jf)
      by (apply (NoDup_map_inj _ _ jf_rel _ _ _ Hnd Hjf' Hjf); exact Hrel).
    subst jf'. rewrite Hc in Hc'. injection Hc' as <-.
    unfold string_field in Hs. rewrite Hid in Hs. discriminate.
  - intros n first Hin. apply run_errors_In in Hin. cbn [origin_of] in Hin.
    unfold duplicate_errors in Hin. apply in_map_iff in Hin as ([k c] & E & Hin).
    injection E as -> _ _. unfold build_index in Hin.
    apply (in_map fst) in Hin. cbn [fst] in Hin.
    apply dict_get_In in Hin. unfold build_index in He2. congruence.
  - intros i n Hin. apply run_errors_In in Hin. cbn [origin_of] in Hin.
    unfold duplicate_errors in Hin. apply in_map_iff in Hin as ([k c] & E & _).
    cbn [fst snd] in E. injection E as -> _ E.
    fold ix in E. destruct (dict_get i ix) as [owner|] eqn:Eo; [|discriminate].
    injection E as E. exact (Hown i owner Eo E).
  - intros d Hd Hdep.
    assert (Hm : In "" (missing_refs ix d)).
    { unfold missing_refs. apply filter_In. split; [assumption|].
      unfold dict_mem. now rewrite He1. }
    exists (sorted (set_of_list (missing_refs ix d))). split.
    + now rewrite sorted_In, set_of_list_In.
    + assert (Hf : In (UnresolvedRefs (df_rel d)
                         (sorted (set_of_list (missing_refs ix d))))
                     (filter (is_unresolved_of (df_rel d))
                        (run_errors root schema_dir do_fix w files))).
      { rewrite (filter_run_errors (is_unresolved_of (df_rel d))
                   FromReferences).
        2:{ intros f Hf. destruct f; try discriminate. reflexivity. }
        rewrite (filter_unresolved _ _ d Hnd' Hd). fold ix.
        destruct (missing_refs ix d); [contradiction|now left]. }
      apply filter_In in Hf. tauto.
  - unfold manifest_data. cbn [manifest build_manifest dict_get].
    cbn [String.eqb Ascii.eqb Bool.eqb].
    eexists. apply in_map_iff. exists df. split.
    + unfold manifest_data_entry. rewrite Hdfid. reflexivity.
    + eapply Permutation_in; [symmetry; apply sorted_by_perm|exact Hdf].
Qed.

Lemma empty_id_is_no_identifier_witness :
  exists r,
    analyze (world_of "/repo" [nameless]) "2026-01-01T00:00:00" "/repo"
      "/repo/data/schema" false false = Returned r /\
    errors (report r) = [UnresolvedRefs "data/items/e.json" [""]] /\
    ~ In (IdNotString "data/items/e.json") (errors (report r)) /\
    exists rest,
      In (JDict (("id", JStr "") :: ("type", JStr "items")
                   :: ("path", JStr "data/items/e.json") :: rest))
        (manifest_data r).
Proof.
  assert (H : exists r,
             analyze (world_of "/repo" [nameless]) "2026-01-01T00:00:00" "/repo"
               "/repo/data/schema" false false = Returned r /\
             errors (report r) = [UnresolvedRefs "data/items/e.json" [""]])
    by (vm_compute; eexists; split; reflexivity).
  destruct H as (r & H & He). exists r. split; [exact H|].
  split; [exact He|].
  assert (Hnd : NoDup (map jf_rel (collect_json_files [nameless])))
    by (repeat constructor; simpl; tauto).
  pose proof (empty_id_is_no_identifier
                (world_of "/repo" [nameless]) "2026-01-01T00:00:00" "/repo"
                "/repo/data/schema" false false [nameless] r nameless
                [("id", JStr ""); ("parent_id", JStr "")]
                eq_refl Hnd H (or_introl eq_refl) eq_refl eq_refl)
    as (_ & _ & Hno & _ & _ & _ & Hm).
  split; [exact Hno|exact Hm].
Defined.

(* ------------------------------------------------------------------ *)
(** ** The canonical rewrite *)

(** C8: [sort_keys] goes into the values of an object but not into the
    items of an array, so an object inside an array keeps the key order it
    was read with; the rewritten document is then not canonical. *)
Theorem sort_keys_skips_objects_in_arrays :
  (forall items, sort_keys (JList items) = JList items) /\
  sort_keys recipe_book = recipe_book /\
  canonical (sort_keys recipe_book) = false /\
  stable_json_dump recipe_book =
    ("{" ++ LF ++ "  " ++ quote "recipes" ++ ": [" ++ LF
       ++ "    {" ++ LF
       ++ "      " ++ quote "output" ++ ": " ++ quote "plank" ++ "," ++ LF
       ++ "      " ++ quote "id" ++ ": " ++ quote "saw" ++ "," ++ LF
       ++ "      " ++ quote "input" ++ ": " ++ quote "log" ++ LF
       ++ "    }" ++ LF ++ "  ]" ++ LF ++ "}" ++ LF)%string.
Proof. repeat split. Qed.

(* ------------------------------------------------------------------ *)
(** ** Orders and the uniqueness of sorting *)

Section ByComparison.
Variable A : Type.
Variable cmp : A -> A -> comparison.
Hypothesis cmp_eq : forall a b, cmp a b = Eq -> a = b.
Hypothesis cmp_antisym : forall a b, cmp b a = CompOpp (cmp a b).
Hypothesis cmp_trans :
  forall a b c, cmp a b = Lt -> cmp b c = Lt -> cmp a c = Lt.

Lemma leb_of_total (a b : A) :
  leb_of cmp a b = true \/ leb_of cmp b a = true.
Proof.
  unfold leb_of. rewrite (cmp_antisym a b). destruct (cmp a b); auto.
Qed.


Lemma leb_of_trans (a b c : A) :
  leb_of cmp a b = true -> leb_of cmp b c = true -> leb_of cmp a c = true.
Proof.
  unfold leb_of.
  destruct (cmp a b) eqn:E1; try discriminate;
    destruct (cmp b c) eqn:E2; try discriminate; intros _ _.
  - apply cmp_eq in E1. subst b. now rewrite E2.
  - apply cmp_eq in E1. subst b. now rewrite E2.
  - apply cmp_eq in E2. subst c. now rewrite E1.
  - now rewrite (cmp_trans _ _ _ E1 E2).
Qed.
End ByComparison.

Lemma string_compare_trans (a b c : string) :
  String.compare a b = Lt -> String.compare b c = Lt ->
  String.compare a c = Lt.
Proof.
  intros H1 H2. apply String_as_OT.cmp_lt.
  apply String_as_OT.cmp_lt in H1, H2.
  eapply String_as_OT.lt_trans; eauto.
Qed.

Lemma string_compare_antisym (a b : string) :
  String.compare b a = CompOpp (String.compare a b).
Proof. apply String.compare_antisym. Qed.


Lemma string_leb_trans (a b c : string) :
  String.leb a b = true -> String.leb b c = true -> String.leb a c = true.
Proof.
  apply (leb_of_trans _ String.compare String.compare_eq_iff
           string_compare_trans).
Qed.


Lemma list_compare_antisym (a b : list string) :
  list_compare b a = CompOpp (list_compare a b).
Proof.
  revert b. induction a as [|x a IH]; destruct b as [|y b]; simpl;
    try reflexivity.
  rewrite (string_compare_antisym x y).
  destruct (String.compare x y); simpl; auto.
Qed.



Lemma item_compare_antisym (a b : string * Z) :
  item_compare b a = CompOpp (item_compare a b).
Proof.
  unfold item_compare. rewrite (string_compare_antisym (fst a) (fst b)).
  destruct (String.compare (fst a) (fst b)); simpl; auto.
  apply Z.compare_antisym.
Qed.


Lemma item_leb_of (a b : string * Z) :
  item_leb a b = leb_of item_compare a b.
Proof.
  unfold item_leb, leb_of, item_compare.
  destruct (String.compare (fst a) (fst b)); reflexivity.
Qed.

Section SortingUnique.
Variable A : Type.
Variable leb : A -> A -> bool.
Hypothesis leb_total : forall a b, leb a b = true \/ leb b a = true.
Hypothesis leb_trans :
  forall a b c, leb a b = true -> leb b c = true -> leb a c = true.

Lemma sorted_unique (l1 l2 : list A) :
  StronglySorted (fun a b => leb a b = true) l1 ->
  StronglySorted (fun a b => leb a b = true) l2 ->
  Permutation l1 l2 ->
  (forall x y, In x l1 -> In y l1 ->
               leb x y = true -> leb y x = true -> x = y) ->
  l1 = l2.
Proof.
  intros H1. revert l2. induction H1 as [|x l1 Hs1 IH Hx]; intros l2 H2 Hp Ha.
  - now apply Permutation_nil in Hp.
  - destruct H2 as [|y l2 Hs2 Hy].
    + apply Permutation_sym, Permutation_nil in Hp. discriminate.
    + assert (x = y).
      { assert (Hxin : In x (y :: l2))
          by (eapply Permutation_in; [exact Hp|now left]).
        assert (Hyin : In y (x :: l1))
          by (eapply Permutation_in; [symmetry; exact Hp|now left]).
        destruct Hxin as [->|Hxin]; [reflexivity|].
        destruct Hyin as [->|Hyin]; [reflexivity|].
        rewrite Forall_forall in Hx, Hy.
        apply Ha; [now left|now right|now apply Hx|now apply Hy]. }
      subst y. f_equal. apply IH; [assumption| |].
      * eapply Permutation_cons_inv; exact Hp.
      * intros a b Ha' Hb'. apply Ha; now right.
Qed.

Lemma sorted_by_unique (l1 l2 : list A) :
  Permutation l1 l2 ->
  (forall x y, In x l1 -> In y l1 ->
               leb x y = true -> leb y x = true -> x = y) ->
  sorted_by leb l1 = sorted_by leb l2.
Proof.
  intros Hp Ha. apply sorted_unique.
  - apply Sorted_StronglySorted; [intros a b c; apply leb_trans|].
    now apply sorted_by_Sorted.
  - apply Sorted_StronglySorted; [intros a b c; apply leb_trans|].
    now apply sorted_by_Sorted.
  - rewrite (sorted_by_perm _ leb l1), (sorted_by_perm _ leb l2). exact Hp.
  - intros x y Hx Hy Hxy Hyx. apply Ha; try assumption;
      (eapply Permutation_in; [apply (sorted_by_perm _ leb l1)|assumption]).
Qed.
End SortingUnique.

(* ------------------------------------------------------------------ *)
(** ** Counters *)

Lemma counter_get (xs : list string) :
  forall (c : dict Z) (k : string),
    dict_get k (fold_left (fun c x => counter_incr x c) xs c) =
    match dict_get k c with
    | Some m => Some (m + Z.of_nat (count_occ string_dec xs k))%Z
    | None =>
        match count_occ string_dec xs k with
        | O => None
        | S n => Some (Z.of_nat (S n))
        end
    end.
Proof.
  induction xs as [|x xs IH]; intros c k.
  - simpl. destruct (dict_get k c); [f_equal; lia|reflexivity].
  - cbn [fold_left count_occ]. rewrite IH. unfold counter_incr.
    rewrite dict_get_set.
    destruct (string_dec x k) as [->|Hne].
    + rewrite String.eqb_refl.
      destruct (dict_get k c) as [m|].
      * f_equal. lia.
      * destruct (count_occ string_dec xs k); f_equal; lia.
    + replace (String.eqb k x) with false
        by (symmetry; apply String.eqb_neq; congruence).
      reflexivity.
Qed.

Lemma counter_NoDup (xs : list string) :
  forall c : dict Z,
    NoDup (map fst c) ->
    NoDup (map fst (fold_left (fun c x => counter_incr x c) xs c)).
Proof.
  induction xs as [|x xs IH]; intros c Hc; simpl; [assumption|].
  apply IH. unfold counter_incr. now apply dict_set_NoDup.
Qed.

Lemma dict_get_In_pair V (k : string) (v : V) (d : dict V) :
  NoDup (map fst d) -> (In (k, v) d <-> dict_get k d = Some v).
Proof.
  induction d as [|[k' v'] r IH]; simpl; intros Hnd.
  - split; [contradiction|discriminate].
  - inversion Hnd as [|? ? Hk Hr]; subst.
    destruct (String.eqb k k') eqn:E.
    + apply String.eqb_eq in E. subst k'. split.
      * intros [[= ->]|Hin]; [reflexivity|].
        exfalso. apply Hk. apply in_map_iff. now exists (k, v).
      * intros [= ->]. now left.
    + apply String.eqb_neq in E. rewrite <- (IH Hr). split.
      * intros [[= -> ->]|Hin]; [congruence|assumption].
      * now right.
Qed.



(* ------------------------------------------------------------------ *)
(** ** The manifest does not depend on the order of discovery *)












(* ------------------------------------------------------------------ *)
(** ** The canonical rewrite is idempotent *)

Lemma dict_get_map (f : json -> json) (k : string)
    (d : list (string * json)) :
  dict_get k (map (fun kv : string * json => (fst kv, f (snd kv))) d) =
  option_map f (dict_get k d).
Proof.
  induction d as [|[k' v] r IH]; simpl; [reflexivity|].
  now destruct (String.eqb k k').
Qed.

Lemma sort_keys_dict (pairs : list (string * json)) :
  sort_keys (JDict pairs) =
  JDict (pick (fun k => option_map sort_keys (dict_get k pairs))
           (hoist_id (map fst pairs))).
Proof.
  cbn [sort_keys]. unfold pick, hoist_id. f_equal.
  apply flat_map_ext. intros k. now rewrite dict_get_map.
Qed.

Lemma pick_ext (g g' : string -> option json) (keys : list string) :
  (forall k, In k keys -> g k = g' k) -> pick g keys = pick g' keys.
Proof.
  unfold pick. induction keys as [|k keys IH]; intros H; simpl;
    [reflexivity|].
  rewrite (H k (or_introl eq_refl)), IH; [reflexivity|].
  intros k' Hk'. apply H. now right.
Qed.

Lemma pick_keys (g : string -> option json) (keys : list string) :
  (forall k, In k keys -> g k <> None) -> map fst (pick g keys) = keys.
Proof.
  unfold pick. induction keys as [|k keys IH]; intros H; simpl;
    [reflexivity|].
  destruct (g k) eqn:E; [|now elim (H k (or_introl eq_refl))].
  simpl. rewrite IH; [reflexivity|]. intros k' Hk'. apply H. now right.
Qed.

Lemma dict_get_pick (g : string -> option json) (keys : list string)
    (k : string) :
  In k keys -> dict_get k (pick g keys) = g k.
Proof.
  unfold pick. induction keys as [|k' keys IH]; intros Hin; [contradiction|].
  simpl. destruct (String.eqb k k') eqn:E.
  - apply String.eqb_eq in E. subst k'.
    destruct (g k) eqn:Eg; simpl.
    + now rewrite String.eqb_refl.
    + clear IH Hin. induction keys as [|k2 keys IH2]; simpl; [reflexivity|].
      destruct (g k2) eqn:E2; simpl; [|exact IH2].
      destruct (String.eqb k k2) eqn:E3; [|exact IH2].
      apply String.eqb_eq in E3. congruence.
  - apply String.eqb_neq in E. destruct Hin as [->|Hin]; [congruence|].
    destruct (g k'); simpl; [|now apply IH].
    replace (String.eqb k k') with false
      by (symmetry; now apply String.eqb_neq).
    now apply IH.
Qed.

Lemma list_remove_perm (x : string) (l : list string) :
  In x l -> Permutation (x :: list_remove x l) l.
Proof.
  induction l as [|y l IH]; intros Hin; [contradiction|]. simpl.
  destruct (String.eqb x y) eqn:E.
  - apply String.eqb_eq in E. now subst y.
  - apply String.eqb_neq in E. destruct Hin as [->|Hin]; [congruence|].
    rewrite perm_swap. constructor. now apply IH.
Qed.

Lemma hoist_id_perm (keys : list string) : Permutation (hoist_id keys) keys.
Proof.
  unfold hoist_id. destruct (mem "id" keys) eqn:E.
  - apply mem_In in E. rewrite list_remove_perm by now apply sorted_In.
    apply sorted_by_perm.
  - apply sorted_by_perm.
Qed.

Lemma sorted_perm (a b : list string) :
  Permutation a b -> sorted a = sorted b.
Proof.
  intros Hp. unfold sorted.
  apply (sorted_by_unique _ String.leb String.leb_total string_leb_trans);
    [assumption|].
  intros x y _ _. apply String.leb_antisym.
Qed.

Lemma hoist_id_idempotent (keys : list string) :
  hoist_id (hoist_id keys) = hoist_id keys.
Proof.
  pose proof (hoist_id_perm keys) as Hp.
  unfold hoist_id at 1. rewrite (sorted_perm _ _ Hp).
  replace (mem "id" (hoist_id keys)) with (mem "id" keys); [reflexivity|].
  apply eq_true_iff_eq. rewrite !mem_In. split; apply Permutation_in;
    [symmetry|]; assumption.
Qed.

Lemma scopes_dict (pairs : list (string * json)) :
  Forall (@NoDup string) (scopes (JDict pairs)) ->
  NoDup (map fst pairs) /\
  forall kv, In kv pairs -> Forall (@NoDup string) (scopes (snd kv)).
Proof.
  cbn [scopes]. intros H. apply Forall_app in H as [H1 H2].
  split; [now inversion H2|].
  intros kv Hkv. rewrite Forall_forall in *. intros sc Hsc.
  apply H1. apply in_flat_map. eauto.
Qed.

(** Sorting the keys of what [sort_keys] returned changes nothing, so a
    second rewrite writes the bytes of the first. *)
Lemma sort_keys_idempotent (v : json) :
  Forall (@NoDup string) (scopes v) ->
  sort_keys (sort_keys v) = sort_keys v.
Proof.
  induction v as [| | | | |l IH|d IH] using json_induction;
    try reflexivity.
  intros Hwf. apply scopes_dict in Hwf as [Hnd Hsub].
  rewrite sort_keys_dict.
  set (g := fun k => option_map sort_keys (dict_get k d)).
  set (K := hoist_id (map fst d)).
  assert (HK : forall k, In k K -> In k (map fst d))
    by (intros k; apply Permutation_in, hoist_id_perm).
  assert (Hdef : forall k, In k K -> g k <> None).
  { intros k Hk. unfold g. apply HK, dict_get_In in Hk.
    now destruct (dict_get k d). }
  rewrite sort_keys_dict, (pick_keys g K Hdef).
  unfold K at 2. rewrite hoist_id_idempotent. fold K.
  f_equal. apply pick_ext. intros k Hk.
  rewrite (dict_get_pick g K k Hk). unfold g.
  destruct (dict_get k d) as [v|] eqn:E; [|reflexivity].
  cbn [option_map]. f_equal.
  assert (Hin : In (k, v) d) by (apply dict_get_In_pair; assumption).
  rewrite Forall_forall in IH. apply (IH (k, v) Hin). exact (Hsub _ Hin).
Qed.

Lemma stable_json_dump_idempotent (path : string) (raw v : json) :
  load_json_strict path (Decoded raw) = inr v ->
  load_json_strict path (Decoded (sort_keys v)) = inr (sort_keys v) /\
  stable_json_dump (sort_keys v) = stable_json_dump v.
Proof.
  intros H. simpl in H.
  destruct (decode_with_hook_spec path raw) as [Hok _].
  destruct (Hok v H) as [-> Hwf].
  split; [|unfold stable_json_dump; now rewrite sort_keys_idempotent].
  simpl.
  destruct (decode_with_hook path (sort_keys raw)) as [e|v'] eqn:E.
  - exfalso.
    destruct (decode_with_hook_spec path (sort_keys raw)) as [_ Hbad].
    destruct (Hbad e E) as (sc & keys & _ & Hsc & Hne & Hk).
    revert sc Hsc keys Hne Hk. clear -Hwf.
    induction raw as [| | | | |l IH|d IH] using json_induction;
      try (intros sc []; fail).
    + intros sc Hsc keys Hne Hk. cbn [sort_keys] in Hsc.
      rewrite Forall_forall in Hwf.
      pose proof (Hwf sc Hsc) as Hnd. destruct keys as [|k ks]; [congruence|].
      pose proof (proj1 (Hk k) (or_introl eq_refl)).
      pose proof (proj1 (NoDup_count_occ string_dec sc) Hnd k). lia.
    + intros sc Hsc keys Hne Hk.
      apply scopes_dict in Hwf as [Hnd Hsub].
      rewrite sort_keys_dict in Hsc. cbn [scopes] in Hsc.
      set (g := fun k => option_map sort_keys (dict_get k d)) in *.
      assert (Hdef : forall k, In k (hoist_id (map fst d)) -> g k <> None).
      { intros k Hk'. unfold g.
        apply (Permutation_in _ (hoist_id_perm (map fst d))) in Hk'.
        apply dict_get_In in Hk'. now destruct (dict_get k d). }
      apply in_app_iff in Hsc as [Hsc|[<-|[]]].
      * apply in_flat_map in Hsc as ([k v] & Hkv & Hsc). cbn [snd] in Hsc.
        unfold pick in Hkv. apply in_flat_map in Hkv as (k' & Hk' & Hkv).
        unfold g in Hkv. destruct (dict_get k' d) as [v0|] eqn:E0;
          [|contradiction].
        destruct Hkv as [[= <- <-]|[]].
        assert (Hin : In (k', v0) d) by (apply dict_get_In_pair; assumption).
        rewrite Forall_forall in IH.
        exact (IH (k', v0) Hin (Hsub _ Hin) sc Hsc keys Hne Hk).
      * rewrite (pick_keys g _ Hdef) in Hk.
        assert (Hnd' : NoDup (hoist_id (map fst d)))
          by (eapply Permutation_NoDup;
              [symmetry; apply hoist_id_perm|exact Hnd]).
        destruct keys as [|k ks]; [congruence|].
        pose proof (proj1 (Hk k) (or_introl eq_refl)).
        pose proof (proj1 (NoDup_count_occ string_dec _) Hnd' k). lia.
  - destruct (decode_with_hook_spec path (sort_keys raw)) as [Hok' _].
    now destruct (Hok' v' E) as [-> _].
Qed.

(* ------------------------------------------------------------------ *)
(** * Further properties of the code *)

(** ** The loader in closed form *)

Lemma scan_pairs_exact (pairs : list (string * json)) :
  forall (seen : dict json) (dups : list string),
    snd (scan_pairs pairs seen dups) =
    dups ++ repeats_after (map fst seen) (map fst pairs).
Proof.
  induction pairs as [|[k v] rest IH]; intros seen dups; simpl.
  - now rewrite app_nil_r.
  - rewrite IH, dict_set_keys.
    replace (mem k (map fst seen)) with (dict_mem k seen)
      by (apply eq_true_iff_eq; now rewrite mem_In, dict_mem_In).
    destruct (dict_mem k seen); [now rewrite <- app_assoc|reflexivity].
Qed.

Lemma object_pairs_no_duplicates_exact (pairs : list (string * json))
    (file : string) :
  object_pairs_no_duplicates pairs file =
  match repeats (map fst pairs) with
  | [] => inr pairs
  | ks => inl (DuplicateKeyError file ks)
  end.
Proof.
  unfold object_pairs_no_duplicates, repeats.
  pose proof (scan_pairs_exact pairs [] []) as Hd.
  pose proof (scan_pairs_seen pairs [] []) as (extra & H1 & H2).
  destruct (scan_pairs pairs [] []) as [seen dups]. simpl in *.
  rewrite <- Hd. destruct dups; [|reflexivity].
  subst extra. now rewrite H2.
Qed.

Lemma find_app A (p : A -> bool) (a b : list A) :
  find p (a ++ b) =
  match find p a with
  | Some x => Some x
  | None => find p b
  end.
Proof.
  induction a as [|x a IH]; simpl; [reflexivity|]. now destruct (p x).
Qed.

Lemma decode_with_hook_exact (file : string) (raw : json) :
  decode_with_hook file raw =
  match find has_repeat (scopes raw) with
  | Some sc => inl (DuplicateKeyError file (repeats sc))
  | None => inr raw
  end.
Proof.
  induction raw as [| | | | |l IH|d IH] using json_induction;
    try reflexivity.
  - cbn [decode_with_hook scopes].
    assert (H : mapM (decode_with_hook file) l =
                match find has_repeat (flat_map scopes l) with
                | Some sc => inl (DuplicateKeyError file (repeats sc))
                | None => inr l
                end).
    { induction IH as [|x r Hx _ IHr]; [reflexivity|].
      cbn [mapM flat_map]. change (mapM (decode_with_hook file) r)
        with (mapM (decode_with_hook file) r) in IHr.
      rewrite find_app, Hx.
      destruct (find has_repeat (scopes x)); [reflexivity|].
      fold (mapM (decode_with_hook file)). rewrite IHr.
      now destruct (find has_repeat (flat_map scopes r)). }
    rewrite H. now destruct (find has_repeat (flat_map scopes l)).
  - cbn [decode_with_hook scopes].
    set (g := fun kv : string * json =>
                match decode_with_hook file (snd kv) with
                | inl e => inl e
                | inr v => inr (fst kv, v)
                end).
    assert (H : mapM g d =
                match find has_repeat
                        (flat_map (fun kv : string * json => scopes (snd kv)) d)
                with
                | Some sc => inl (DuplicateKeyError file (repeats sc))
                | None => inr d
                end).
    { induction IH as [|x r Hx _ IHr]; [reflexivity|].
      cbn [mapM flat_map]. rewrite find_app. unfold g at 1. rewrite Hx.
      destruct (find has_repeat (scopes (snd x))); [reflexivity|].
      fold (mapM g). rewrite IHr.
      destruct (find has_repeat (flat_map _ r)); [reflexivity|].
      now destruct x. }
    rewrite H, find_app.
    destruct (find has_repeat (flat_map _ d)); [reflexivity|].
    rewrite object_pairs_no_duplicates_exact. cbn [find].
    unfold has_repeat.
    destruct (repeats (map fst d)) eqn:E; cbn iota; rewrite ?E; reflexivity.
Qed.

(** X1.  The loader in closed form: on a well-formed document it raises
    for the first object, in closing order, that repeats a key, with every
    later occurrence of a key of that object in document order, and says
    nothing of the objects that close after it; with no such object it
    returns the document as it stands. *)
Theorem load_json_strict_first_offender (path : string) (raw : json) :
  load_json_strict path (Decoded raw) =
  match find has_repeat (scopes raw) with
  | Some sc => inl (DuplicateKeyError path (repeats sc))
  | None => inr raw
  end /\
  (forall v, load_json_strict path (Decoded raw) = inr v ->
             Forall (fun sc => repeats sc = []) (scopes raw)).
Proof.
  split; [apply decode_with_hook_exact|].
  intros v H. cbn [load_json_strict] in H.
  rewrite decode_with_hook_exact in H.
  destruct (find has_repeat (scopes raw)) as [sc|] eqn:E; [discriminate|].
  apply Forall_forall. intros sc Hsc.
  pose proof (find_none _ _ E sc Hsc) as Hn. unfold has_repeat in Hn.
  now destruct (repeats sc).
Qed.

Example load_json_strict_first_offender_ex :
  load_json_strict "f.json" (Decoded twice_broken) =
  inl (DuplicateKeyError "f.json" ["y"; "z"; "y"]).
Proof. reflexivity. Qed.

(** X2.  The text of a duplicate-key error lists each repeated key once,
    in increasing order, and does not name the file: the file name is kept
    in the exception only. *)
Theorem duplicate_key_message (file file' : string) (keys : list string) :
  str_of_load_error (DuplicateKeyError file keys) =
  str_of_load_error (DuplicateKeyError file' keys) /\
  exists listed,
    str_of_load_error (DuplicateKeyError file keys) =
    ("Duplicate key(s) in JSON object: " ++ join ", " listed)%string /\
    increasing listed /\
    forall k, In k listed <-> In k keys.
Proof.
  split; [reflexivity|]. exists (sorted (set_of_list keys)).
  split; [reflexivity|]. split; [apply sorted_set_increasing|].
  intros k. now rewrite sorted_In, set_of_list_In.
Qed.

(* ------------------------------------------------------------------ *)
(** ** Traversal and reference detection *)

Lemma in_flat_map_values (l : list json) (x : json) :
  In x (flat_map iter_json_values l) <->
  exists v, In v l /\ In x (iter_json_values v).
Proof. apply in_flat_map. Qed.

(** X3.  [iter_json_values] yields scalars only, a scalar yields itself,
    and every scalar that [iter_json_pairs] gives under a key is among the
    values, at whatever depth of objects and arrays it lies. *)
Theorem iter_json_values_leaves (obj : json) :
  Forall (fun x => is_scalar x = true) (iter_json_values obj) /\
  (is_scalar obj = true -> iter_json_values obj = [obj]) /\
  (forall k v, In (k, v) (iter_json_pairs obj) -> is_scalar v = true ->
               In v (iter_json_values obj)).
Proof.
  split; [|split].
  - induction obj as [| | | | |l IH|d IH] using json_induction;
      try (repeat constructor; fail).
    + cbn [iter_json_values]. apply Forall_flat_map.
      intros x Hx. rewrite Forall_forall in IH. now apply IH.
    + cbn [iter_json_values]. apply Forall_flat_map.
      intros x Hx. rewrite Forall_forall in IH. now apply IH.
  - destruct obj; try reflexivity; discriminate.
  - induction obj as [| | | | |l IH|d IH] using json_induction;
      try (intros k v []; fail); intros k v Hin Hs.
    + cbn [iter_json_pairs iter_json_values] in *.
      apply in_flat_map in Hin as (x & Hx & Hin). apply in_flat_map.
      exists x. split; [assumption|]. rewrite Forall_forall in IH. eauto.
    + cbn [iter_json_pairs iter_json_values] in *.
      apply in_flat_map in Hin as (x & Hx & Hin). apply in_flat_map.
      exists x. split; [assumption|]. destruct Hin as [E|Hin].
      * injection E as _ E. rewrite E.
        destruct v; try discriminate; now left.
      * rewrite Forall_forall in IH. eauto.
Qed.

Lemma strings_of_In (l : list json) (s : string) :
  In s (strings_of l) <-> In (JStr s) l.
Proof.
  unfold strings_of. rewrite in_flat_map. split.
  - intros (x & Hx & Hs). destruct x; try contradiction.
    destruct Hs as [->|[]]. assumption.
  - intros H. exists (JStr s). split; [assumption|now left].
Qed.

Lemma fold_set_In A (h : A -> list string) (l : list A) :
  forall (acc : list string) (s : string),
    In s (fold_left (fun acc x => set_update (h x) acc) l acc) <->
    In s acc \/ exists x, In x l /\ In s (h x).
Proof.
  induction l as [|x l IH]; intros acc s; simpl.
  - split; [auto|]. intros [H|(x & [] & _)]. assumption.
  - rewrite IH, set_update_In. split.
    + intros [[H|H]|(y & Hy & H)]; eauto.
    + intros [H|(y & [<-|Hy] & H)]; eauto.
Qed.

Lemma fold_set_NoDup A (h : A -> list string) (l : list A) :
  forall acc : list string,
    NoDup acc ->
    NoDup (fold_left (fun acc x => set_update (h x) acc) l acc).
Proof.
  induction l as [|x l IH]; intros acc H; simpl; [assumption|].
  apply IH. now apply set_update_NoDup.
Qed.

(** X4.  [extract_deps] returns, without repeats, exactly the strings that
    stand under a key ending in [_id], and the strings that are items of an
    array under a key ending in [_ids], at any depth; other values under
    such keys, and the items of the array that are not strings, are passed
    over. *)
Theorem extract_deps_exact (content : json) :
  NoDup (extract_deps content) /\
  forall s,
    In s (extract_deps content) <->
    exists k v,
      In (k, v) (iter_json_pairs content) /\
      ((v = JStr s /\ endswith k "_id" = true) \/
       (exists items, v = JList items /\ endswith k "_ids" = true /\
                      In (JStr s) items)).
Proof.
  set (h := fun kv : string * json =>
              match snd kv with
              | JStr v => if endswith (fst kv) "_id" then [v] else []
              | JList v =>
                  if endswith (fst kv) "_ids" then strings_of v else []
              | _ => []
              end).
  assert (E : extract_deps content =
              fold_left (fun acc x => set_update (h x) acc)
                (iter_json_pairs content) []).
  { unfold extract_deps. generalize (@nil string).
    induction (iter_json_pairs content) as [|[k v] l IH]; intros acc;
      [reflexivity|].
    cbn [fold_left]. rewrite IH. f_equal. unfold h. cbn [fst snd].
    destruct v; try reflexivity;
      match goal with |- context [endswith ?a ?b] => destruct (endswith a b) end;
      reflexivity. }
  rewrite E. split; [apply fold_set_NoDup; constructor|].
  intros s. rewrite fold_set_In. split.
  - intros [[]|([k v] & Hin & Hs)]. exists k, v. split; [assumption|].
    unfold h in Hs. cbn [fst snd] in Hs. destruct v; try contradiction.
    + destruct (endswith k "_id") eqn:Ek; [|contradiction].
      destruct Hs as [->|[]]. now left.
    + destruct (endswith k "_ids") eqn:Ek; [|contradiction].
      right. exists items. apply strings_of_In in Hs. auto.
  - intros (k & v & Hin & [[-> Ek]|(items & -> & Ek & Hs)]); right.
    + exists (k, JStr s). split; [exact Hin|]. unfold h. cbn [fst snd].
      rewrite Ek. now left.
    + exists (k, JList items). split; [exact Hin|]. unfold h. cbn [fst snd].
      rewrite Ek. now apply strings_of_In.
Qed.

Example extract_deps_ex :
  extract_deps crafting_table = ["furniture"; "saw"; "plank"; "nail"].
Proof. reflexivity. Qed.

(** X5.  [extract_asset_refs] returns, without repeats, exactly the string
    values of the document, at any depth, whose lower-cased text ends with
    one of the media extensions; keys are never taken for asset paths. *)
Theorem extract_asset_refs_exact (content : json) :
  NoDup (extract_asset_refs content) /\
  forall s,
    In s (extract_asset_refs content) <->
    In (JStr s) (iter_json_values content) /\
    exists ext, In ext ASSET_EXTS /\ endswith (lower s) ext = true.
Proof.
  set (h := fun v : json =>
              match v with
              | JStr s => if is_asset_string s then [s] else []
              | _ => []
              end).
  assert (E : extract_asset_refs content =
              fold_left (fun acc x => set_update (h x) acc)
                (iter_json_values content) []).
  { unfold extract_asset_refs. generalize (@nil string).
    induction (iter_json_values content) as [|v l IH]; intros acc;
      [reflexivity|].
    cbn [fold_left]. rewrite IH. f_equal. unfold h.
    destruct v; try reflexivity. now destruct (is_asset_string s). }
  rewrite E. split; [apply fold_set_NoDup; constructor|].
  intros s. rewrite fold_set_In.
  assert (Ha : is_asset_string s = true <->
               exists ext, In ext ASSET_EXTS /\ endswith (lower s) ext = true)
    by (unfold is_asset_string; apply existsb_exists).
  rewrite <- Ha. split.
  - intros [[]|(v & Hin & Hs)]. unfold h in Hs. destruct v; try contradiction.
    destruct (is_asset_string s0) eqn:Es; [|contradiction].
    destruct Hs as [->|[]]. auto.
  - intros [Hin Hs]. right. exists (JStr s). split; [assumption|].
    unfold h. rewrite Hs. now left.
Qed.

Example extract_asset_refs_ex :
  extract_asset_refs crafting_table = ["Textures/Table.PNG"; "audio/saw.ogg"].
Proof. reflexivity. Qed.

(* ------------------------------------------------------------------ *)
(** ** The type of a record *)

Lemma split_slash_component (x : string) :
  no_slash x = true -> split_slash x = [x].
Proof.
  induction x as [|c x IH]; simpl; intros H; [reflexivity|].
  apply andb_true_iff in H as [Hc Hx]. apply negb_true_iff in Hc.
  rewrite Hc, (IH Hx). reflexivity.
Qed.

Lemma split_slash_cons (x rest : string) :
  no_slash x = true ->
  split_slash (x ++ "/" ++ rest) = x :: split_slash rest.
Proof.
  induction x as [|c x IH]; simpl; intros H; [reflexivity|].
  apply andb_true_iff in H as [Hc Hx]. apply negb_true_iff in Hc.
  rewrite Hc. simpl in IH. rewrite (IH Hx). reflexivity.
Qed.

Lemma split_slash_join (cs : list string) :
  cs <> [] -> Forall (fun c => no_slash c = true) cs ->
  split_slash (join "/" cs) = cs.
Proof.
  induction cs as [|c cs IH]; intros Hne H; [congruence|].
  inversion H as [|? ? Hc Hcs]; subst. destruct cs as [|c' cs'].
  - simpl. now apply split_slash_component.
  - change (join "/" (c :: c' :: cs'))
      with (c ++ "/" ++ join "/" (c' :: cs'))%string.
    rewrite (split_slash_cons _ _ Hc), IH; [reflexivity|discriminate|assumption].
Qed.

Lemma path_parts_join (cs : list string) :
  Forall (fun c => is_component c = true) cs ->
  path_parts (join "/" cs) = cs.
Proof.
  intros H. destruct cs as [|c cs]; [reflexivity|].
  assert (Hns : Forall (fun c => no_slash c = true) (c :: cs)).
  { eapply Forall_impl; [|exact H]. intros a Ha. unfold is_component in Ha.
    now apply andb_true_iff in Ha as [Ha _]; apply andb_true_iff in Ha as [Ha _]. }
  unfold path_parts. rewrite (split_slash_join (c :: cs)) by (discriminate || assumption).
  assert (Hrel : startswith (join "/" (c :: cs)) "/" = false).
  { inversion H as [|? ? Hc _]; subst. unfold is_component in Hc.
    apply andb_true_iff in Hc as [Hc _]. apply andb_true_iff in Hc as [Hc Hne].
    destruct c as [|a c]; [discriminate|]. cbn [no_slash] in Hc.
    apply andb_true_iff in Hc as [Ha _]. apply negb_true_iff in Ha.
    apply Ascii.eqb_neq in Ha.
    assert (Hp : forall rest, prefix "/" (String a rest) = false).
    { intros rest. cbn [prefix].
      destruct (ascii_dec "/" a) as [E|E]; [congruence|reflexivity]. }
    unfold startswith. destruct cs; [apply Hp|].
    change (join "/" (String a c :: s :: cs))
      with (String a (c ++ "/" ++ join "/" (s :: cs)))%string.
    apply Hp. }
  rewrite Hrel. cbn [app]. apply filter_all.
  eapply Forall_impl; [|exact H]. intros a Ha. unfold is_component in Ha.
  apply andb_true_iff in Ha as [Ha H2]. apply andb_true_iff in Ha as [_ H1].
  apply negb_true_iff in H1, H2. now rewrite H1, H2.
Qed.

Lemma index_of_after_first (x d : string) (l : list string) :
  match index_of x l with
  | Some idx => if (idx + 1 <? length l)%nat then nth (idx + 1) l "" else d
  | None => d
  end = hd d (after_first x l).
Proof.
  induction l as [|y l IH]; [reflexivity|]. cbn [index_of after_first].
  destruct (String.eqb x y).
  - destruct l; reflexivity.
  - rewrite <- IH. destruct (index_of x l) as [i|]; [|reflexivity].
    cbn [length]. replace (S i + 1 <? S (length l))%nat
      with (i + 1 <? length l)%nat
      by (apply eq_true_iff_eq; rewrite !Nat.ltb_lt; lia).
    replace (S i + 1)%nat with (S (i + 1)) by lia. reflexivity.
Qed.

(** X6.  The type of a record is the path component that follows the
    first component named [data]; it is [data] itself when no component is
    named so or when that component is the last.  A file that lies directly
    in the data directory so gets its own file name as type. *)
Theorem guess_type_from_path_exact (cs : list string) :
  Forall (fun c => is_component c = true) cs ->
  guess_type_from_path (join "/" cs) = hd "data" (after_first "data" cs).
Proof.
  intros H. unfold guess_type_from_path. rewrite (path_parts_join cs H).
  apply index_of_after_first.
Qed.

Lemma guess_type_from_path_exact_witness :
  guess_type_from_path "data/items/weapon.json" = "items" /\
  guess_type_from_path "data/weapon.json" = "weapon.json" /\
  guess_type_from_path "mods/core/data" = "data".
Proof.
  split; [|split].
  - apply (guess_type_from_path_exact ["data"; "items"; "weapon.json"]).
    repeat constructor.
  - apply (guess_type_from_path_exact ["data"; "weapon.json"]).
    repeat constructor.
  - apply (guess_type_from_path_exact ["mods"; "core"; "data"]).
    repeat constructor.
Defined.

(* ------------------------------------------------------------------ *)
(** ** The schema pass *)

(** X7.  [try_schema_validate] appends at most one line to the report and
    changes nothing else of it.  A record without a schema, or with an empty
    one, adds nothing; where the validator is not installed the only line
    is a warning, so a schema then never makes an error. *)
Theorem try_schema_validate_one_line (w : World) (schema_dir : string)
    (r : Report) (df : DataFile) :
  (exists es ws,
      errors (try_schema_validate w schema_dir r df) = errors r ++ es /\
      warnings (try_schema_validate w schema_dir r df) = warnings r ++ ws /\
      (length es + length ws <= 1)%nat /\
      Forall (fun f => origin_of f = FromSchema) (es ++ ws)) /\
  (match df_schema df with
   | Some s => truthy s = false
   | None => True
   end -> try_schema_validate w schema_dir r df = r) /\
  (jsonschema w = None ->
   errors (try_schema_validate w schema_dir r df) = errors r /\
   forall s, df_schema df = Some s -> truthy s = true ->
             warnings (try_schema_validate w schema_dir r df) =
             warnings r ++ [NoValidator (df_rel df)]).
Proof.
  split; [|split].
  - rewrite try_schema_validate_adds. cbn [errors warnings].
    exists (errors (schema_findings w schema_dir df)),
           (warnings (schema_findings w schema_dir df)).
    split; [reflexivity|]. split; [reflexivity|].
    unfold schema_findings, try_schema_validate.
    destruct (df_schema df) as [s|]; [|cbn; split; [lia|constructor]].
    destruct (truthy s); [|cbn; split; [lia|constructor]].
    destruct (jsonschema w) as [validate|];
      [|cbn; split; [lia|repeat constructor]].
    cbn [negb].
    destruct (fs_is_file w s);
      [|destruct (fs_is_file w _);
        [|destruct (fs_is_file w _);
          [|cbn; split; [lia|repeat constructor]]]];
      (destruct (load_json_strict _ _) as [e|sch];
       [cbn; split; [lia|repeat constructor]|];
       destruct (validate _ sch);
       cbn; split; try lia; repeat constructor).
  - unfold try_schema_validate.
    destruct (df_schema df) as [s|]; [|reflexivity].
    intros ->. reflexivity.
  - intros Hv. unfold try_schema_validate. rewrite Hv.
    split.
    + destruct (df_schema df) as [s|]; [|reflexivity].
      destruct (truthy s); reflexivity.
    + intros s -> ->. reflexivity.
Qed.

(** X8.  With the validator installed, the schema of a record is taken
    from the first of three places that holds a regular file: the name as
    given, the name beside the data file, the name in the schema directory.
    None of them gives one warning.  The schema is read by the strict
    loader, so a schema that repeats a key in an object is an error of the
    record and the validator is not asked. *)
Theorem schema_search_order (w : World) (schema_dir : string) (r : Report)
    (df : DataFile) (schema : string)
    (validate : json -> json -> option string) :
  jsonschema w = Some validate ->
  df_schema df = Some schema ->
  truthy schema = true ->
  try_schema_validate w schema_dir r df =
    match find (fs_is_file w) (schema_candidates schema_dir df schema) with
    | None => warn r (SchemaNotFound (df_rel df) schema schema_dir)
    | Some sp =>
        match load_json_strict sp (fs_decode w sp) with
        | inl e => error r (SchemaLoadFailed (df_rel df) sp e)
        | inr sch =>
            match validate (df_content df) sch with
            | Some msg => error r (SchemaInvalid (df_rel df) msg)
            | None => r
            end
        end
    end /\
  forall sp raw sc,
    find (fs_is_file w) (schema_candidates schema_dir df schema) = Some sp ->
    fs_decode w sp = Decoded raw ->
    find has_repeat (scopes raw) = Some sc ->
    try_schema_validate w schema_dir r df =
    error r (SchemaLoadFailed (df_rel df) sp
               (DuplicateKeyError sp (repeats sc))).
Proof.
  intros Hv Hs Ht.
  assert (E : try_schema_validate w schema_dir r df =
              match find (fs_is_file w)
                      (schema_candidates schema_dir df schema) with
              | None => warn r (SchemaNotFound (df_rel df) schema schema_dir)
              | Some sp =>
                  match load_json_strict sp (fs_decode w sp) with
                  | inl e => error r (SchemaLoadFailed (df_rel df) sp e)
                  | inr sch =>
                      match validate (df_content df) sch with
                      | Some msg => error r (SchemaInvalid (df_rel df) msg)
                      | None => r
                      end
                  end
              end).
  { unfold try_schema_validate, schema_candidates. rewrite Hs, Ht, Hv.
    cbn [negb find].
    destruct (fs_is_file w schema); [reflexivity|].
    destruct (fs_is_file w (path_join (path_parent (df_path df)) schema));
      [reflexivity|].
    destruct (fs_is_file w (path_join schema_dir schema)); reflexivity. }
  split; [exact E|].
  intros sp raw sc Hf Hd Hr. rewrite E, Hf, Hd.
  unfold load_json_strict. rewrite decode_with_hook_exact, Hr. reflexivity.
Qed.

Lemma schema_search_order_witness :
  try_schema_validate schema_world "/repo/data/schema"
    (mkReport [] []) schema_user = mkReport [] [] /\
  find (fs_is_file schema_world)
    (schema_candidates "/repo/data/schema" schema_user "item.schema.json") =
  Some "/repo/data/schema/item.schema.json".
Proof.
  split; [|reflexivity].
  refine (eq_trans
            (proj1 (schema_search_order schema_world "/repo/data/schema"
                      (mkReport [] []) schema_user "item.schema.json"
                      (fun _ _ => None) eq_refl eq_refl eq_refl)) _).
  reflexivity.
Defined.

(* ------------------------------------------------------------------ *)
(** ** The rewrite, where it does sort *)

Lemma list_eqb_refl (l : list string) : list_eqb l l = true.
Proof.
  induction l as [|x l IH]; [reflexivity|]. cbn [list_eqb].
  now rewrite String.eqb_refl, IH.
Qed.

Lemma dict_get_Some_In V (k : string) (v : V) (d : dict V) :
  dict_get k d = Some v -> In (k, v) d.
Proof.
  induction d as [|[k' v'] r IH]; cbn [dict_get]; [discriminate|].
  destruct (String.eqb k k') eqn:E.
  - apply String.eqb_eq in E. intros H. inversion H; subst. now left.
  - intros H. right. now apply IH.
Qed.

Lemma pick_In (g : string -> option json) (keys : list string)
    (k : string) (v : json) :
  In (k, v) (pick g keys) -> In k keys /\ g k = Some v.
Proof.
  unfold pick. intros H. apply in_flat_map in H as (k' & Hk' & Hin).
  destruct (g k') as [v'|] eqn:E; [|contradiction].
  destruct Hin as [Heq|[]]. inversion Heq; subst. split; assumption.
Qed.

Lemma dict_get_pick_None (g : string -> option json) (keys : list string)
    (k : string) :
  ~ In k keys -> dict_get k (pick g keys) = None.
Proof.
  intros Hn. destruct (dict_get k (pick g keys)) as [v|] eqn:E;
    [|reflexivity].
  exfalso. apply Hn. apply dict_get_Some_In in E.
  now apply pick_In in E.
Qed.

Lemma hoist_id_defined (d : list (string * json)) (k : string) :
  In k (hoist_id (map fst d)) ->
  option_map sort_keys (dict_get k d) <> None.
Proof.
  intros Hk. apply (Permutation_in _ (hoist_id_perm (map fst d))) in Hk.
  apply dict_get_In in Hk. now destruct (dict_get k d).
Qed.

Lemma sort_keys_outside_arrays (v : json) :
  canonical_outside_arrays (sort_keys v) = true.
Proof.
  induction v as [| | | | |l IH|d IH] using json_induction;
    try reflexivity.
  rewrite sort_keys_dict.
  set (g := fun k => option_map sort_keys (dict_get k d)).
  cbn [canonical_outside_arrays].
  rewrite (pick_keys g _ (hoist_id_defined d)). apply andb_true_intro. split.
  - unfold keys_canonical. fold (hoist_id (hoist_id (map fst d))).
    rewrite hoist_id_idempotent. apply list_eqb_refl.
  - apply forallb_forall. intros [k v'] Hin. cbn [snd].
    apply pick_In in Hin as [_ Hg]. unfold g in Hg.
    destruct (dict_get k d) as [v0|] eqn:E; [|discriminate].
    cbn [option_map] in Hg. inversion Hg; subst v'.
    rewrite Forall_forall in IH.
    exact (IH (k, v0) (dict_get_Some_In _ _ _ _ E)).
Qed.

(** X9.  [sort_keys] keeps the keys of an object and the value under each
    key, rewritten in turn, and it puts every object that is reached
    through objects alone in canonical order: [id] first, the other keys
    ascending. *)
Theorem sort_keys_canonical_outside_arrays (v : json) :
  canonical_outside_arrays (sort_keys v) = true /\
  forall pairs, v = JDict pairs ->
    exists out,
      sort_keys v = JDict out /\
      Permutation (map fst out) (map fst pairs) /\
      (mem "id" (map fst pairs) = true -> hd_error (map fst out) = Some "id") /\
      forall k, dict_get k out = option_map sort_keys (dict_get k pairs).
Proof.
  split; [apply sort_keys_outside_arrays|].
  intros pairs ->. rewrite sort_keys_dict.
  set (g := fun k => option_map sort_keys (dict_get k pairs)).
  exists (pick g (hoist_id (map fst pairs))).
  split; [reflexivity|]. rewrite (pick_keys g _ (hoist_id_defined pairs)).
  split; [apply hoist_id_perm|]. split.
  - intros Hid. unfold hoist_id. rewrite Hid. reflexivity.
  - intros k. destruct (mem k (hoist_id (map fst pairs))) eqn:E.
    + apply mem_In in E. now apply dict_get_pick.
    + apply mem_false in E.
      rewrite (dict_get_pick_None g _ k E).
      assert (Hn : ~ In k (map fst pairs)).
      { intros Hk. apply E.
        apply (Permutation_in _ (Permutation_sym
                                   (hoist_id_perm (map fst pairs)))).
        exact Hk. }
      destruct (dict_get k pairs) as [v0|] eqn:E0; [|reflexivity].
      exfalso. apply Hn. apply dict_get_In. congruence.
Qed.

(** X10.  Rewriting is stable: the document that [stable_json_dump] wrote
    loads again without a duplicate-key error, and rewriting what was
    loaded from it gives the same bytes. *)
Theorem rewrite_twice_same_bytes (path : string) (raw v : json) :
  load_json_strict path (Decoded raw) = inr v ->
  load_json_strict path (Decoded (sort_keys v)) = inr (sort_keys v) /\
  stable_json_dump (sort_keys v) = stable_json_dump v.
Proof.
  intros H. exact (stable_json_dump_idempotent path raw v H).
Qed.

Lemma rewrite_twice_same_bytes_witness :
  stable_json_dump (sort_keys crafting_table) = stable_json_dump crafting_table.
Proof.
  exact (proj2 (rewrite_twice_same_bytes "data/table.json" crafting_table
                  crafting_table eq_refl)).
Defined.

(* ------------------------------------------------------------------ *)
(** ** The loop of [analyze] *)




Lemma file_accounts_for_record (root : string) (w : World) (jf : JsonFile) :
  (length (file_written root true w jf)
     + length (filter is_rewrite_failure (file_errors root true w jf))
   = length (datafiles_of root [jf]))%nat.
Proof.
  rewrite datafiles_of_single. unfold file_written, file_errors.
  destruct (classify root jf) as [e|v|pairs]; [reflexivity|reflexivity|].
  rewrite filter_app.
  replace (filter is_rewrite_failure
             match dict_get "id" pairs with
             | Some (JBool _) | Some (JInt _) | Some (JFloat _)
             | Some (JList _) | Some (JDict _) => [IdNotString (jf_rel jf)]
             | _ => []
             end) with (@nil finding)
    by (destruct (dict_get "id" pairs) as [[]|]; reflexivity).
  destruct (fs_write_error w (path_join root (jf_rel jf))); reflexivity.
Qed.

(** X12.  Without [--fix] no document is rewritten and no rewrite failure
    reported, whether the run returns or raises.  With [--fix] a run that
    returns has, for every record, either rewritten its file or reported
    one failure to do so. *)
Theorem fix_accounts_for_every_record (w : World)
    (utcnow root schema_dir : string) (fail_on_warning : bool) :
  written_of (analyze w utcnow root schema_dir false fail_on_warning) = [] /\
  (forall r,
      analyze w utcnow root schema_dir false fail_on_warning = Returned r ->
      filter is_rewrite_failure (errors (report r)) = []) /\
  (forall r listing,
      data_listing w = Some listing ->
      analyze w utcnow root schema_dir true fail_on_warning = Returned r ->
      (length (written r)
         + length (filter is_rewrite_failure (errors (report r)))
       = length (datafiles_of root (collect_json_files listing)))%nat).
Proof.
  assert (Hnone : forall files,
             flat_map (file_written root false w) files = []).
  { induction files as [|jf files IH]; [reflexivity|]. cbn [flat_map].
    rewrite IH, app_nil_r. unfold file_written.
    destruct (classify root jf); reflexivity. }
  assert (Horigin : forall f, is_rewrite_failure f = true ->
                              origin_of f = FromLoop)
    by (intros f Hf; destruct f; try discriminate; reflexivity).
  split; [|split].
  - destruct (analyze w utcnow root schema_dir false fail_on_warning)
      as [exc wr|r] eqn:Hr; cbn [written_of].
    + destruct (data_listing w) as [listing|] eqn:Hl;
        [|unfold analyze in Hr; rewrite Hl in Hr; discriminate].
      unfold analyze in Hr. rewrite Hl in Hr.
      destruct (scan_files _ _ _ _ (collect_json_files listing))
        as [[exc' wr']|st] eqn:Es; [|discriminate].
      injection Hr as <- <-.
      apply scan_files_raise in Es as (pre & _ & _ & _ & _ & ->).
      cbn [sc_written app]. apply Hnone.
    + apply analyze_inv in Hr as [[_ ->]|(listing & _ & _ & ->)];
        [reflexivity|]. cbn [written]. apply Hnone.
  - intros r Hr.
    apply analyze_inv in Hr as [[_ ->]|(listing & _ & _ & ->)];
      [reflexivity|]. cbn [report errors].
    rewrite (filter_run_errors is_rewrite_failure FromLoop _ _ _ _ _ Horigin).
    apply filter_none. apply Forall_flat_map. intros jf _.
    unfold file_errors.
    destruct (classify root jf) as [e|v|pairs]; repeat constructor.
    rewrite app_nil_r.
    destruct (dict_get "id" pairs) as [[]|]; repeat constructor.
  - intros r listing Hl Hr.
    apply analyze_inv in Hr as [[Hn _]|(listing' & Hl' & _ & ->)];
      [congruence|].
    rewrite Hl in Hl'. injection Hl' as <-. cbn [written report errors].
    rewrite (filter_run_errors is_rewrite_failure FromLoop _ _ _ _ _ Horigin).
    induction (collect_json_files listing) as [|jf files IH];
      [reflexivity|].
    rewrite datafiles_of_cons. cbn [flat_map].
    rewrite filter_app, !length_app, <- IH,
      <- (file_accounts_for_record root w jf). lia.
Qed.

Lemma manifest_data_of_records (root utcnow : string)
    (dfs : list DataFile) (assets : list Entry) (rep : Report) (s : Z)
    (wr : list (string * string)) (df : DataFile) :
  In df dfs ->
  In (manifest_data_entry df)
    (manifest_data
       (mkRun s rep (Some (build_manifest root utcnow dfs assets)) wr)).
Proof.
  intros Hdf. unfold manifest_data. cbn [manifest build_manifest dict_get].
  cbn [String.eqb Ascii.eqb Bool.eqb].
  apply in_map. eapply Permutation_in; [symmetry; apply sorted_by_perm|].
  exact Hdf.
Qed.

Lemma status_of_strict (rep : Report) :
  warnings rep <> [] -> status_of true rep = 1%Z.
Proof.
  intros Hw. unfold status_of.
  destruct (errors rep); [|reflexivity].
  destruct (warnings rep); [congruence|reflexivity].
Qed.

(** X13.  An [id] that is neither a string nor null costs the file one
    error and the run its zero status, but the file stays a record: it
    owns no identifier, and the manifest lists it with a null [id]. *)
Theorem non_string_id_is_dropped (w : World)
    (utcnow root schema_dir : string) (do_fix fail_on_warning : bool)
    (listing : list JsonFile) (r : Run) (jf : JsonFile)
    (pairs : list (string * json)) (v : json) :
  data_listing w = Some listing ->
  analyze w utcnow root schema_dir do_fix fail_on_warning = Returned r ->
  In jf (collect_json_files listing) ->
  classify root jf = Object pairs ->
  dict_get "id" pairs = Some v ->
  v <> JNull ->
  (forall s, v <> JStr s) ->
  let files := collect_json_files listing in
  In (IdNotString (jf_rel jf)) (errors (report r)) /\
  exit_status r = 1%Z /\
  In (datafile_of root jf pairs) (datafiles_of root files) /\
  (forall i owner,
      dict_get i (fst (build_index root files)) = Some owner ->
      owner <> datafile_of root jf pairs) /\
  exists rest,
    In (JDict (("id", JNull)
                 :: ("type", JStr (guess_type_from_path (jf_rel jf)))
                 :: ("path", JStr (jf_rel jf)) :: rest))
      (manifest_data r).
Proof.
  intros Hl Hr Hjf Hc Hid Hnull Hstr files.
  apply analyze_inv in Hr as [[Hn _]|(listing' & Hl' & Hok & ->)];
    [congruence|].
  rewrite Hl in Hl'. injection Hl' as <-. fold files. fold files in Hok.
  cbn [report errors exit_status].
  set (df := datafile_of root jf pairs).
  assert (Hdf : In df (datafiles_of root files))
    by (apply datafiles_of_In; eauto).
  assert (Hdfid : df_id df = None).
  { unfold df, datafile_of, string_field. cbn [df_id]. rewrite Hid.
    destruct v; try reflexivity. now elim (Hstr s). }
  assert (Herr : In (IdNotString (jf_rel jf))
                   (run_errors root schema_dir do_fix w files)).
  { unfold run_errors. apply in_or_app. left. apply in_flat_map.
    exists jf. split; [exact Hjf|]. unfold file_errors. rewrite Hc, Hid.
    apply in_or_app. left.
    destruct v; try (now left); [now elim Hnull|now elim (Hstr s)]. }
  split; [exact Herr|]. split.
  { apply status_of_errors. cbn [errors]. intros E. rewrite E in Herr.
    contradiction. }
  split; [exact Hdf|]. split.
  - intros i owner Ho ->.
    apply index_owner in Ho as (_ & _ & Hhas).
    unfold has_id in Hhas. fold df in Hhas. rewrite Hdfid in Hhas.
    discriminate.
  - eexists.
    pose proof (manifest_data_of_records root utcnow _
                  (collect_asset_files root w)
                  (mkReport (run_errors root schema_dir do_fix w files)
                     (run_warnings root schema_dir w files))
                  (status_of fail_on_warning
                     (mkReport (run_errors root schema_dir do_fix w files)
                        (run_warnings root schema_dir w files)))
                  (flat_map (file_written root do_fix w) files) df Hdf)
      as Hm.
    unfold manifest_data_entry in Hm. rewrite Hdfid in Hm. exact Hm.
Qed.

Lemma non_string_id_is_dropped_witness :
  exists r,
    analyze (world_of "/repo" [numbered]) "2026-01-01T00:00:00" "/repo"
      "/repo/data/schema" false false = Returned r /\
    In (IdNotString "data/items/n.json") (errors (report r)) /\
    exit_status r = 1%Z.
Proof.
  assert (H : exists r,
             analyze (world_of "/repo" [numbered]) "2026-01-01T00:00:00"
               "/repo" "/repo/data/schema" false false = Returned r)
    by (vm_compute; eexists; reflexivity).
  destruct H as (r & H). exists r. split; [exact H|].
  pose proof (non_string_id_is_dropped
                (world_of "/repo" [numbered]) "2026-01-01T00:00:00" "/repo"
                "/repo/data/schema" false false [numbered] r numbered
                [("id", JInt 7); ("$schema", JBool true)] (JInt 7)
                eq_refl H (or_introl eq_refl) eq_refl eq_refl
                ltac:(discriminate) ltac:(discriminate))
    as (H1 & H2 & _).
  split; [exact H1|exact H2].
Defined.

(** X14.  A [$schema] that is neither a string nor null is a warning that
    names the type found.  The record then counts as one without schema:
    the schema pass adds nothing for it, and the manifest lists it with
    [has_schema] false and a null [schema].  Under [--fail-on-warning]
    the run exits with 1. *)
Theorem non_string_schema_is_dropped (w : World)
    (utcnow root schema_dir : string) (do_fix fail_on_warning : bool)
    (listing : list JsonFile) (r : Run) (jf : JsonFile)
    (pairs : list (string * json)) (v : json) :
  data_listing w = Some listing ->
  analyze w utcnow root schema_dir do_fix fail_on_warning = Returned r ->
  In jf (collect_json_files listing) ->
  classify root jf = Object pairs ->
  dict_get "$schema" pairs = Some v ->
  v <> JNull ->
  (forall s, v <> JStr s) ->
  In (SchemaNotString (jf_rel jf) (type_name v)) (warnings (report r)) /\
  (forall rep,
      try_schema_validate w schema_dir rep (datafile_of root jf pairs) = rep)
  /\
  (fail_on_warning = true -> exit_status r = 1%Z) /\
  exists e,
    In (JDict e) (manifest_data r) /\
    dict_get "path" e = Some (JStr (jf_rel jf)) /\
    dict_get "has_schema" e = Some (JBool false) /\
    dict_get "schema" e = Some JNull.
Proof.
  intros Hl Hr Hjf Hc Hs Hnull Hstr.
  apply analyze_inv in Hr as [[Hn _]|(listing' & Hl' & Hok & ->)];
    [congruence|].
  rewrite Hl in Hl'. injection Hl' as <-.
  set (files := collect_json_files listing) in *.
  cbn [report warnings exit_status].
  set (df := datafile_of root jf pairs).
  assert (Hdf : In df (datafiles_of root files))
    by (apply datafiles_of_In; eauto).
  assert (Hdfs : df_schema df = None).
  { unfold df, datafile_of, string_field. cbn [df_schema]. rewrite Hs.
    destruct v; try reflexivity. now elim (Hstr s). }
  assert (Hw : In (SchemaNotString (jf_rel jf) (type_name v))
                 (run_warnings root schema_dir w files)).
  { unfold run_warnings. apply in_or_app. right. apply in_or_app. left.
    apply in_flat_map. exists jf. split; [exact Hjf|].
    unfold file_warnings. rewrite Hc, Hs.
    destruct v; try (now left); [now elim Hnull|now elim (Hstr s)]. }
  split; [exact Hw|]. split.
  { intros rep. unfold try_schema_validate. now rewrite Hdfs. }
  split.
  { intros ->. apply status_of_strict. cbn [warnings]. intros E.
    rewrite E in Hw. contradiction. }
  eexists. split.
  - apply (manifest_data_of_records root utcnow _ _ _ _ _ df Hdf).
  - rewrite Hdfs. split; [|split]; reflexivity.
Qed.

Lemma non_string_schema_is_dropped_witness :
  exists r,
    analyze (world_of "/repo" [numbered]) "2026-01-01T00:00:00" "/repo"
      "/repo/data/schema" false true = Returned r /\
    In (SchemaNotString "data/items/n.json" "bool") (warnings (report r)).
Proof.
  assert (H : exists r,
             analyze (world_of "/repo" [numbered]) "2026-01-01T00:00:00"
               "/repo" "/repo/data/schema" false true = Returned r)
    by (vm_compute; eexists; reflexivity).
  destruct H as (r & H). exists r. split; [exact H|].
  exact (proj1 (non_string_schema_is_dropped
                  (world_of "/repo" [numbered]) "2026-01-01T00:00:00" "/repo"
                  "/repo/data/schema" false true [numbered] r numbered
                  [("id", JInt 7); ("$schema", JBool true)] (JBool true)
                  eq_refl H (or_introl eq_refl) eq_refl eq_refl
                  ltac:(discriminate) ltac:(discriminate))).
Defined.

(** X15.  A data directory without a regular [.json] file is no error:
    the run warns once, writes a manifest without records that still lists
    the assets, rewrites nothing, and exits with 0, or with 1 under
    [--fail-on-warning]. *)
Theorem no_json_files_is_a_warning (w : World)
    (utcnow root schema_dir : string) (do_fix fail_on_warning : bool)
    (listing : list JsonFile) :
  data_listing w = Some listing ->
  forallb (fun jf => negb (jf_is_file jf)) listing = true ->
  analyze w utcnow root schema_dir do_fix fail_on_warning =
  Returned
    (mkRun (if fail_on_warning then 1 else 0)%Z
       (mkReport [] [NoJsonFiles])
       (Some (build_manifest root utcnow [] (collect_asset_files root w)))
       []).
Proof.
  intros Hl Hnone.
  assert (Hf : collect_json_files listing = []).
  { unfold collect_json_files. apply filter_none. apply Forall_forall.
    intros jf Hjf. rewrite forallb_forall in Hnone.
    apply Hnone in Hjf. now destruct (jf_is_file jf). }
  unfold analyze. rewrite Hl, Hf. cbn [scan_files].
  cbn [sc_datafiles sc_id_to_df sc_id_dups sc_report sc_written].
  destruct fail_on_warning; reflexivity.
Qed.

Lemma no_json_files_is_a_warning_witness :
  analyze (world_of "/repo" [folder_entry]) "2026-01-01T00:00:00" "/repo"
    "/repo/data/schema" true true =
  Returned
    (mkRun 1%Z (mkReport [] [NoJsonFiles])
       (Some (build_manifest "/repo" "2026-01-01T00:00:00" [] [])) []).
Proof.
  exact (no_json_files_is_a_warning (world_of "/repo" [folder_entry])
           "2026-01-01T00:00:00" "/repo" "/repo/data/schema" true true
           [folder_entry] eq_refl eq_refl).
Defined.

(* ------------------------------------------------------------------ *)
(** ** References, wherever the record is *)

(** X16.  The reference check runs on the finished index, so discovery
    order plays no part in it: an identifier listed as unresolved is a
    reference of the file named, and no record of the tree, discovered
    before or after that file, declares it. *)
Theorem references_resolve_in_any_order (w : World)
    (utcnow root schema_dir : string) (do_fix fail_on_warning : bool)
    (listing : list JsonFile) (r : Run) :
  data_listing w = Some listing ->
  NoDup (map jf_rel (collect_json_files listing)) ->
  analyze w utcnow root schema_dir do_fix fail_on_warning = Returned r ->
  forall rel missing x,
    In (UnresolvedRefs rel missing) (errors (report r)) ->
    In x missing ->
    (exists d,
        In d (datafiles_of root (collect_json_files listing)) /\
        df_rel d = rel /\ In x (df_deps d)) /\
    forall d,
      In d (datafiles_of root (collect_json_files listing)) ->
      df_id d = Some x -> x = "".
Proof.
  intros Hl Hnd Hr rel missing x Hin Hx.
  apply analyze_inv in Hr as [[Hn _]|(listing' & Hl' & Hok & ->)];
    [congruence|].
  rewrite Hl in Hl'. injection Hl' as <-.
  set (files := collect_json_files listing) in *.
  cbn [report errors] in Hin.
  apply run_errors_In in Hin. cbn [origin_of] in Hin.
  rewrite (unresolved_errors_closed _ _ (datafiles_of_NoDup root files Hnd))
    in Hin.
  apply in_flat_map in Hin as (df & Hdf & Hin).
  destruct (missing_refs _ df) as [|m ms] eqn:Em; [contradiction|].
  destruct Hin as [E|[]]. injection E as <- <-.
  rewrite sorted_In, set_of_list_In, <- Em in Hx.
  unfold missing_refs in Hx. apply filter_In in Hx as [Hdep Hno].
  split; [exists df; auto|].
  intros d Hd Hid.
  destruct (fold_index_add (datafiles_of root files)) as [_ Hix].
  specialize (Hix x). unfold index_holds in Hix.
  destruct (truthy x) eqn:Et.
  - exfalso. destruct Hix as [Hget _].
    unfold build_index in Hno. unfold dict_mem in Hno. rewrite Hget in Hno.
    assert (Ho : In d (filter (has_id x) (datafiles_of root files))).
    { apply filter_In. split; [exact Hd|]. unfold has_id. rewrite Hid.
      apply String.eqb_refl. }
    destruct (filter (has_id x) (datafiles_of root files));
      [contradiction|discriminate].
  - unfold truthy in Et. apply negb_false_iff in Et.
    now apply String.eqb_eq in Et.
Qed.

Lemma references_resolve_in_any_order_witness :
  exists r,
    analyze (world_of "/repo" [early_user; potion_user])
      "2026-01-01T00:00:00" "/repo" "/repo/data/schema" false false
      = Returned r /\
    filter (is_unresolved_of "data/items/0.json") (errors (report r)) =
      [UnresolvedRefs "data/items/0.json" ["saw"]] /\
    forall rel missing x,
      In (UnresolvedRefs rel missing) (errors (report r)) ->
      In x missing ->
      forall d,
        In d (datafiles_of "/repo"
                (collect_json_files [early_user; potion_user])) ->
        df_id d = Some x -> x = "".
Proof.
  assert (H : exists r,
             analyze (world_of "/repo" [early_user; potion_user])
               "2026-01-01T00:00:00" "/repo" "/repo/data/schema" false false
               = Returned r /\
             filter (is_unresolved_of "data/items/0.json")
               (errors (report r)) =
               [UnresolvedRefs "data/items/0.json" ["saw"]])
    by (vm_compute; eexists; split; reflexivity).
  destruct H as (r & H & He). exists r. split; [exact H|].
  split; [exact He|].
  assert (Hnd : NoDup (map jf_rel
                         (collect_json_files [early_user; potion_user]))).
  { repeat constructor; simpl; intuition discriminate. }
  intros rel missing x Hin Hx.
  exact (proj2 (references_resolve_in_any_order
                  (world_of "/repo" [early_user; potion_user])
                  "2026-01-01T00:00:00" "/repo" "/repo/data/schema"
                  false false [early_user; potion_user] r eq_refl Hnd H
                  rel missing x Hin Hx)).
Defined.

(* ------------------------------------------------------------------ *)
(** ** The manifest *)

Lemma counter_incr_sum (x : string) (c : dict Z) :
  sumZ (map snd (counter_incr x c)) = (sumZ (map snd c) + 1)%Z.
Proof.
  unfold counter_incr.
  induction c as [|[k n] c IH]; [reflexivity|].
  cbn [dict_get dict_set]. destruct (String.eqb x k).
  - cbn [map snd sumZ fold_right]. lia.
  - cbn [map snd sumZ fold_right]. fold (sumZ (map snd c)).
    change (fold_right Z.add 0%Z
              (map snd (dict_set x
                          match dict_get x c with
                          | Some n0 => (n0 + 1)%Z
                          | None => 1%Z
                          end c)))
      with (sumZ (map snd (dict_set x
                             match dict_get x c with
                             | Some n0 => (n0 + 1)%Z
                             | None => 1%Z
                             end c))).
    rewrite IH. lia.
Qed.

Lemma counter_sum (xs : list string) :
  forall c : dict Z,
    sumZ (map snd (fold_left (fun c x => counter_incr x c) xs c)) =
    (sumZ (map snd c) + Z.of_nat (length xs))%Z.
Proof.
  induction xs as [|x xs IH]; intros c; cbn [fold_left length].
  - lia.
  - rewrite IH, counter_incr_sum. lia.
Qed.

Lemma sumZ_perm (a b : list Z) : Permutation a b -> sumZ a = sumZ b.
Proof.
  unfold sumZ. induction 1; cbn [fold_right] in *; lia.
Qed.

Lemma dict_get_perm V (d d' : dict V) (k : string) :
  NoDup (map fst d) -> Permutation d d' -> dict_get k d = dict_get k d'.
Proof.
  intros Hnd Hp.
  assert (Hnd' : NoDup (map fst d'))
    by (eapply Permutation_NoDup; [apply Permutation_map; exact Hp|exact Hnd]).
  destruct (dict_get k d) as [v|] eqn:E.
  - symmetry. apply (dict_get_In_pair _ k v d' Hnd').
    apply (Permutation_in _ Hp). now apply (dict_get_In_pair _ k v d Hnd).
  - destruct (dict_get k d') as [v'|] eqn:E'; [|reflexivity].
    apply (dict_get_In_pair _ k v' d' Hnd') in E'.
    apply (Permutation_in _ (Permutation_sym Hp)) in E'.
    apply (dict_get_In_pair _ k v' d Hnd) in E'. congruence.
Qed.

Lemma sorted_items_increasing (l : dict Z) :
  Sorted (fun a b => item_leb a b = true) l ->
  NoDup (map fst l) -> increasing (map fst l).
Proof.
  unfold increasing. induction 1 as [|a l Hs IH Hh]; intros Hnd;
    cbn [map]; constructor.
  - apply IH. now inversion Hnd.
  - destruct Hh as [|b l Hab]; cbn [map]; constructor.
    unfold item_leb in Hab. unfold String.ltb.
    destruct (String.compare (fst a) (fst b)) eqn:E;
      [|reflexivity|discriminate].
    apply String.compare_eq_iff in E. inversion Hnd as [|? ? Hn _]; subst.
    elim Hn. rewrite E. now left.
Qed.

(** X17.  The manifest lists every record and every asset once, the
    records in the order of their key [(type, id or path)]; [data_files]
    and [assets] are their numbers; [types] lists the types in strictly
    increasing order, each with the number of records of that type, and
    these numbers add up to [data_files]. *)
Theorem manifest_stats_add_up (root utcnow : string) (dfs : list DataFile)
    (assets : list Entry) :
  exists data media types,
    build_manifest root utcnow dfs assets =
      JDict
        [("generated_at_utc", JStr (utcnow ++ "Z"));
         ("root", JStr root);
         ("data", JList (map manifest_data_entry data));
         ("assets", JList (map manifest_asset_entry media));
         ("stats",
          JDict
            [("data_files", JInt (Z.of_nat (length data)));
             ("assets", JInt (Z.of_nat (length media)));
             ("types",
              JDict (map (fun tn : string * Z => (fst tn, JInt (snd tn)))
                       types))])] /\
    Permutation data dfs /\
    Permutation media assets /\
    Sorted (fun a b => list_leb (data_key a) (data_key b) = true) data /\
    increasing (map fst types) /\
    (forall t,
        dict_get t types =
        match count_occ string_dec (map df_type_guess dfs) t with
        | O => None
        | S n => Some (Z.of_nat (S n))
        end) /\
    sumZ (map snd types) = Z.of_nat (length dfs).
Proof.
  set (data := sorted_by (fun a b => list_leb (data_key a) (data_key b)) dfs).
  set (media := sorted_by
                  (fun a b =>
                     list_leb (path_parts (path_join root (en_rel a)))
                       (path_parts (path_join root (en_rel b)))) assets).
  set (types := sorted_by item_leb (counter_of (map df_type_guess dfs))).
  assert (Hd : Permutation data dfs) by apply sorted_by_perm.
  assert (Hm : Permutation media assets) by apply sorted_by_perm.
  assert (Ht : Permutation types (counter_of (map df_type_guess dfs)))
    by apply sorted_by_perm.
  assert (Hnd : NoDup (map fst (counter_of (map df_type_guess dfs))))
    by (apply counter_NoDup; constructor).
  exists data, media, types.
  split.
  { unfold build_manifest. fold data media types.
    now rewrite (Permutation_length Hd), (Permutation_length Hm). }
  split; [exact Hd|]. split; [exact Hm|].
  split.
  { apply sorted_by_Sorted. intros a b.
    apply (leb_of_total _ list_compare list_compare_antisym). }
  split; [|split].
  - apply sorted_items_increasing.
    { apply sorted_by_Sorted. intros a b. rewrite !item_leb_of.
      apply (leb_of_total _ item_compare item_compare_antisym). }
    eapply Permutation_NoDup; [|exact Hnd].
    apply Permutation_map. now symmetry.
  - intros t.
    rewrite <- (dict_get_perm _ _ _ t Hnd (Permutation_sym Ht)).
    unfold counter_of. rewrite counter_get. reflexivity.
  - rewrite (sumZ_perm _ _ (Permutation_map snd Ht)).
    unfold counter_of. rewrite counter_sum, length_map. reflexivity.
Qed.

(* ------------------------------------------------------------------ *)
(** ** The Markdown report *)

Lemma filter_not_schema (o : origin) (l : list finding) :
  Forall (fun f => origin_of f = o) l ->
  filter (fun f => negb (from_schema f)) l =
  match o with
  | FromSchema => []
  | _ => l
  end.
Proof.
  intros Hl.
  assert (Hk : o <> FromSchema ->
               filter (fun f => negb (from_schema f)) l = l).
  { intros Ho. apply filter_all. eapply Forall_impl; [|exact Hl].
    intros f Hf. unfold from_schema. cbv beta. rewrite Hf.
    destruct o; try reflexivity. now elim Ho. }
  destruct o; try (apply Hk; discriminate).
  apply filter_none. eapply Forall_impl; [|exact Hl].
  intros f Hf. unfold from_schema. cbv beta. now rewrite Hf.
Qed.

Lemma run_errors_before_schema (root schema_dir : string) (do_fix : bool)
    (w : World) (files : list JsonFile) :
  filter (fun f => negb (from_schema f))
    (run_errors root schema_dir do_fix w files) =
  flat_map (file_errors root do_fix w) files
    ++ duplicate_errors (fst (build_index root files))
         (snd (build_index root files))
    ++ unresolved_errors (datafiles_of root files)
         (fst (build_index root files)).
Proof.
  unfold run_errors. rewrite !filter_app.
  rewrite (filter_not_schema FromLoop _
             (file_errors_origin root do_fix w files)).
  rewrite (filter_not_schema FromDuplicates _
             (duplicate_errors_origin _ _)).
  rewrite (filter_not_schema FromReferences _
             (unresolved_errors_origin _ _)).
  rewrite (filter_not_schema FromSchema
             (flat_map (fun df => errors (schema_findings w schema_dir df))
                (datafiles_of root files))).
  - now rewrite app_nil_r.
  - apply Forall_flat_map. intros df _.
    apply (schema_findings_origin w schema_dir df).
Qed.

Lemma run_warnings_before_schema (root schema_dir : string) (w : World)
    (files : list JsonFile) :
  filter (fun f => negb (from_schema f))
    (run_warnings root schema_dir w files) =
  match files with [] => [NoJsonFiles] | _ :: _ => [] end
    ++ flat_map (file_warnings root) files
    ++ asset_warnings root w (asset_set_of root w) (datafiles_of root files).
Proof.
  unfold run_warnings. rewrite !filter_app.
  rewrite (filter_not_schema FromGuard
             match files with [] => [NoJsonFiles] | _ :: _ => [] end)
    by (destruct files; repeat constructor).
  rewrite (filter_not_schema FromLoop _ (file_warnings_origin root files)).
  rewrite (filter_not_schema FromAssets _ (asset_warnings_origin _ _ _ _)).
  rewrite (filter_not_schema FromSchema
             (flat_map (fun df => warnings (schema_findings w schema_dir df))
                (datafiles_of root files))).
  - now rewrite app_nil_r.
  - apply Forall_flat_map. intros df _.
    apply (schema_findings_origin w schema_dir df).
Qed.

(** X18.  The Markdown report is written before the schema pass.  In a run
    that returns with a manifest it shows the numbers of the manifest and
    the errors and warnings of the final report except those of schema
    validation, which still count for the exit status. *)
Theorem report_md_omits_schema_findings (w : World)
    (utcnow root schema_dir : string) (do_fix fail_on_warning : bool)
    (listing : list JsonFile) (r : Run) :
  data_listing w = Some listing ->
  analyze w utcnow root schema_dir do_fix fail_on_warning = Returned r ->
  analyze_report_md w utcnow root do_fix =
  Some (report_md utcnow (records_of root w) (collect_asset_files root w)
          (mkReport
             (filter (fun f => negb (from_schema f)) (errors (report r)))
             (filter (fun f => negb (from_schema f)) (warnings (report r))))).
Proof.
  intros Hl Hr.
  apply analyze_inv in Hr as [[Hn _]|(listing' & Hl' & Hok & ->)];
    [congruence|].
  rewrite Hl in Hl'. injection Hl' as <-.
  cbn [report errors warnings].
  rewrite run_errors_before_schema, run_warnings_before_schema.
  unfold analyze_report_md, records_of. rewrite Hl.
  set (files := collect_json_files listing) in *.
  rewrite (scan_files_ok root do_fix w files _ Hok).
  cbn [sc_report sc_datafiles sc_id_to_df sc_id_dups sc_written].
  rewrite fold_error, fold_error, fold_warn.
  cbn [errors warnings app]. f_equal. f_equal.
  unfold build_index, asset_set_of.
  destruct files; cbn [errors warnings warn app];
    rewrite <- ?app_assoc; reflexivity.
Qed.

Lemma report_md_omits_schema_findings_witness :
  exists r,
    analyze rejecting_world "2026-01-01T00:00:00" "/repo"
      "/repo/data/schema" false false = Returned r /\
    exit_status r = 1%Z /\
    analyze_report_md rejecting_world "2026-01-01T00:00:00" "/repo" false =
    Some (report_md "2026-01-01T00:00:00" (records_of "/repo" rejecting_world)
            [] (mkReport [] [])).
Proof.
  assert (H : exists r,
             analyze rejecting_world "2026-01-01T00:00:00" "/repo"
               "/repo/data/schema" false false = Returned r /\
             exit_status r = 1%Z /\
             filter (fun f => negb (from_schema f)) (errors (report r)) = [] /\
             filter (fun f => negb (from_schema f)) (warnings (report r)) = [])
    by (vm_compute; eexists; repeat split; reflexivity).
  destruct H as (r & H & Hs & He & Hw). exists r. split; [exact H|].
  split; [exact Hs|].
  pose proof (report_md_omits_schema_findings rejecting_world
                "2026-01-01T00:00:00" "/repo" "/repo/data/schema" false false
                _ r eq_refl H) as Hm.
  rewrite He, Hw in Hm. exact Hm.
Defined.

(* ------------------------------------------------------------------ *)
(** ** What the flags change *)

(** X19.  The digest of a record in the manifest is that of the bytes the
    file had when it was read.  With [--fix] the file is rewritten after the
    digest was taken, so the manifest of that run keeps the digest of the
    old bytes beside the new contents of the file. *)
Theorem manifest_digest_is_of_bytes_read (w : World)
    (utcnow root schema_dir : string) (do_fix fail_on_warning : bool)
    (listing : list JsonFile) (r : Run) (jf : JsonFile)
    (pairs : list (string * json)) :
  data_listing w = Some listing ->
  analyze w utcnow root schema_dir do_fix fail_on_warning = Returned r ->
  In jf (collect_json_files listing) ->
  classify root jf = Object pairs ->
  (exists e,
      In (JDict e) (manifest_data r) /\
      dict_get "path" e = Some (JStr (jf_rel jf)) /\
      dict_get "sha256" e = Some (JStr (sha256_of_file (jf_bytes jf)))) /\
  (do_fix = true ->
   fs_write_error w (path_join root (jf_rel jf)) = None ->
   In (path_join root (jf_rel jf), stable_json_dump (JDict pairs))
     (written r)).
Proof.
  intros Hl Hr Hjf Hc.
  apply analyze_inv in Hr as [[Hn _]|(listing' & Hl' & Hok & ->)];
    [congruence|].
  rewrite Hl in Hl'. injection Hl' as <-.
  set (files := collect_json_files listing) in *.
  set (df := datafile_of root jf pairs).
  assert (Hdf : In df (datafiles_of root files))
    by (apply datafiles_of_In; eauto).
  split.
  - eexists. split.
    + apply (manifest_data_of_records root utcnow _ _ _ _ _ df Hdf).
    + split; reflexivity.
  - intros -> Hw. cbn [written]. apply in_flat_map. exists jf.
    split; [exact Hjf|]. unfold file_written. rewrite Hc, Hw. now left.
Qed.

Lemma manifest_digest_is_of_bytes_read_witness :
  exists r new_bytes,
    analyze (world_of "/repo" [unsorted_file]) "2026-01-01T00:00:00" "/repo"
      "/repo/data/schema" true false = Returned r /\
    written r = [("/repo/data/items/u.json", new_bytes)] /\
    String.eqb (sha256_of_file (list_byte_of_string new_bytes))
      (sha256_of_file (jf_bytes unsorted_file)) = false /\
    exists e,
      In (JDict e) (manifest_data r) /\
      dict_get "sha256" e =
        Some (JStr (sha256_of_file (jf_bytes unsorted_file))).
Proof.
  set (nb := stable_json_dump (JDict [("name", JStr "Urn");
                                      ("id", JStr "urn")])).
  assert (H : exists r,
             analyze (world_of "/repo" [unsorted_file]) "2026-01-01T00:00:00"
               "/repo" "/repo/data/schema" true false = Returned r /\
             written r = [("/repo/data/items/u.json", nb)] /\
             String.eqb (sha256_of_file (list_byte_of_string nb))
               (sha256_of_file (jf_bytes unsorted_file)) = false)
    by (vm_compute; eexists; split; [reflexivity|split; reflexivity]).
  destruct H as (r & H & Hw & Hne). exists r, nb.
  split; [exact H|]. split; [exact Hw|]. split; [exact Hne|].
  destruct (proj1 (manifest_digest_is_of_bytes_read
                     (world_of "/repo" [unsorted_file])
                     "2026-01-01T00:00:00" "/repo" "/repo/data/schema"
                     true false [unsorted_file] r unsorted_file
                     [("name", JStr "Urn"); ("id", JStr "urn")]
                     eq_refl H (or_introl eq_refl) eq_refl))
    as (e & He & _ & Hd).
  exists e. split; [exact He|exact Hd].
Defined.

(** X20.  [--fail-on-warning] changes the exit status and nothing else: the
    strict run returns whenever the plain one does, with the same report,
    manifest and rewritten files, and it exits with 1 exactly when the
    report holds an error or a warning. *)
Theorem fail_on_warning_changes_status_only (w : World)
    (utcnow root schema_dir : string) (do_fix : bool) (r : Run) :
  analyze w utcnow root schema_dir do_fix false = Returned r ->
  exists r',
    analyze w utcnow root schema_dir do_fix true = Returned r' /\
    report r' = report r /\
    manifest r' = manifest r /\
    written r' = written r /\
    (exit_status r <= exit_status r')%Z /\
    (exit_status r' = 1%Z <->
     errors (report r) <> [] \/ warnings (report r) <> []).
Proof.
  intros Hr.
  apply analyze_inv in Hr as [[Hn ->]|(listing & Hl & Hok & ->)].
  - eexists. split; [unfold analyze; rewrite Hn; reflexivity|].
    cbn [report manifest written exit_status errors warnings error app].
    repeat split; try lia. intros _. left. discriminate.
  - eexists. split; [apply (analyze_returns w utcnow root schema_dir do_fix
                              true listing Hl Hok)|].
    cbn [report manifest written exit_status errors warnings].
    split; [reflexivity|]. split; [reflexivity|]. split; [reflexivity|].
    unfold status_of. cbn [errors warnings].
    destruct (run_errors _ _ _ _ _) as [|e es];
      destruct (run_warnings _ _ _ _) as [|x xs];
      (split; [lia|]); split; try reflexivity; try discriminate;
      try (intros _; (left; discriminate) || (right; discriminate)).
    intros [H|H]; now elim H.
Qed.

Lemma fail_on_warning_changes_status_only_witness :
  exists r r',
    analyze (world_of "/repo" [icon_user]) "2026-01-01T00:00:00" "/repo"
      "/repo/data/schema" false false = Returned r /\
    analyze (world_of "/repo" [icon_user]) "2026-01-01T00:00:00" "/repo"
      "/repo/data/schema" false true = Returned r' /\
    exit_status r = 0%Z /\ exit_status r' = 1%Z /\ report r' = report r.
Proof.
  assert (H : exists r,
             analyze (world_of "/repo" [icon_user]) "2026-01-01T00:00:00"
               "/repo" "/repo/data/schema" false false = Returned r /\
             exit_status r = 0%Z /\ warnings (report r) <> [])
    by (vm_compute; eexists; repeat split; discriminate).
  destruct H as (r & H & Hs & Hw).
  destruct (fail_on_warning_changes_status_only
              (world_of "/repo" [icon_user]) "2026-01-01T00:00:00" "/repo"
              "/repo/data/schema" false r H)
    as (r' & H' & Hrep & _ & _ & _ & Hone).
  exists r, r'. split; [exact H|]. split; [exact H'|]. split; [exact Hs|].
  split; [|exact Hrep]. apply Hone. now right.
Defined.

(* ------------------------------------------------------------------ *)
(** ** The two tests of a media extension *)

Lemma string_length_app (a b : string) :
  String.length (a ++ b) = (String.length a + String.length b)%nat.
Proof.
  induction a as [|c a IH]; [reflexivity|]. cbn [append String.length].
  now rewrite IH.
Qed.

Lemma string_app_assoc (a b c : string) :
  ((a ++ b) ++ c = a ++ (b ++ c))%string.
Proof.
  induction a as [|x a IH]; [reflexivity|]. cbn [append]. now rewrite IH.
Qed.

Lemma substring_whole (s : string) : substring 0 (String.length s) s = s.
Proof.
  induction s as [|c s IH]; [reflexivity|]. cbn [String.length substring].
  now rewrite IH.
Qed.

Lemma substring_app_right (a b : string) :
  substring (String.length a) (String.length b) (a ++ b) = b.
Proof.
  induction a as [|c a IH]; [apply substring_whole|].
  cbn [String.length append substring]. exact IH.
Qed.

Lemma endswith_app (a b : string) : endswith (a ++ b) b = true.
Proof.
  unfold endswith. rewrite string_length_app. apply andb_true_intro. split.
  - apply Nat.leb_le. lia.
  - replace (String.length a + String.length b - String.length b)%nat
      with (String.length a) by lia.
    rewrite substring_app_right. apply String.eqb_refl.
Qed.

Lemma lower_app (a b : string) : lower (a ++ b) = (lower a ++ lower b)%string.
Proof.
  induction a as [|c a IH]; [reflexivity|]. cbn [append lower].
  now rewrite IH.
Qed.

Lemma substring_split (s : string) :
  forall i, (i <= String.length s)%nat ->
            s = (substring 0 i s
                   ++ substring i (String.length s - i) s)%string.
Proof.
  induction s as [|c s IH]; intros i Hi.
  - destruct i; reflexivity.
  - destruct i as [|i].
    + rewrite Nat.sub_0_r, substring_whole. reflexivity.
    + cbn [String.length] in Hi. cbn [substring append String.length].
      replace (S (String.length s) - S i)%nat
        with (String.length s - i)%nat by lia.
      f_equal. apply IH. lia.
Qed.

Lemma join_ends_with_last (cs : list string) :
  cs <> [] -> exists q, join "/" cs = (q ++ last cs "")%string.
Proof.
  induction cs as [|c cs IH]; intros Hne; [congruence|].
  destruct cs as [|c' cs'].
  - exists ""%string. reflexivity.
  - destruct (IH ltac:(discriminate)) as [q Hq].
    exists (c ++ "/" ++ q)%string.
    change (join "/" (c :: c' :: cs'))
      with (c ++ "/" ++ join "/" (c' :: cs'))%string.
    rewrite Hq. change (last (c :: c' :: cs') "") with (last (c' :: cs') "").
    now rewrite !string_app_assoc.
Qed.

Lemma split_slash_nonempty (s : string) : split_slash s <> [].
Proof.
  destruct s as [|c s]; cbn [split_slash]; [discriminate|].
  destruct (Ascii.eqb c "/"); [discriminate|].
  destruct (split_slash s); discriminate.
Qed.

Lemma split_slash_app (a b : string) :
  split_slash (a ++ "/" ++ b) = split_slash a ++ split_slash b.
Proof.
  induction a as [|c a IH]; [reflexivity|].
  cbn [append] in IH. cbn [append split_slash]. rewrite IH.
  destruct (Ascii.eqb c "/"); [reflexivity|].
  pose proof (split_slash_nonempty a) as Hn.
  destruct (split_slash a); [congruence|reflexivity].
Qed.

Lemma last_app_nonempty A (l l' : list A) (d : A) :
  l' <> [] -> last (l ++ l') d = last l' d.
Proof.
  intros Hne. induction l as [|x l IH]; [reflexivity|].
  cbn [app]. rewrite <- IH. cbn [last].
  destruct (l ++ l') eqn:E; [|reflexivity].
  apply app_eq_nil in E as [_ E]. congruence.
Qed.

Lemma join_relative (cs : list string) :
  Forall (fun c => is_component c = true) cs ->
  startswith (join "/" cs) "/" = false.
Proof.
  intros H. destruct cs as [|c cs]; [reflexivity|].
  inversion H as [|? ? Hc _]; subst. unfold is_component in Hc.
  apply andb_true_iff in Hc as [Hc _]. apply andb_true_iff in Hc as [Hc Hne].
  destruct c as [|a c]; [discriminate|]. cbn [no_slash] in Hc.
  apply andb_true_iff in Hc as [Ha _]. apply negb_true_iff in Ha.
  apply Ascii.eqb_neq in Ha.
  assert (Hp : forall rest, prefix "/" (String a rest) = false).
  { intros rest. cbn [prefix].
    destruct (ascii_dec "/" a) as [E|E]; [congruence|reflexivity]. }
  unfold startswith. destruct cs; [apply Hp|].
  change (join "/" (String a c :: s :: cs))
    with (String a (c ++ "/" ++ join "/" (s :: cs)))%string.
  apply Hp.
Qed.

Lemma suffix_passes_reference_test (p q name : string) :
  p = (q ++ name)%string ->
  (let s := match rfind_dot name with
            | Some i =>
                if ((0 <? i) && (i <? String.length name - 1))%nat
                then substring i (String.length name - i) name
                else ""%string
            | None => ""%string
            end in
   mem (lower s) ASSET_EXTS = true) ->
  is_asset_string p = true.
Proof.
  intros -> Hm. cbv zeta in Hm.
  destruct (rfind_dot name) as [i|]; [|discriminate].
  destruct ((0 <? i) && (i <? String.length name - 1))%nat eqn:Ei;
    [|discriminate].
  apply andb_true_iff in Ei as [_ Hi]. apply Nat.ltb_lt in Hi.
  unfold is_asset_string. apply existsb_exists.
  exists (lower (substring i (String.length name - i) name)).
  split; [now apply mem_In|].
  rewrite (substring_split name i) at 1 by lia.
  rewrite <- string_app_assoc, lower_app. apply endswith_app.
Qed.

(** X21.  The collector tests the suffix of the file name, the reference
    scan the end of the whole string; on a path made of proper components
    the first test implies the second.  So the path of every collected asset,
    relative to the root or joined to it, is taken for an asset reference
    when a document holds it as a string. *)
Theorem collected_asset_passes_reference_test (root : string) (e : Entry)
    (cs : list string) :
  cs <> [] ->
  Forall (fun c => is_component c = true) cs ->
  en_rel e = join "/" cs ->
  is_asset_entry root e = true ->
  is_asset_string (en_rel e) = true /\
  is_asset_string (path_join root (en_rel e)) = true.
Proof.
  intros Hne Hcs Hrel He. unfold is_asset_entry in He.
  apply andb_true_iff in He as [_ He]. rewrite Hrel in *.
  destruct (join_ends_with_last cs Hne) as [q Hq].
  assert (Hkeep : filter (fun p => negb (String.eqb p "" || String.eqb p "."))
                    cs = cs).
  { apply filter_all. eapply Forall_impl; [|exact Hcs].
    intros a Ha. unfold is_component in Ha.
    apply andb_true_iff in Ha as [Ha H2]. apply andb_true_iff in Ha as [_ H1].
    apply negb_true_iff in H1, H2. now rewrite H1, H2. }
  assert (Hns : Forall (fun c => no_slash c = true) cs).
  { eapply Forall_impl; [|exact Hcs]. intros a Ha. unfold is_component in Ha.
    apply andb_true_iff in Ha as [Ha _].
    now apply andb_true_iff in Ha as [Ha _]. }
  assert (Hlast : last (path_parts (path_join root (join "/" cs))) "" =
                  last cs "").
  { unfold path_join. rewrite (join_relative cs Hcs). unfold path_parts.
    rewrite split_slash_app, (split_slash_join cs Hne Hns), filter_app, Hkeep.
    rewrite app_assoc. now apply last_app_nonempty. }
  unfold path_suffix in He. rewrite Hlast in He.
  split.
  - exact (suffix_passes_reference_test _ q _ Hq He).
  - unfold path_join. rewrite (join_relative cs Hcs).
    apply (suffix_passes_reference_test _ (root ++ "/" ++ q) (last cs "")).
    + now rewrite Hq, !string_app_assoc.
    + exact He.
Qed.

Lemma collected_asset_passes_reference_test_witness :
  is_asset_string "res/Textures/A.PNG" = true /\
  is_asset_string "/repo/res/Textures/A.PNG" = true.
Proof.
  apply (collected_asset_passes_reference_test "/repo" loud_texture
           ["res"; "Textures"; "A.PNG"]).
  - discriminate.
  - repeat constructor.
  - reflexivity.
  - reflexivity.
Defined.

(* ------------------------------------------------------------------ *)
(** ** When a run reports no error *)

Lemma flat_map_nil A B (f : A -> list B) (l : list A) :
  flat_map f l = [] <-> forall x, In x l -> f x = [].
Proof.
  induction l as [|a l IH]; cbn [flat_map].
  - split; [intros _ x []|reflexivity].
  - split.
    + intros H. apply app_eq_nil in H as [Ha Hl].
      intros x [<-|Hx]; [exact Ha|]. now apply IH.
    + intros H. rewrite (H a (or_introl eq_refl)). cbn [app].
      apply IH. intros x Hx. apply H. now right.
Qed.

Lemma filter_nil A (p : A -> bool) (l : list A) :
  filter p l = [] <-> forall x, In x l -> p x = false.
Proof.
  induction l as [|a l IH]; cbn [filter].
  - split; [intros _ x []|reflexivity].
  - destruct (p a) eqn:E; split.
    + discriminate.
    + intros H. rewrite (H a (or_introl eq_refl)) in E. discriminate.
    + intros H x [<-|Hx]; [exact E|]. now apply IH.
    + intros H. apply IH. intros x Hx. apply H. now right.
Qed.

Lemma at_most_one A (p : A -> bool) (l : list A) :
  NoDup l ->
  ((length (filter p l) < 2)%nat <->
   forall a b, In a l -> In b l -> p a = true -> p b = true -> a = b).
Proof.
  intros Hnd. split.
  - intros Hlen a b Ha Hb Hpa Hpb.
    assert (Ha' : In a (filter p l)) by (apply filter_In; auto).
    assert (Hb' : In b (filter p l)) by (apply filter_In; auto).
    destruct (filter p l) as [|x [|y rest]]; [contradiction| |].
    + destruct Ha' as [<-|[]]. destruct Hb' as [<-|[]]. reflexivity.
    + cbn [length] in Hlen. lia.
  - intros H. pose proof (NoDup_filter p Hnd) as Hnf.
    destruct (filter p l) as [|x [|y rest]] eqn:E; cbn [length]; try lia.
    exfalso.
    assert (Hx : In x (filter p l)) by (rewrite E; now left).
    assert (Hy : In y (filter p l)) by (rewrite E; right; now left).
    apply filter_In in Hx as [Hx Hpx]. apply filter_In in Hy as [Hy Hpy].
    pose proof (H x y Hx Hy Hpx Hpy) as <-.
    inversion Hnf as [|? ? Hn _]; subst. apply Hn. now left.
Qed.

Lemma truthy_nonempty (i : string) : truthy i = true <-> i <> ""%string.
Proof.
  unfold truthy. rewrite negb_true_iff. apply String.eqb_neq.
Qed.

Lemma has_id_iff (i : string) (d : DataFile) :
  has_id i d = true <-> df_id d = Some i.
Proof.
  unfold has_id. destruct (df_id d) as [j|]; [|split; discriminate].
  rewrite String.eqb_eq. split; [now intros ->|now intros [= ->]].
Qed.

Lemma index_declares (dfs : list DataFile) (x : string) :
  dict_mem x (fst (fold_left index_add dfs ([], []))) = true <->
  x <> ""%string /\ exists o, In o dfs /\ df_id o = Some x.
Proof.
  destruct (fold_index_add dfs) as [_ Hix]. specialize (Hix x).
  unfold index_holds in Hix. unfold dict_mem.
  destruct (truthy x) eqn:Et.
  - destruct Hix as [-> _]. apply truthy_nonempty in Et.
    destruct (filter (has_id x) dfs) as [|o rest] eqn:E; cbn [hd_error].
    + split; [discriminate|]. intros (_ & o & Ho & Hid). exfalso.
      assert (Hin : In o (filter (has_id x) dfs))
        by (apply filter_In; split; [exact Ho|now apply has_id_iff]).
      rewrite E in Hin. contradiction.
    + split; [|reflexivity]. intros _. split; [exact Et|].
      assert (Hin : In o (filter (has_id x) dfs)) by (rewrite E; now left).
      apply filter_In in Hin as [Ho Hid]. exists o.
      split; [exact Ho|now apply has_id_iff].
  - destruct Hix as [-> _]. split; [discriminate|]. intros (Hne & _).
    apply truthy_nonempty in Hne. congruence.
Qed.

Lemma index_counts (dfs : list DataFile) :
  snd (fold_left index_add dfs ([], [])) = [] <->
  forall i, i <> ""%string -> (length (filter (has_id i) dfs) < 2)%nat.
Proof.
  destruct (fold_index_add dfs) as [_ Hix]. split.
  - intros E i Hi. specialize (Hix i). unfold index_holds in Hix.
    apply truthy_nonempty in Hi. rewrite Hi, E in Hix.
    destruct Hix as [_ Hd]. cbn [dict_get] in Hd.
    destruct (2 <=? length (filter (has_id i) dfs))%nat eqn:E2;
      [discriminate|]. apply Nat.leb_gt in E2. exact E2.
  - intros H.
    destruct (snd (fold_left index_add dfs ([], []))) as [|[k c] rest] eqn:E;
      [reflexivity|]. exfalso.
    specialize (Hix k). unfold index_holds in Hix. rewrite E in Hix.
    cbn [dict_get] in Hix. rewrite String.eqb_refl in Hix.
    destruct (truthy k) eqn:Et.
    + apply truthy_nonempty in Et. specialize (H k Et).
      destruct Hix as [_ Hd]. apply Nat.leb_gt in H. rewrite H in Hd.
      discriminate.
    + destruct Hix as [_ Hd]. discriminate.
Qed.

Lemma file_errors_nil (root : string) (do_fix : bool) (w : World)
    (jf : JsonFile) :
  is_not_object root jf = false ->
  (file_errors root do_fix w jf = [] <->
   exists pairs,
     classify root jf = Object pairs /\ id_accepted pairs = true /\
     (do_fix = true -> fs_write_error w (path_join root (jf_rel jf)) = None)).
Proof.
  unfold is_not_object, file_errors, id_accepted.
  destruct (classify root jf) as [e|v|pairs]; intros Hno.
  - split; [discriminate|]. intros (p & Hp & _). discriminate.
  - discriminate.
  - split.
    + intros H. apply app_eq_nil in H as [H1 H2]. exists pairs.
      split; [reflexivity|]. split.
      * destruct (dict_get "id" pairs) as [[]|]; try reflexivity;
          discriminate.
      * intros ->.
        destruct (fs_write_error w (path_join root (jf_rel jf)));
          [discriminate|reflexivity].
    + intros (p & Hp & Hid & Hw). injection Hp as <-.
      destruct do_fix.
      * rewrite (Hw eq_refl), app_nil_r.
        destruct (dict_get "id" pairs) as [[]|]; try reflexivity;
          discriminate.
      * rewrite app_nil_r.
        destruct (dict_get "id" pairs) as [[]|]; try reflexivity;
          discriminate.
Qed.

(** X22.  A run that returns reports no error exactly when every file
    loads to an object whose [id] is a string, null or absent, every
    rewrite asked for succeeds, no two records declare the same non-empty
    identifier, every reference is non-empty and names the identifier of a
    record of the tree, and the schema pass finds no error. *)
Theorem no_error_exactly_when_clean (w : World)
    (utcnow root schema_dir : string) (do_fix fail_on_warning : bool)
    (listing : list JsonFile) (r : Run) :
  data_listing w = Some listing ->
  NoDup (map jf_rel (collect_json_files listing)) ->
  analyze w utcnow root schema_dir do_fix fail_on_warning = Returned r ->
  let files := collect_json_files listing in
  let dfs := datafiles_of root files in
  errors (report r) = [] <->
  (forall jf, In jf files ->
     exists pairs,
       classify root jf = Object pairs /\ id_accepted pairs = true /\
       (do_fix = true ->
        fs_write_error w (path_join root (jf_rel jf)) = None)) /\
  (forall d1 d2 i,
      In d1 dfs -> In d2 dfs -> i <> ""%string ->
      df_id d1 = Some i -> df_id d2 = Some i -> d1 = d2) /\
  (forall d x,
      In d dfs -> In x (df_deps d) ->
      x <> ""%string /\ exists o, In o dfs /\ df_id o = Some x) /\
  (forall d, In d dfs -> errors (schema_findings w schema_dir d) = []).
Proof.
  intros Hl Hnd Hr files dfs.
  apply analyze_inv in Hr as [[Hn _]|(listing' & Hl' & Hok & ->)];
    [congruence|].
  rewrite Hl in Hl'. injection Hl' as <-. fold files in Hok, Hnd.
  cbn [report errors]. unfold run_errors. fold files. fold dfs.
  unfold build_index. fold dfs.
  pose proof (datafiles_of_NoDup root files Hnd) as Hndr. fold dfs in Hndr.
  assert (Hndd : NoDup dfs) by (eapply NoDup_map_inv; exact Hndr).
  assert (H1 : flat_map (file_errors root do_fix w) files = [] <->
               forall jf, In jf files ->
                 exists pairs,
                   classify root jf = Object pairs /\
                   id_accepted pairs = true /\
                   (do_fix = true ->
                    fs_write_error w (path_join root (jf_rel jf)) = None)).
  { rewrite flat_map_nil. split; intros H jf Hjf.
    - apply (file_errors_nil root do_fix w jf); [|now apply H].
      rewrite <- not_true_iff_false. intros Hn.
      assert (Hex : existsb (is_not_object root) files = true)
        by (apply existsb_exists; eauto).
      congruence.
    - apply (file_errors_nil root do_fix w jf); [|now apply H].
      rewrite <- not_true_iff_false. intros Hn.
      assert (Hex : existsb (is_not_object root) files = true)
        by (apply existsb_exists; eauto).
      congruence. }
  assert (H2 : duplicate_errors (fst (fold_left index_add dfs ([], [])))
                 (snd (fold_left index_add dfs ([], []))) = [] <->
               forall d1 d2 i,
                 In d1 dfs -> In d2 dfs -> i <> ""%string ->
                 df_id d1 = Some i -> df_id d2 = Some i -> d1 = d2).
  { unfold duplicate_errors. split.
    - intros H d1 d2 i Hd1 Hd2 Hi E1 E2. apply map_eq_nil in H.
      apply (proj1 (index_counts dfs)) with (i := i) in H; [|exact Hi].
      apply (proj1 (at_most_one _ (has_id i) dfs Hndd) H d1 d2 Hd1 Hd2);
        now apply has_id_iff.
    - intros H.
      assert (E : snd (fold_left index_add dfs ([], [])) = []).
      { apply index_counts. intros i Hi.
        apply (at_most_one _ (has_id i) dfs Hndd).
        intros a b Ha Hb Hpa Hpb.
        apply (H a b i Ha Hb Hi); now apply has_id_iff. }
      now rewrite E. }
  assert (H3 : unresolved_errors dfs (fst (fold_left index_add dfs ([], [])))
               = [] <->
               forall d x,
                 In d dfs -> In x (df_deps d) ->
                 x <> ""%string /\ exists o, In o dfs /\ df_id o = Some x).
  { rewrite (unresolved_errors_closed _ _ Hndr), flat_map_nil. split.
    - intros H d x Hd Hx. specialize (H d Hd).
      destruct (missing_refs _ d) eqn:Em; [|discriminate].
      unfold missing_refs in Em.
      apply (proj1 (filter_nil _ _ _)) with (x := x) in Em; [|exact Hx].
      apply negb_false_iff in Em. now apply index_declares.
    - intros H d Hd.
      assert (Em : missing_refs (fst (fold_left index_add dfs ([], []))) d
                   = []).
      { unfold missing_refs. apply filter_nil. intros x Hx.
        apply negb_false_iff. apply index_declares. now apply (H d). }
      now rewrite Em. }
  assert (H4 : flat_map (fun df => errors (schema_findings w schema_dir df))
                 dfs = [] <->
               forall d, In d dfs ->
                         errors (schema_findings w schema_dir d) = [])
    by apply flat_map_nil.
  split.
  - intros H. apply app_eq_nil in H as [E1 H].
    apply app_eq_nil in H as [E2 H]. apply app_eq_nil in H as [E3 E4].
    split; [now apply H1|]. split; [now apply H2|].
    split; [now apply H3|now apply H4].
  - intros (C1 & C2 & C3 & C4).
    rewrite (proj2 H1 C1), (proj2 H2 C2), (proj2 H3 C3), (proj2 H4 C4).
    reflexivity.
Qed.

Lemma no_error_exactly_when_clean_witness :
  exists r,
    analyze (world_of "/repo" [early_user; potion_user])
      "2026-01-01T00:00:00" "/repo" "/repo/data/schema" false false
      = Returned r /\
    (errors (report r) = [] <->
     (forall jf, In jf (collect_json_files [early_user; potion_user]) ->
        exists pairs,
          classify "/repo" jf = Object pairs /\ id_accepted pairs = true /\
          (false = true ->
           fs_write_error (world_of "/repo" [early_user; potion_user])
             (path_join "/repo" (jf_rel jf)) = None)) /\
     (forall d1 d2 i,
         In d1 (datafiles_of "/repo"
                  (collect_json_files [early_user; potion_user])) ->
         In d2 (datafiles_of "/repo"
                  (collect_json_files [early_user; potion_user])) ->
         i <> ""%string ->
         df_id d1 = Some i -> df_id d2 = Some i -> d1 = d2) /\
     (forall d x,
         In d (datafiles_of "/repo"
                 (collect_json_files [early_user; potion_user])) ->
         In x (df_deps d) ->
         x <> ""%string /\
         exists o,
           In o (datafiles_of "/repo"
                   (collect_json_files [early_user; potion_user])) /\
           df_id o = Some x) /\
     (forall d,
         In d (datafiles_of "/repo"
                 (collect_json_files [early_user; potion_user])) ->
         errors (schema_findings (world_of "/repo" [early_user; potion_user])
                   "/repo/data/schema" d) = [])).
Proof.
  assert (H : exists r,
             analyze (world_of "/repo" [early_user; potion_user])
               "2026-01-01T00:00:00" "/repo" "/repo/data/schema" false false
               = Returned r)
    by (vm_compute; eexists; reflexivity).
  destruct H as (r & H). exists r. split; [exact H|].
  assert (Hnd : NoDup (map jf_rel
                         (collect_json_files [early_user; potion_user]))).
  { repeat constructor; simpl; intuition discriminate. }
  exact (no_error_exactly_when_clean
           (world_of "/repo" [early_user; potion_user])
           "2026-01-01T00:00:00" "/repo" "/repo/data/schema" false false
           [early_user; potion_user] r eq_refl Hnd H).
Defined.
